(** * Previewer: consensus-and-reward settlement engine

    A shallow embedding of the settlement core of the Previewer backend:

    - [backend/src/services/solana.js]    (SolanaService: pricing oracle and
      the simulated payout dispatcher [sendReward]),
    - [backend/src/services/consensus.js] (ConsensusService: readiness test,
      vote tally, ranking, reward computation, settlement transaction; the
      class follows the WebSocket service in [services/websocket.js]),
    - [backend/src/routers/worker.js]     (POST /submission, POST /payout),
    - [backend/src/db.js]                 ([getNextTask]),

    together with the properties of these functions.

    JavaScript numbers that the code divides or multiplies are IEEE-754
    binary64 values: they are modelled bit-exactly by [spec_float] at
    precision 53 and maximal exponent 1024, with round-to-nearest-even
    operations taken from the specification of floating-point arithmetic
    of the standard library.  Integer columns of the ledger are [Z]; a
    credit of a balance is refused when it leaves the range of an [Int]
    column. *)

From Stdlib Require Import ZArith QArith Qabs Qround List String Bool Lia Permutation Sorted.
From Stdlib Require Import Floats.SpecFloat.
Import ListNotations.
Open Scope Z_scope.

(* ===================================================================== *)
(** ** JavaScript numbers *)
(* ===================================================================== *)

Module JS.

Definition number := spec_float.

Definition prec : Z := 53.
Definition emax : Z := 1024.

Definition NaN : number := S754_nan.
Definition zero : number := S754_zero false.

(** The Number that an integer literal or an integer column denotes. *)
Definition of_Z (z : Z) : number := binary_normalize prec emax z 0 false.

Definition div (x y : number) : number := SFdiv prec emax x y.
Definition mul (x y : number) : number := SFmul prec emax x y.

(** [x >= y] *)
Definition ge (x y : number) : bool := SFleb y x.

(** ToBoolean on a Number: [0], [-0] and [NaN] are falsy. *)
Definition truthy (x : number) : bool :=
  match x with
  | S754_zero _ | S754_nan => false
  | _ => true
  end.

(** [x || y] on Numbers. *)
Definition or (x y : number) : number := if truthy x then x else y.

(** [Math.floor] *)
Definition Math_floor (x : number) : number :=
  match x with
  | S754_finite s m e =>
      if 0 <=? e then x
      else
        let q := Z.shiftr (Zpos m) (- e) in
        if s then
          let n := if Z.shiftl q (- e) =? Zpos m then q else q + 1 in
          binary_normalize prec emax (- n) 0 true
        else binary_normalize prec emax q 0 false
  | _ => x
  end.

(** The integer a Number holds, if it holds one (what an [Int] column
    accepts). *)
Definition to_Z (x : number) : option Z :=
  match x with
  | S754_zero _ => Some 0
  | S754_finite s m e =>
      let v :=
        if 0 <=? e then Some (Z.shiftl (Zpos m) e)
        else
          let q := Z.shiftr (Zpos m) (- e) in
          if Z.shiftl q (- e) =? Zpos m then Some q else None in
      match v with
      | Some a => Some (if s then - a else a)
      | None => None
      end
  | _ => None
  end.

(** The rational number a finite Number is; 0 for the others. *)
Definition to_Q (x : number) : Q :=
  match x with
  | S754_finite s m e =>
      let v := match e with
               | Zneg p => Qmake (Zpos m) (2 ^ p)
               | _ => inject_Z (Zpos m * 2 ^ e)
               end in
      if s then Qopp v else v
  | _ => 0%Q
  end.

End JS.

(* ===================================================================== *)
(** ** Configuration: [process.env] after [parseInt] / [parseFloat] *)
(* ===================================================================== *)

(** Each field is the Number that [parseInt(process.env.X)] or
    [parseFloat(process.env.X)] evaluates to; it is [NaN] when the variable
    is unset or malformed. *)
Record Env := {
  MARKETING_IMAGES_200_PRICE : JS.number;
  MARKETING_IMAGES_500_PRICE : JS.number;
  YOUTUBE_THUMBNAILS_200_PRICE : JS.number;
  YOUTUBE_THUMBNAILS_500_PRICE : JS.number;
  VIDEOS_100_PRICE : JS.number;
  VIDEOS_300_PRICE : JS.number;
  VIDEO_MAJORITY_REWARD : JS.number;
  IMAGE_THUMBNAIL_MAJORITY_REWARD : JS.number;
  SECOND_PLACE_MULTIPLIER : JS.number;
  THIRD_PLACE_MULTIPLIER : JS.number
}.

(* ===================================================================== *)
(** ** SolanaService: the pricing oracle *)
(* ===================================================================== *)

Module SolanaService.

(** The object literal [priceMap] and its own properties.  A lookup of
    any other category yields [undefined], or a property inherited from
    [Object.prototype], which has no property named by an integer: the
    second lookup then yields [undefined] ([None]) all the same. *)
Definition priceMap (env : Env) : list (string * list (Z * JS.number)) :=
  [ ("MARKETING_IMAGES"%string,
      [ (200, MARKETING_IMAGES_200_PRICE env);
        (500, MARKETING_IMAGES_500_PRICE env) ]);
    ("YOUTUBE_THUMBNAILS"%string,
      [ (200, YOUTUBE_THUMBNAILS_200_PRICE env);
        (500, YOUTUBE_THUMBNAILS_500_PRICE env) ]);
    ("VIDEOS"%string,
      [ (100, VIDEOS_100_PRICE env);
        (300, VIDEOS_300_PRICE env) ]) ].

Fixpoint prop_string {A} (o : list (string * A)) (k : string) : option A :=
  match o with
  | [] => None
  | (k', v) :: o' => if String.eqb k k' then Some v else prop_string o' k
  end.

Fixpoint prop_int {A} (o : list (Z * A)) (k : Z) : option A :=
  match o with
  | [] => None
  | (k', v) :: o' => if k =? k' then Some v else prop_int o' k
  end.

(** [priceMap[serviceType]?.[reviewCount]] *)
Definition price_entry (env : Env) (serviceType : string) (reviewCount : Z)
  : option JS.number :=
  match prop_string (priceMap env) serviceType with
  | Some tiers => prop_int tiers reviewCount
  | None => None
  end.

(** [return priceMap[serviceType]?.[reviewCount] || 0;] *)
Definition getServicePrice (env : Env) (serviceType : string) (reviewCount : Z)
  : JS.number :=
  match price_entry env serviceType reviewCount with
  | Some p => JS.or p JS.zero
  | None => JS.zero
  end.

Definition calculateWorkerReward (env : Env) (serviceType : string) (rank : Z)
  : JS.number :=
  let baseReward :=
    if String.eqb serviceType "VIDEOS"
    then VIDEO_MAJORITY_REWARD env
    else IMAGE_THUMBNAIL_MAJORITY_REWARD env in
  match rank with
  | 1 => baseReward
  | 2 => JS.Math_floor (JS.mul baseReward (SECOND_PLACE_MULTIPLIER env))
  | 3 => JS.Math_floor (JS.mul baseReward (THIRD_PLACE_MULTIPLIER env))
  | _ => JS.zero
  end.

(** The (category, review-count) pairs of the fixed pricing table. *)
Definition in_pricing_table (serviceType : string) (reviewCount : Z) : bool :=
  (String.eqb serviceType "MARKETING_IMAGES" && ((reviewCount =? 200) || (reviewCount =? 500)))
  || (String.eqb serviceType "YOUTUBE_THUMBNAILS" && ((reviewCount =? 200) || (reviewCount =? 500)))
  || (String.eqb serviceType "VIDEOS" && ((reviewCount =? 100) || (reviewCount =? 300))).

End SolanaService.

(** A sample configuration (lamports; the multipliers are the doubles
    nearest to 0.7 and 0.4). *)
Definition sample_env : Env := {|
  MARKETING_IMAGES_200_PRICE := JS.of_Z 50000000;
  MARKETING_IMAGES_500_PRICE := JS.of_Z 100000000;
  YOUTUBE_THUMBNAILS_200_PRICE := JS.of_Z 50000000;
  YOUTUBE_THUMBNAILS_500_PRICE := JS.of_Z 100000000;
  VIDEOS_100_PRICE := JS.of_Z 60000000;
  VIDEOS_300_PRICE := JS.of_Z 150000000;
  VIDEO_MAJORITY_REWARD := JS.of_Z 100;
  IMAGE_THUMBNAIL_MAJORITY_REWARD := JS.of_Z 59;
  SECOND_PLACE_MULTIPLIER := JS.div (JS.of_Z 7) (JS.of_Z 10);
  THIRD_PLACE_MULTIPLIER := JS.div (JS.of_Z 4) (JS.of_Z 10)
|}.

(* ===================================================================== *)
(** ** The ledger: rows of the Prisma models *)
(* ===================================================================== *)

(** Primary keys are [SERIAL] columns: integers of [1 .. 2^31-1]. *)

Module Task.
Record t := {
  id : N;
  serviceType : string;
  reviewCount : Z;
  amount : Z;
  done : bool;
  createdAt : Z;
  completedAt : option Z
}.
End Task.

Module Option.
Record t := { id : N; task_id : N }.
End Option.

Module Submission.
Record t := {
  id : N;
  option_id : N;
  worker_id : N;
  task_id : N;
  amount : Z
}.
End Submission.

Module TaskResult.
Record t := { id : N; task_id : N }.
End TaskResult.

Module OptionResult.
Record t := {
  id : N;
  option_id : N;
  task_result_id : N;
  vote_count : Z;
  rank : Z;
  percentage : JS.number
}.
End OptionResult.

Module Worker.
Record t := {
  id : N;
  address : string;
  pending_amount : Z;
  locked_amount : Z;
  total_earned : Z;
  tasks_completed : Z
}.
End Worker.

Inductive TxnStatus := Processing | Success | Failure.

Module WorkerWithdrawal.
Record t := {
  id : N;
  workerId : N;
  amount : Z;
  signature : string;
  status : TxnStatus;
  processedAt : option Z
}.
End WorkerWithdrawal.

(** A task loaded with [include: { submissions: true, options: true }]. *)
Record LoadedTask := {
  task : Task.t;
  submissions : list Submission.t;
  options : list Option.t
}.

(* ===================================================================== *)
(** ** JavaScript objects with integer keys, arrays *)
(* ===================================================================== *)

(** An ordinary object whose keys are array indices enumerates its own
    properties in ascending numeric order of the keys, whatever the order
    in which they were created.  The object is kept as an association list
    in that order. *)
Module JSObject.

Definition t (A : Type) := list (N * A).

Fixpoint get {A} (o : t A) (k : N) : option A :=
  match o with
  | [] => None
  | (k', v) :: o' => if N.eqb k k' then Some v else get o' k
  end.

(** [o[k] = v] *)
Fixpoint set {A} (k : N) (v : A) (o : t A) : t A :=
  match o with
  | [] => [(k, v)]
  | (k', v') :: o' =>
      if N.eqb k k' then (k, v) :: o'
      else if N.ltb k k' then (k, v) :: (k', v') :: o'
      else (k', v') :: set k v o'
  end.

Definition keys {A} (o : t A) : list N := map fst o.

(** [Object.values(o)] *)
Definition values {A} (o : t A) : list A := map snd o.

End JSObject.

Module Array.

(** [Array.prototype.sort(cmp)] is a stable sort: [x] is placed before
    the first [y] that [cmp] orders strictly after it. *)
Fixpoint insert {A} (cmp : A -> A -> Z) (x : A) (l : list A) : list A :=
  match l with
  | [] => [x]
  | y :: l' => if cmp x y <=? 0 then x :: l else y :: insert cmp x l'
  end.

Definition sort {A} (cmp : A -> A -> Z) (l : list A) : list A :=
  fold_right (insert cmp) [] l.

(** [Array.prototype.entries()] : the pairs (index, element). *)
Fixpoint entries_from {A} (i : Z) (l : list A) : list (Z * A) :=
  match l with
  | [] => []
  | x :: l' => (i, x) :: entries_from (i + 1) l'
  end.

Definition entries {A} (l : list A) : list (Z * A) := entries_from 0 l.

(** [l.map((x, index) => f x index)] *)
Definition mapi {A B} (f : A -> Z -> B) (l : list A) : list B :=
  map (fun p => f (snd p) (fst p)) (entries l).

(** [l.slice(0, n)] *)
Definition slice0 {A} (n : nat) (l : list A) : list A := firstn n l.

Definition length {A} (l : list A) : Z := Z.of_nat (List.length l).

End Array.

(* ===================================================================== *)
(** ** ConsensusService: the pure part *)
(* ===================================================================== *)

(** The per-option accumulator of [calculateConsensus]. *)
Record VoteCount := {
  vc_optionId : N;
  vc_count : Z;
  vc_voters : list N;
  vc_option : Option.t
}.

(** An element of [sortedResults]: the accumulator spread, with [rank] and
    [percentage]. *)
Record RankedResult := {
  optionId : N;
  count : Z;
  voters : list N;
  option_ : Option.t;
  rank : Z;
  percentage : JS.number
}.

Record WorkerReward := {
  wr_workerId : N;
  wr_optionId : N;
  wr_rank : Z;
  wr_amount : JS.number;
  wr_percentage : JS.number
}.

Record TaskStatus := {
  ts_taskId : N;
  requiredSubmissions : Z;
  currentSubmissions : Z;
  completionPercentage : JS.number;
  isReadyForConsensus : bool;
  ts_task : LoadedTask
}.

Record Consensus := {
  c_taskId : N;
  totalSubmissions : Z;
  results : list RankedResult;
  workerRewards : list WorkerReward;
  consensusReached : bool
}.

Module ConsensusService.

(** [this.MINIMUM_SUBMISSIONS_THRESHOLD = 0.8]: the double nearest to
    8/10. *)
Definition MINIMUM_SUBMISSIONS_THRESHOLD : JS.number :=
  JS.div (JS.of_Z 8) (JS.of_Z 10).

(** The body of [checkTaskCompletion] once the task is loaded. *)
Definition taskStatus (taskId : N) (t : LoadedTask) : TaskStatus :=
  let requiredSubmissions := Task.reviewCount (task t) in
  let currentSubmissions := Array.length (submissions t) in
  let completionPercentage :=
    JS.div (JS.of_Z currentSubmissions) (JS.of_Z requiredSubmissions) in
  {| ts_taskId := taskId;
     requiredSubmissions := requiredSubmissions;
     currentSubmissions := currentSubmissions;
     completionPercentage := completionPercentage;
     isReadyForConsensus :=
       JS.ge completionPercentage MINIMUM_SUBMISSIONS_THRESHOLD;
     ts_task := t |}.

(** [task.options.forEach(option => { voteCounts[option.id] = {...} })] *)
Definition initVoteCounts (opts : list Option.t) : JSObject.t VoteCount :=
  fold_left
    (fun voteCounts o =>
       JSObject.set (Option.id o)
         {| vc_optionId := Option.id o; vc_count := 0;
            vc_voters := []; vc_option := o |}
         voteCounts)
    opts [].

(** One step of the tally: [count++] and [voters.push(worker_id)] on the
    accumulator of the chosen option, if there is one. *)
Definition tallyVote (voteCounts : JSObject.t VoteCount) (s : Submission.t)
  : JSObject.t VoteCount :=
  match JSObject.get voteCounts (Submission.option_id s) with
  | Some v =>
      JSObject.set (Submission.option_id s)
        {| vc_optionId := vc_optionId v;
           vc_count := vc_count v + 1;
           vc_voters := vc_voters v ++ [Submission.worker_id s];
           vc_option := vc_option v |}
        voteCounts
  | None => voteCounts
  end.

Definition tallyVotes (subs : list Submission.t) (voteCounts : JSObject.t VoteCount)
  : JSObject.t VoteCount :=
  fold_left tallyVote subs voteCounts.

(** [(a, b) => b.count - a.count] *)
Definition byCountDesc (a b : VoteCount) : Z := vc_count b - vc_count a.

Definition sortedResults (t : LoadedTask) : list RankedResult :=
  let voteCounts := tallyVotes (submissions t) (initVoteCounts (options t)) in
  Array.mapi
    (fun result index =>
       {| optionId := vc_optionId result;
          count := vc_count result;
          voters := vc_voters result;
          option_ := vc_option result;
          rank := index + 1;
          percentage :=
            JS.mul
              (JS.div (JS.of_Z (vc_count result))
                      (JS.of_Z (Array.length (submissions t))))
              (JS.of_Z 100) |})
    (Array.sort byCountDesc (JSObject.values voteCounts)).

(** [calculateWorkerRewards(task, consensusResults)] *)
Definition calculateWorkerRewards (env : Env) (t : LoadedTask)
    (consensusResults : list RankedResult) : list WorkerReward :=
  let rewardableOptions := Array.slice0 3 consensusResults in
  fold_left
    (fun workerRewards '(index, result) =>
       let rank := index + 1 in
       let rewardAmount :=
         SolanaService.calculateWorkerReward env (Task.serviceType (task t)) rank in
       fold_left
         (fun workerRewards workerId =>
            workerRewards ++
              [ {| wr_workerId := workerId;
                   wr_optionId := optionId result;
                   wr_rank := rank;
                   wr_amount := rewardAmount;
                   wr_percentage := percentage result |} ])
         (voters result) workerRewards)
    (Array.entries rewardableOptions) [].

(** The body of [calculateConsensus] once the task is loaded and found
    ready. *)
Definition consensusOf (env : Env) (taskId : N) (t : LoadedTask) : Consensus :=
  let sorted := sortedResults t in
  {| c_taskId := taskId;
     totalSubmissions := Array.length (submissions t);
     results := sorted;
     workerRewards := calculateWorkerRewards env t sorted;
     consensusReached := true |}.

End ConsensusService.

(* ===================================================================== *)
(** ** The world: ledger store, clock, payment network *)
(* ===================================================================== *)

(** What a JavaScript [throw] carries. *)
Inductive Exn :=
| Error (message : string)
| PrismaClientKnownRequestError (code : string)
| PrismaClientValidationError
| TypeError.

Inductive Result (A : Type) :=
| Ok (a : A)
| Throw (e : Exn).
Arguments Ok {A} a.
Arguments Throw {A} e.

(** The tables, each in storage order. *)
Module Db.
Record t := {
  tasks : list Task.t;
  options : list Option.t;
  submissions : list Submission.t;
  taskResults : list TaskResult.t;
  optionResults : list OptionResult.t;
  workers : list Worker.t;
  workerWithdrawals : list WorkerWithdrawal.t
}.
End Db.

(** The [SERIAL] sequences: they are not part of a transaction.  A
    sequence is ahead of the ids of its table, so that the id it gives to
    a created row is a new one. *)
Record Sequences := {
  submission_seq : N;
  taskResult_seq : N;
  optionResult_seq : N;
  workerWithdrawal_seq : N
}.

(** The state of the payment network, opaque to the engine. *)
Definition Network := N.

Record World := {
  db : Db.t;
  seqs : Sequences;
  clock : Z;
  (** every invocation of the payout dispatcher, in order *)
  sent : list (string * JS.number);
  net : Network
}.

Definition with_db (d : Db.t) (w : World) : World :=
  {| db := d; seqs := seqs w; clock := clock w; sent := sent w; net := net w |}.

Definition with_seqs (s : Sequences) (w : World) : World :=
  {| db := db w; seqs := s; clock := clock w; sent := sent w; net := net w |}.

(** Asynchronous code, run to completion: a state transformer that
    returns a value or throws. *)
Definition M (A : Type) : Type := World -> Result A * World.

Definition ret {A} (a : A) : M A := fun w => (Ok a, w).

Definition throw {A} (e : Exn) : M A := fun w => (Throw e, w).

Definition bind {A B} (m : M A) (k : A -> M B) : M B :=
  fun w =>
    match m w with
    | (Ok a, w') => k a w'
    | (Throw e, w') => (Throw e, w')
    end.

Notation "x <- m ;; k" := (bind m (fun x => k))
  (at level 61, m at next level, right associativity).
Notation "m ;;; k" := (bind m (fun _ => k))
  (at level 61, right associativity).

(** [try { m } catch (e) { h e }] *)
Definition try_catch {A} (m : M A) (h : Exn -> M A) : M A :=
  fun w =>
    match m w with
    | (Ok a, w') => (Ok a, w')
    | (Throw e, w') => h e w'
    end.

(** [prismaClient.$transaction(async (tx) => body)]: when the callback
    throws, every write to the tables is undone and the exception is
    rethrown; what happened outside the store stays. *)
Definition transaction {A} (body : M A) : M A :=
  fun w =>
    match body w with
    | (Ok a, w') => (Ok a, w')
    | (Throw e, w') => (Throw e, with_db (db w) w')
    end.

(** [for (const x of xs) { acc = await body acc x }] *)
Fixpoint foldM {A B} (body : B -> A -> M B) (xs : list A) (acc : B) : M B :=
  match xs with
  | [] => ret acc
  | x :: xs' => acc' <- body acc x ;; foldM body xs' acc'
  end.

Definition forM {A} (xs : list A) (body : A -> M unit) : M unit :=
  foldM (fun _ x => body x) xs tt.

(** [new Date()] *)
Definition new_Date : M Z :=
  fun w =>
    (Ok (clock w),
     {| db := db w; seqs := seqs w; clock := clock w + 1;
        sent := sent w; net := net w |}).

Definition read_db : M Db.t := fun w => (Ok (db w), w).

Definition write_db (d : Db.t) : M unit := fun w => (Ok tt, with_db d w).

(* ===================================================================== *)
(** ** Prisma client operations *)
(* ===================================================================== *)

Module Prisma.

Definition P2002 : Exn := PrismaClientKnownRequestError "P2002".
Definition P2020 : Exn := PrismaClientKnownRequestError "P2020".
Definition P2025 : Exn := PrismaClientKnownRequestError "P2025".

(** The values of an [Int] column ([INTEGER] in the migration). *)
Definition fits_Int (z : Z) : bool :=
  (-2147483648 <=? z) && (z <=? 2147483647).

(** [{ increment: n }] on an [Int] column that holds [x] is accepted when
    [n] and the new value are values of the column. *)
Definition incrementable (x n : Z) : bool := fits_Int n && fits_Int (x + n).

(** A Number given for an [Int] column. *)
Definition Int (x : JS.number) : M Z :=
  match JS.to_Z x with
  | Some z => ret z
  | None => throw PrismaClientValidationError
  end.

Definition replace {A} (key : A -> N) (k : N) (f : A -> A) (rows : list A) : list A :=
  map (fun r => if N.eqb (key r) k then f r else r) rows.

Definition lookup {A} (key : A -> N) (k : N) (rows : list A) : option A :=
  find (fun r => N.eqb (key r) k) rows.

Definition set_tasks (d : Db.t) (x : list Task.t) : Db.t :=
  {| Db.tasks := x; Db.options := Db.options d; Db.submissions := Db.submissions d;
     Db.taskResults := Db.taskResults d; Db.optionResults := Db.optionResults d;
     Db.workers := Db.workers d; Db.workerWithdrawals := Db.workerWithdrawals d |}.

Definition set_submissions (d : Db.t) (x : list Submission.t) : Db.t :=
  {| Db.tasks := Db.tasks d; Db.options := Db.options d; Db.submissions := x;
     Db.taskResults := Db.taskResults d; Db.optionResults := Db.optionResults d;
     Db.workers := Db.workers d; Db.workerWithdrawals := Db.workerWithdrawals d |}.

Definition set_taskResults (d : Db.t) (x : list TaskResult.t) : Db.t :=
  {| Db.tasks := Db.tasks d; Db.options := Db.options d; Db.submissions := Db.submissions d;
     Db.taskResults := x; Db.optionResults := Db.optionResults d;
     Db.workers := Db.workers d; Db.workerWithdrawals := Db.workerWithdrawals d |}.

Definition set_optionResults (d : Db.t) (x : list OptionResult.t) : Db.t :=
  {| Db.tasks := Db.tasks d; Db.options := Db.options d; Db.submissions := Db.submissions d;
     Db.taskResults := Db.taskResults d; Db.optionResults := x;
     Db.workers := Db.workers d; Db.workerWithdrawals := Db.workerWithdrawals d |}.

Definition set_workers (d : Db.t) (x : list Worker.t) : Db.t :=
  {| Db.tasks := Db.tasks d; Db.options := Db.options d; Db.submissions := Db.submissions d;
     Db.taskResults := Db.taskResults d; Db.optionResults := Db.optionResults d;
     Db.workers := x; Db.workerWithdrawals := Db.workerWithdrawals d |}.

Definition set_workerWithdrawals (d : Db.t) (x : list WorkerWithdrawal.t) : Db.t :=
  {| Db.tasks := Db.tasks d; Db.options := Db.options d; Db.submissions := Db.submissions d;
     Db.taskResults := Db.taskResults d; Db.optionResults := Db.optionResults d;
     Db.workers := Db.workers d; Db.workerWithdrawals := x |}.

(** [task.findUnique({ where: { id }, include: { submissions: true,
    options: true } })] *)
Definition task_findUnique_include (taskId : N) : M (option LoadedTask) :=
  d <- read_db ;;
  ret (match lookup Task.id taskId (Db.tasks d) with
       | Some t =>
           Some {| task := t;
                   submissions :=
                     filter (fun s => N.eqb (Submission.task_id s) taskId)
                            (Db.submissions d);
                   options :=
                     filter (fun o => N.eqb (Option.task_id o) taskId)
                            (Db.options d) |}
       | None => None
       end).

(** [task.update({ where: { id }, data })]: an update of a missing
    record throws [P2025]. *)
Definition task_update (taskId : N) (data : Task.t -> Task.t) : M unit :=
  d <- read_db ;;
  match lookup Task.id taskId (Db.tasks d) with
  | Some _ => write_db (set_tasks d (replace Task.id taskId data (Db.tasks d)))
  | None => throw P2025
  end.

Definition next_taskResult_id : M N :=
  fun w =>
    let s := seqs w in
    (Ok (taskResult_seq s),
     with_seqs {| submission_seq := submission_seq s;
                  taskResult_seq := N.succ (taskResult_seq s);
                  optionResult_seq := optionResult_seq s;
                  workerWithdrawal_seq := workerWithdrawal_seq s |} w).

Definition next_optionResult_id : M N :=
  fun w =>
    let s := seqs w in
    (Ok (optionResult_seq s),
     with_seqs {| submission_seq := submission_seq s;
                  taskResult_seq := taskResult_seq s;
                  optionResult_seq := N.succ (optionResult_seq s);
                  workerWithdrawal_seq := workerWithdrawal_seq s |} w).

Definition next_submission_id : M N :=
  fun w =>
    let s := seqs w in
    (Ok (submission_seq s),
     with_seqs {| submission_seq := N.succ (submission_seq s);
                  taskResult_seq := taskResult_seq s;
                  optionResult_seq := optionResult_seq s;
                  workerWithdrawal_seq := workerWithdrawal_seq s |} w).

Definition next_workerWithdrawal_id : M N :=
  fun w =>
    let s := seqs w in
    (Ok (workerWithdrawal_seq s),
     with_seqs {| submission_seq := submission_seq s;
                  taskResult_seq := taskResult_seq s;
                  optionResult_seq := optionResult_seq s;
                  workerWithdrawal_seq := N.succ (workerWithdrawal_seq s) |} w).

(** [taskResult.create({ data: { task_id } })], under the unique index
    [TaskResult_task_id_key]. *)
Definition taskResult_create (taskId : N) : M TaskResult.t :=
  i <- next_taskResult_id ;;
  d <- read_db ;;
  if existsb (fun r => N.eqb (TaskResult.task_id r) taskId) (Db.taskResults d)
  then throw P2002
  else
    let row := {| TaskResult.id := i; TaskResult.task_id := taskId |} in
    write_db (set_taskResults d (Db.taskResults d ++ [row])) ;;;
    ret row.

Definition optionResult_create (option_id task_result_id : N)
    (vote_count rank : Z) (percentage : JS.number) : M unit :=
  i <- next_optionResult_id ;;
  d <- read_db ;;
  write_db (set_optionResults d
    (Db.optionResults d ++
       [ {| OptionResult.id := i;
            OptionResult.option_id := option_id;
            OptionResult.task_result_id := task_result_id;
            OptionResult.vote_count := vote_count;
            OptionResult.rank := rank;
            OptionResult.percentage := percentage |} ])).

Definition worker_findUnique (workerId : N) : M (option Worker.t) :=
  d <- read_db ;;
  ret (lookup Worker.id workerId (Db.workers d)).

Definition worker_update (workerId : N) (data : Worker.t -> Worker.t) : M unit :=
  d <- read_db ;;
  match lookup Worker.id workerId (Db.workers d) with
  | Some _ => write_db (set_workers d (replace Worker.id workerId data (Db.workers d)))
  | None => throw P2025
  end.

(** [worker.update] that credits the worker: [fits] tells, for the row
    found, whether every increment of [data] is accepted.  When one is
    not, a value is out of the range of its column: the update throws
    [P2020] and writes nothing. *)
Definition worker_credit (workerId : N) (fits : Worker.t -> bool)
    (data : Worker.t -> Worker.t) : M unit :=
  d <- read_db ;;
  match lookup Worker.id workerId (Db.workers d) with
  | Some r =>
      if fits r
      then write_db (set_workers d (replace Worker.id workerId data (Db.workers d)))
      else throw P2020
  | None => throw P2025
  end.

(** Modelled from the spec: the unique constraint on (task-id, worker-id)
    of Submission, which the Ledger Store must have; the schema that
    declares it ([schema.prisma] and the first migration) is not among
    the sources, only the handler of its violation is. *)
Definition submission_unique (taskId workerId : N) (rows : list Submission.t) : bool :=
  negb (existsb
          (fun s => N.eqb (Submission.task_id s) taskId
                    && N.eqb (Submission.worker_id s) workerId)
          rows).

Definition submission_create (option_id worker_id task_id : N) (amount : Z)
  : M Submission.t :=
  i <- next_submission_id ;;
  d <- read_db ;;
  if submission_unique task_id worker_id (Db.submissions d)
  then
    let row := {| Submission.id := i; Submission.option_id := option_id;
                  Submission.worker_id := worker_id;
                  Submission.task_id := task_id;
                  Submission.amount := amount |} in
    write_db (set_submissions d (Db.submissions d ++ [row])) ;;;
    ret row
  else throw P2002.

Definition workerWithdrawal_create (workerId : N) (amount : Z)
    (signature : string) (status : TxnStatus) : M WorkerWithdrawal.t :=
  i <- next_workerWithdrawal_id ;;
  d <- read_db ;;
  let row := {| WorkerWithdrawal.id := i;
                WorkerWithdrawal.workerId := workerId;
                WorkerWithdrawal.amount := amount;
                WorkerWithdrawal.signature := signature;
                WorkerWithdrawal.status := status;
                WorkerWithdrawal.processedAt := None |} in
  write_db (set_workerWithdrawals d (Db.workerWithdrawals d ++ [row])) ;;;
  ret row.

Definition workerWithdrawal_update (withdrawalId : N)
    (data : WorkerWithdrawal.t -> WorkerWithdrawal.t) : M unit :=
  d <- read_db ;;
  match lookup WorkerWithdrawal.id withdrawalId (Db.workerWithdrawals d) with
  | Some _ =>
      write_db (set_workerWithdrawals d
        (replace WorkerWithdrawal.id withdrawalId data (Db.workerWithdrawals d)))
  | None => throw P2025
  end.

End Prisma.

(* ===================================================================== *)
(** ** The payout dispatcher *)
(* ===================================================================== *)

(** A payout dispatcher takes a wallet address and an amount, acts on the
    payment network only, and returns a transaction reference or throws. *)
Definition Dispatcher : Type :=
  string -> JS.number -> Network -> Result string * Network.

(** A call of the dispatcher from the engine; the call is recorded. *)
Definition dispatch (d : Dispatcher) (address : string) (amount : JS.number)
  : M string :=
  fun w =>
    let '(r, n) := d address amount (net w) in
    (r, {| db := db w; seqs := seqs w; clock := clock w;
           sent := sent w ++ [(address, amount)]; net := n |}).

Section MockDispatcher.

(** [Math.floor(Math.random() * 256)] at the n-th draw, and
    [bs58.encode] of the package [bs58]. *)
Variable random_byte : N -> N.
Variable bs58_encode : list N -> string.

(** [SolanaService.sendReward]: the simulated transfer.  The network
    state counts the random draws made so far.  The [catch] clause only
    logs and rethrows, and nothing in the [try] block throws. *)
Definition sendReward : Dispatcher :=
  fun workerAddress amount n =>
    let mockSignature :=
      bs58_encode (map (fun i => random_byte (n + N.of_nat i)%N) (seq 0 64)) in
    (Ok mockSignature, (n + 64)%N).

End MockDispatcher.

(* ===================================================================== *)
(** ** ConsensusService: the settlement *)
(* ===================================================================== *)

Record RewardTransaction := {
  rt_workerId : N;
  rt_amount : JS.number;
  rt_signature : string;
  rt_rank : Z
}.

Record Settlement := {
  s_taskId : N;
  s_consensus : Consensus;
  rewardTransactions : list RewardTransaction;
  s_completedAt : Z
}.

Section Engine.

Variable env : Env.
Variable payout : Dispatcher.

(** Every [catch] clause of the service logs the error and rethrows it,
    so the [try] blocks are transparent. *)

Definition checkTaskCompletion (taskId : N) : M TaskStatus :=
  t <- Prisma.task_findUnique_include taskId ;;
  match t with
  | None => throw (Error "Task not found")
  | Some t => ret (ConsensusService.taskStatus taskId t)
  end.

Definition calculateConsensus (taskId : N) : M Consensus :=
  taskStatus <- checkTaskCompletion taskId ;;
  if negb (isReadyForConsensus taskStatus)
  then throw (Error "Task does not have enough submissions for consensus")
  else ret (ConsensusService.consensusOf env taskId (ts_task taskStatus)).

(** The reward loop inside the transaction: credit the worker, then send
    the reward to the worker's address.  The credit increments the [Int]
    columns [pending_amount], [total_earned] and [tasks_completed]. *)
Definition distributeReward (rewardTransactions : list RewardTransaction)
    (reward : WorkerReward) : M (list RewardTransaction) :=
  amount <- Prisma.Int (wr_amount reward) ;;
  Prisma.worker_credit (wr_workerId reward)
    (fun w =>
       Prisma.incrementable (Worker.pending_amount w) amount
       && Prisma.incrementable (Worker.total_earned w) amount
       && Prisma.incrementable (Worker.tasks_completed w) 1)
    (fun w =>
       {| Worker.id := Worker.id w;
          Worker.address := Worker.address w;
          Worker.pending_amount := Worker.pending_amount w + amount;
          Worker.locked_amount := Worker.locked_amount w;
          Worker.total_earned := Worker.total_earned w + amount;
          Worker.tasks_completed := Worker.tasks_completed w + 1 |}) ;;;
  worker <- Prisma.worker_findUnique (wr_workerId reward) ;;
  address <- match worker with
             | Some w => ret (Worker.address w)
             | None => throw TypeError
             end ;;
  rewardTx <- dispatch payout address (wr_amount reward) ;;
  ret (rewardTransactions ++
         [ {| rt_workerId := wr_workerId reward;
              rt_amount := wr_amount reward;
              rt_signature := rewardTx;
              rt_rank := wr_rank reward |} ]).

Definition settlementTransaction (taskId : N) (consensus : Consensus)
  : M Settlement :=
  now <- new_Date ;;
  Prisma.task_update taskId
    (fun t =>
       {| Task.id := Task.id t;
          Task.serviceType := Task.serviceType t;
          Task.reviewCount := Task.reviewCount t;
          Task.amount := Task.amount t;
          Task.done := true;
          Task.createdAt := Task.createdAt t;
          Task.completedAt := Some now |}) ;;;
  taskResult <- Prisma.taskResult_create taskId ;;
  forM (results consensus)
    (fun result =>
       Prisma.optionResult_create (optionId result) (TaskResult.id taskResult)
         (count result) (rank result) (percentage result)) ;;;
  rewardTransactions <- foldM distributeReward (workerRewards consensus) [] ;;
  completedAt <- new_Date ;;
  ret {| s_taskId := taskId;
         s_consensus := consensus;
         rewardTransactions := rewardTransactions;
         s_completedAt := completedAt |}.

Definition processTaskCompletion (taskId : N) : M Settlement :=
  consensus <- calculateConsensus taskId ;;
  transaction (settlementTransaction taskId consensus).

End Engine.

(* ===================================================================== *)
(** ** db.js and the worker router *)
(* ===================================================================== *)

(** What [getNextTask] selects. *)
Record NextTask := {
  nt_task : Task.t;
  nt_options : list Option.t;
  nt_count_submissions : Z
}.

(** The first task by [createdAt] that is not done and has no submission
    of the worker. *)
Definition getNextTask (userId : N) : M (option NextTask) :=
  d <- read_db ;;
  let available t :=
    negb (Task.done t)
    && negb (existsb
               (fun s => N.eqb (Submission.task_id s) (Task.id t)
                         && N.eqb (Submission.worker_id s) userId)
               (Db.submissions d)) in
  ret (match Array.sort (fun a b => Task.createdAt a - Task.createdAt b)
               (filter available (Db.tasks d)) with
       | t :: _ =>
           Some {| nt_task := t;
                   nt_options :=
                     filter (fun o => N.eqb (Option.task_id o) (Task.id t))
                            (Db.options d);
                   nt_count_submissions :=
                     Array.length
                       (filter (fun s => N.eqb (Submission.task_id s) (Task.id t))
                               (Db.submissions d)) |}
       | [] => None
       end).

(** An HTTP response: the status and what the body says. *)
Inductive Body :=
| ErrorBody (error : string)
| SubmissionBody (submission : Submission.t)
| WithdrawalBody (withdrawalId : N) (amount : Z) (status : TxnStatus).

Record Response := { status : Z; body : Body }.

Definition json (b : Body) : Response := {| status := 200; body := b |}.

Definition fail (code : Z) (error : string) : Response :=
  {| status := code; body := ErrorBody error |}.

Section Router.

Variable env : Env.
Variable payout : Dispatcher.

(** The transaction of POST /submission: insert the submission and
    credit the provisional reward, an increment of the [Int] column
    [pending_amount]. *)
Definition submissionTransaction (workerId taskId selection : N)
    (baseReward : JS.number) : M Submission.t :=
  amount <- Prisma.Int baseReward ;;
  submission <- Prisma.submission_create selection workerId taskId amount ;;
  Prisma.worker_credit workerId
    (fun w => Prisma.incrementable (Worker.pending_amount w) amount)
    (fun w =>
       {| Worker.id := Worker.id w;
          Worker.address := Worker.address w;
          Worker.pending_amount := Worker.pending_amount w + amount;
          Worker.locked_amount := Worker.locked_amount w;
          Worker.total_earned := Worker.total_earned w;
          Worker.tasks_completed := Worker.tasks_completed w |}) ;;;
  ret submission.

(** POST /submission.  The settlement that the handler starts without
    awaiting it is run at once; its errors are caught and logged. *)
Definition post_submission (workerId taskId selection : N) : M Response :=
  try_catch
    (task <- getNextTask workerId ;;
     match task with
     | None => ret (fail 400 "Invalid task ID or task not available")
     | Some task =>
         if negb (N.eqb (Task.id (nt_task task)) taskId)
         then ret (fail 400 "Invalid task ID or task not available")
         else
           match find (fun o => N.eqb (Option.id o) selection) (nt_options task) with
           | None => ret (fail 400 "Invalid option selection")
           | Some _ =>
               let baseReward :=
                 JS.Math_floor
                   (JS.div (JS.of_Z (Task.amount (nt_task task)))
                           (JS.of_Z (Task.reviewCount (nt_task task)))) in
               result <- transaction
                           (submissionTransaction workerId taskId selection baseReward) ;;
               taskStatus <- checkTaskCompletion taskId ;;
               (if isReadyForConsensus taskStatus
                then try_catch
                       (processTaskCompletion env payout taskId ;;; ret tt)
                       (fun _ => ret tt)
                else ret tt) ;;;
               nextTask <- getNextTask workerId ;;
               ret (json (SubmissionBody result))
           end
     end)
    (fun error =>
       match error with
       | PrismaClientKnownRequestError "P2002" =>
           ret (fail 400 "You have already submitted for this task")
       | _ => ret (fail 500 "Failed to submit evaluation")
       end).

(** The first transaction of POST /payout: move the amount from pending
    to locked and open the withdrawal. *)
Definition lockFunds (workerId : N) (payoutAmount : Z) : M WorkerWithdrawal.t :=
  Prisma.worker_update workerId
    (fun w =>
       {| Worker.id := Worker.id w;
          Worker.address := Worker.address w;
          Worker.pending_amount := Worker.pending_amount w - payoutAmount;
          Worker.locked_amount := Worker.locked_amount w + payoutAmount;
          Worker.total_earned := Worker.total_earned w;
          Worker.tasks_completed := Worker.tasks_completed w |}) ;;;
  Prisma.workerWithdrawal_create workerId payoutAmount "pending" Processing.

(** The [try] block of POST /payout. *)
Definition sendPayout (workerId : N) (worker : Worker.t)
    (withdrawal : WorkerWithdrawal.t) (payoutAmount : Z) : M (option Response) :=
  txSignature <- dispatch payout (Worker.address worker) (JS.of_Z payoutAmount) ;;
  now <- new_Date ;;
  Prisma.workerWithdrawal_update (WorkerWithdrawal.id withdrawal)
    (fun r =>
       {| WorkerWithdrawal.id := WorkerWithdrawal.id r;
          WorkerWithdrawal.workerId := WorkerWithdrawal.workerId r;
          WorkerWithdrawal.amount := WorkerWithdrawal.amount r;
          WorkerWithdrawal.signature := txSignature;
          WorkerWithdrawal.status := Success;
          WorkerWithdrawal.processedAt := Some now |}) ;;;
  Prisma.worker_update workerId
    (fun w =>
       {| Worker.id := Worker.id w;
          Worker.address := Worker.address w;
          Worker.pending_amount := Worker.pending_amount w;
          Worker.locked_amount := Worker.locked_amount w - payoutAmount;
          Worker.total_earned := Worker.total_earned w;
          Worker.tasks_completed := Worker.tasks_completed w |}) ;;;
  ret None.

(** The [catch (txError)] block of POST /payout: revert the withdrawal. *)
Definition revertWithdrawal (workerId : N) (withdrawal : WorkerWithdrawal.t)
    (payoutAmount : Z) : M (option Response) :=
  transaction
    (now <- new_Date ;;
     Prisma.workerWithdrawal_update (WorkerWithdrawal.id withdrawal)
       (fun r =>
          {| WorkerWithdrawal.id := WorkerWithdrawal.id r;
             WorkerWithdrawal.workerId := WorkerWithdrawal.workerId r;
             WorkerWithdrawal.amount := WorkerWithdrawal.amount r;
             WorkerWithdrawal.signature := WorkerWithdrawal.signature r;
             WorkerWithdrawal.status := Failure;
             WorkerWithdrawal.processedAt := Some now |}) ;;;
     Prisma.worker_update workerId
       (fun w =>
          {| Worker.id := Worker.id w;
             Worker.address := Worker.address w;
             Worker.pending_amount := Worker.pending_amount w + payoutAmount;
             Worker.locked_amount := Worker.locked_amount w - payoutAmount;
             Worker.total_earned := Worker.total_earned w;
             Worker.tasks_completed := Worker.tasks_completed w |})) ;;;
  ret (Some (fail 500 "Transaction failed, funds returned to pending balance")).

(** [workerPayoutInput] of [types.js]: the amount is optional, and a
    given amount is a positive integer. *)
Definition workerPayoutInput (amount : option Z) : bool :=
  match amount with
  | Some a => 0 <? a
  | None => true
  end.

(** POST /payout, for the requests whose body gives an integer as the
    amount, or no amount.  The middleware [validateRequest] answers a
    body that [workerPayoutInput] refuses, and the handler is not run. *)
Definition post_payout (workerId : N) (amount : option Z) : M Response :=
  if negb (workerPayoutInput amount)
  then ret (fail 400 "Validation failed")
  else
  try_catch
    (worker <- Prisma.worker_findUnique workerId ;;
     match worker with
     | None => ret (fail 404 "Worker not found")
     | Some worker =>
         let payoutAmount :=
           match amount with
           | Some a => if a =? 0 then Worker.pending_amount worker else a
           | None => Worker.pending_amount worker
           end in
         if payoutAmount <=? 0
         then ret (fail 400 "No funds available for payout")
         else if Worker.pending_amount worker <? payoutAmount
         then ret (fail 400 "Insufficient pending balance")
         else
           result <- transaction (lockFunds workerId payoutAmount) ;;
           early <- try_catch (sendPayout workerId worker result payoutAmount)
                      (fun txError => revertWithdrawal workerId result payoutAmount) ;;
           match early with
           | Some response => ret response
           | None =>
               ret (json (WithdrawalBody (WorkerWithdrawal.id result)
                            payoutAmount Success))
           end
     end)
    (fun error => ret (fail 500 "Payout processing failed")).

End Router.

(* ===================================================================== *)
(** ** Sample ledgers and dispatchers *)
(* ===================================================================== *)

(** A task of two options, stored in the order 2, 1, with one vote each
    by the workers 10 and 11. *)
Definition sample_task : Task.t :=
  {| Task.id := 1; Task.serviceType := "VIDEOS"; Task.reviewCount := 2;
     Task.amount := 1000; Task.done := false; Task.createdAt := 0;
     Task.completedAt := None |}.

Definition sample_db : Db.t :=
  {| Db.tasks := [ sample_task ];
     Db.options := [ {| Option.id := 2; Option.task_id := 1 |};
                     {| Option.id := 1; Option.task_id := 1 |} ];
     Db.submissions :=
       [ {| Submission.id := 1; Submission.option_id := 2;
            Submission.worker_id := 10; Submission.task_id := 1;
            Submission.amount := 500 |};
         {| Submission.id := 2; Submission.option_id := 1;
            Submission.worker_id := 11; Submission.task_id := 1;
            Submission.amount := 500 |} ];
     Db.taskResults := [];
     Db.optionResults := [];
     Db.workers :=
       [ {| Worker.id := 10; Worker.address := "W10";
            Worker.pending_amount := 500; Worker.locked_amount := 0;
            Worker.total_earned := 0; Worker.tasks_completed := 0 |};
         {| Worker.id := 11; Worker.address := "W11";
            Worker.pending_amount := 500; Worker.locked_amount := 0;
            Worker.total_earned := 0; Worker.tasks_completed := 0 |} ];
     Db.workerWithdrawals := [] |}.

Definition sample_world : World :=
  {| db := sample_db;
     seqs := {| submission_seq := 3; taskResult_seq := 1;
                optionResult_seq := 1; workerWithdrawal_seq := 1 |};
     clock := 1000;
     sent := [];
     net := 0%N |}.

Definition sample_loaded : LoadedTask :=
  {| task := sample_task;
     submissions := Db.submissions sample_db;
     options := Db.options sample_db |}.



(** A payment network that accepts every transfer. *)
Definition accepting_dispatcher : Dispatcher :=
  fun _ _ n => (Ok "signature"%string, N.succ n).

(** A payment network that refuses the transfers to one address. *)
Definition refusing_dispatcher (refused : string) : Dispatcher :=
  fun address _ n =>
    if String.eqb address refused
    then (Throw (Error "PayoutFailed"), n)
    else (Ok "signature"%string, N.succ n).

(* ===================================================================== *)
(** ** Notions used to state the properties *)
(* ===================================================================== *)

(** The price a (category, review-count) pair of the pricing table is
    configured with. *)
Definition configured_price (env : Env) (serviceType : string) (reviewCount : Z)
  : JS.number :=
  if String.eqb serviceType "MARKETING_IMAGES" then
    if reviewCount =? 200 then MARKETING_IMAGES_200_PRICE env
    else MARKETING_IMAGES_500_PRICE env
  else if String.eqb serviceType "YOUTUBE_THUMBNAILS" then
    if reviewCount =? 200 then YOUTUBE_THUMBNAILS_200_PRICE env
    else YOUTUBE_THUMBNAILS_500_PRICE env
  else
    if reviewCount =? 100 then VIDEOS_100_PRICE env
    else VIDEOS_300_PRICE env.

(** The reward entry of a voter of a ranked option. *)
Definition reward_entry (env : Env) (serviceType : string) (r : RankedResult)
    (workerId : N) : WorkerReward :=
  {| wr_workerId := workerId;
     wr_optionId := optionId r;
     wr_rank := rank r;
     wr_amount := SolanaService.calculateWorkerReward env serviceType (rank r);
     wr_percentage := percentage r |}.



(** The submissions that vote for the option [k]. *)
Definition votes_for (k : N) (subs : list Submission.t) : list Submission.t :=
  filter (fun s => N.eqb (Submission.option_id s) k) subs.

(** The order of the ranking: more votes first, and among options with the
    same number of votes, the smaller option id first. *)
Definition ranks_before (a b : RankedResult) : Prop :=
  count b < count a \/ (count a = count b /\ (optionId a < optionId b)%N).

(** Index of the first option with id [k] in the options as loaded. *)
Fixpoint input_position (k : N) (opts : list Option.t) : nat :=
  match opts with
  | [] => 0
  | o :: opts' => if N.eqb (Option.id o) k then 0 else S (input_position k opts')
  end.

(** Options with the same number of votes are ranked in the order in which
    the task lists them. *)
Definition ties_keep_input_order (t : LoadedTask) : Prop :=
  forall a b,
    In a (ConsensusService.sortedResults t) ->
    In b (ConsensusService.sortedResults t) ->
    count a = count b ->
    (input_position (optionId a) (options t)
       < input_position (optionId b) (options t))%nat ->
    rank a < rank b.

Definition sum_Z (l : list Z) : Z := fold_right Z.add 0 l.

(** The keys of an object are in ascending order. *)
Definition ascending {A} (o : JSObject.t A) : Prop :=
  StronglySorted N.lt (JSObject.keys o).

(** An accumulator after the votes of [subs] for the option [k] are
    tallied. *)
Definition bump (k : N) (subs : list Submission.t) (v : VoteCount) : VoteCount :=
  {| vc_optionId := vc_optionId v;
     vc_count := vc_count v + Z.of_nat (List.length (votes_for k subs));
     vc_voters := vc_voters v ++ map Submission.worker_id (votes_for k subs);
     vc_option := vc_option v |}.

(** The accumulator is the fresh one of the key it is stored under. *)
Definition fresh_entry (k : N) (v : VoteCount) : Prop :=
  vc_optionId v = k /\ vc_count v = 0 /\ vc_voters v = [].

(** The order of the sorted accumulators. *)
Definition tallied_before (a b : VoteCount) : Prop :=
  vc_count b < vc_count a
  \/ (vc_count a = vc_count b /\ (vc_optionId a < vc_optionId b)%N).

(** The element that [.map((result, index) => ({ ...result, rank: index + 1,
    percentage }))] builds, and the list it builds from the index [i] on. *)
Definition ranked (total : Z) (result : VoteCount) (index : Z) : RankedResult :=
  {| optionId := vc_optionId result;
     count := vc_count result;
     voters := vc_voters result;
     option_ := vc_option result;
     rank := index + 1;
     percentage :=
       JS.mul (JS.div (JS.of_Z (vc_count result)) (JS.of_Z total))
              (JS.of_Z 100) |}.

Definition ranked_from (total : Z) (i : Z) (l : list VoteCount) : list RankedResult :=
  map (fun p => ranked total (snd p) (fst p)) (Array.entries_from i l).


(** The address a reward is sent to: that of the rewarded worker. *)
Definition payee (d : Db.t) (r : WorkerReward) : string * JS.number :=
  (match Prisma.lookup Worker.id (wr_workerId r) (Db.workers d) with
   | Some w => Worker.address w
   | None => EmptyString
   end,
   wr_amount r).


(** The sequence counters with another value for the TaskResult one. *)
Definition bump_taskResult_seq (s : Sequences) : Sequences :=
  {| submission_seq := submission_seq s;
     taskResult_seq := N.succ (taskResult_seq s);
     optionResult_seq := optionResult_seq s;
     workerWithdrawal_seq := workerWithdrawal_seq s |}.

Definition has_result (taskId : N) (d : Db.t) : bool :=
  existsb (fun r => N.eqb (TaskResult.task_id r) taskId) (Db.taskResults d).

(** Two worker tables hold the same workers at the same addresses. *)
Definition same_addresses (ws ws' : list Worker.t) : Prop :=
  forall k,
    option_map Worker.address (Prisma.lookup Worker.id k ws') =
    option_map Worker.address (Prisma.lookup Worker.id k ws).

(** What the loops of the settlement leave alone. *)
Definition settlement_frame (w w' : World) : Prop :=
  Db.tasks (db w') = Db.tasks (db w)
  /\ Db.options (db w') = Db.options (db w)
  /\ Db.submissions (db w') = Db.submissions (db w)
  /\ Db.taskResults (db w') = Db.taskResults (db w)
  /\ same_addresses (Db.workers (db w)) (Db.workers (db w')).

(** The update of a task row at settlement. *)
Definition mark_done (now : Z) (t : Task.t) : Task.t :=
  {| Task.id := Task.id t;
     Task.serviceType := Task.serviceType t;
     Task.reviewCount := Task.reviewCount t;
     Task.amount := Task.amount t;
     Task.done := true;
     Task.createdAt := Task.createdAt t;
     Task.completedAt := Some now |}.

(** The dispatcher accepts the payout [p] in some state of the network. *)
Definition accepted (payout : Dispatcher) (p : string * JS.number) : Prop :=
  exists n sig n', payout (fst p) (snd p) n = (Ok sig, n').

(** The task that [findUnique] with its [include] loads from a ledger. *)
Definition load (taskId : N) (d : Db.t) : option LoadedTask :=
  match Prisma.lookup Task.id taskId (Db.tasks d) with
  | Some t =>
      Some {| task := t;
              submissions :=
                filter (fun s => N.eqb (Submission.task_id s) taskId)
                       (Db.submissions d);
              options :=
                filter (fun o => N.eqb (Option.task_id o) taskId)
                       (Db.options d) |}
  | None => None
  end.

(** The result of rounding to 53 bits when the rounded mantissa [m] is of
    53 bits, or is 2^53. *)
Definition round53 (sx : bool) (m e : Z) : spec_float :=
  if m <? 2 ^ 53 then S754_finite sx (Z.to_pos m) e
  else S754_finite sx (Z.to_pos (2 ^ 52)) (e + 1).

Definition inexact (l : location) : bool :=
  match l with loc_Exact => false | _ => true end.

(** The mantissa of the double nearest to 0.8, which is
    7205759403792794 * 2^-53. *)
Definition threshold_mantissa : Z := 7205759403792794.

Definition sum_Q (l : list Q) : Q := fold_right Qplus (0 # 1) l.

(** The share of an option in the votes, in percent, as a rational
    number. *)
Definition exact_percentage (total : Z) (r : RankedResult) : Q :=
  (inject_Z (count r) / inject_Z total * inject_Z 100)%Q.

(** The location after shifting an exact mantissa right by [n] bits. *)
Definition shifted_location (M n : Z) : location :=
  loc_of_shr_record
    {| shr_m := M / 2 ^ n;
       shr_r := Z.odd (M / 2 ^ (n - 1));
       shr_s := negb (M mod 2 ^ (n - 1) =? 0) |}.

(** [(count / total) * 100] as the code computes it. *)
Definition pct (total count : Z) : JS.number :=
  JS.mul (JS.div (JS.of_Z count) (JS.of_Z total)) (JS.of_Z 100).

(** The two roundings of a percentage leave it within the relative error
    [(2^54 + 1) / 2^106] of the exact value: these are 100 times the
    factors [1 - error] and [1 + error], over the denominator 2^106. *)
Definition percent_lo : Z := 100 * (2 ^ 106 - 2 ^ 54 - 1).
Definition percent_hi : Z := 100 * (2 ^ 106 + 2 ^ 54 + 1).

(* ===================================================================== *)
(** ** Notions used to state the properties of the routes *)
(* ===================================================================== *)

(** The worker has a submission for the task. *)
Definition has_submitted (userId : N) (d : Db.t) (taskId : N) : bool :=
  existsb (fun s => N.eqb (Submission.task_id s) taskId
                    && N.eqb (Submission.worker_id s) userId)
          (Db.submissions d).

(** The [where] clause of [getNextTask]: the task is not done and has no
    submission of the worker. *)
Definition available (userId : N) (d : Db.t) (t : Task.t) : bool :=
  negb (Task.done t) && negb (has_submitted userId d (Task.id t)).

(** Ascending order of the creation times. *)
Definition byCreatedAt (a b : Task.t) : Z := Task.createdAt a - Task.createdAt b.

(** [amount || worker.pending_amount]: the amount of a withdrawal. *)
Definition requested (amount : option Z) (worker : Worker.t) : Z :=
  match amount with
  | Some a => if a =? 0 then Worker.pending_amount worker else a
  | None => Worker.pending_amount worker
  end.

(** The row of a worker after a paid withdrawal of [X]. *)
Definition debit (X : Z) (w0 : Worker.t) : Worker.t :=
  {| Worker.id := Worker.id w0;
     Worker.address := Worker.address w0;
     Worker.pending_amount := Worker.pending_amount w0 - X;
     Worker.locked_amount := Worker.locked_amount w0;
     Worker.total_earned := Worker.total_earned w0;
     Worker.tasks_completed := Worker.tasks_completed w0 |}.

(** The audit record that a paid withdrawal of [amount] leaves. *)
Definition paid_withdrawal (w : World) (workerId : N) (amount : Z)
    (signature : string) : WorkerWithdrawal.t :=
  {| WorkerWithdrawal.id := workerWithdrawal_seq (seqs w);
     WorkerWithdrawal.workerId := workerId;
     WorkerWithdrawal.amount := amount;
     WorkerWithdrawal.signature := signature;
     WorkerWithdrawal.status := Success;
     WorkerWithdrawal.processedAt := Some (clock w) |}.

(** [Math.floor(task.amount / task.reviewCount)]: the provisional reward
    of a submission. *)
Definition baseRewardOf (t : Task.t) : JS.number :=
  JS.Math_floor (JS.div (JS.of_Z (Task.amount t)) (JS.of_Z (Task.reviewCount t))).

(** The row of a worker after the credit of a provisional reward. *)
Definition credit_pending (amount : Z) (w0 : Worker.t) : Worker.t :=
  {| Worker.id := Worker.id w0;
     Worker.address := Worker.address w0;
     Worker.pending_amount := Worker.pending_amount w0 + amount;
     Worker.locked_amount := Worker.locked_amount w0;
     Worker.total_earned := Worker.total_earned w0;
     Worker.tasks_completed := Worker.tasks_completed w0 |}.

(** The submission that POST /submission inserts. *)
Definition new_submission (w : World) (workerId taskId selection : N) (amount : Z)
  : Submission.t :=
  {| Submission.id := submission_seq (seqs w);
     Submission.option_id := selection;
     Submission.worker_id := workerId;
     Submission.task_id := taskId;
     Submission.amount := amount |}.

(** The state after the transaction of POST /submission has committed:
    the submission is stored and the provisional reward is credited. *)
Definition after_submission (w : World) (workerId taskId selection : N) (amount : Z)
  : World :=
  {| db := Prisma.set_workers
             (Prisma.set_submissions (db w)
                (Db.submissions (db w)
                   ++ [new_submission w workerId taskId selection amount]))
             (Prisma.replace Worker.id workerId (credit_pending amount)
                (Db.workers (db w)));
     seqs := {| submission_seq := N.succ (submission_seq (seqs w));
                taskResult_seq := taskResult_seq (seqs w);
                optionResult_seq := optionResult_seq (seqs w);
                workerWithdrawal_seq := workerWithdrawal_seq (seqs w) |};
     clock := clock w; sent := sent w; net := net w |}.

(** What POST /submission does once its transaction has committed. *)
Definition submissionFollowUp (env : Env) (payout : Dispatcher)
    (workerId taskId : N) (result : Submission.t) : M Response :=
  taskStatus <- checkTaskCompletion taskId ;;
  (if isReadyForConsensus taskStatus
   then try_catch
          (processTaskCompletion env payout taskId ;;; ret tt)
          (fun _ => ret tt)
   else ret tt) ;;;
  nextTask <- getNextTask workerId ;;
  ret (json (SubmissionBody result)).

(** The task has reached the threshold of submissions. *)
Definition ready (taskId : N) (d : Db.t) : bool :=
  match load taskId d with
  | Some t => isReadyForConsensus (ConsensusService.taskStatus taskId t)
  | None => false
  end.

(** The sample ledger with a third worker, who has not voted yet. *)
Definition sample_world_with_newcomer : World :=
  {| db := Prisma.set_workers sample_db
             (Db.workers sample_db ++
                [ {| Worker.id := 12; Worker.address := "W12";
                     Worker.pending_amount := 0; Worker.locked_amount := 0;
                     Worker.total_earned := 0; Worker.tasks_completed := 0 |} ]);
     seqs := seqs sample_world;
     clock := 1000;
     sent := [];
     net := 0%N |}.

(** The sample ledger with a third worker whose pending balance is the
    largest value of an [Int] column. *)
Definition sample_world_at_the_limit : World :=
  {| db := Prisma.set_workers sample_db
             (Db.workers sample_db ++
                [ {| Worker.id := 12; Worker.address := "W12";
                     Worker.pending_amount := 2147483647; Worker.locked_amount := 0;
                     Worker.total_earned := 0; Worker.tasks_completed := 0 |} ]);
     seqs := seqs sample_world;
     clock := 1000;
     sent := [];
     net := 0%N |}.

(* ===================================================================== *)
(** ** Notions used to state the effect of a settlement *)
(* ===================================================================== *)

(** The row of a worker after the credit of a reward of [amount]. *)
Definition credit (amount : Z) (w0 : Worker.t) : Worker.t :=
  {| Worker.id := Worker.id w0;
     Worker.address := Worker.address w0;
     Worker.pending_amount := Worker.pending_amount w0 + amount;
     Worker.locked_amount := Worker.locked_amount w0;
     Worker.total_earned := Worker.total_earned w0 + amount;
     Worker.tasks_completed := Worker.tasks_completed w0 + 1 |}.

(** The integer that the amount of a reward is (0 when it is none). *)
Definition amount_of (r : WorkerReward) : Z :=
  match JS.to_Z (wr_amount r) with
  | Some a => a
  | None => 0
  end.

(** The workers after the credits of the reward loop, one after the
    other. *)
Definition credit_rewards (rewards : list WorkerReward) (ws : list Worker.t)
  : list Worker.t :=
  fold_left
    (fun ws r => Prisma.replace Worker.id (wr_workerId r) (credit (amount_of r)) ws)
    rewards ws.

(** The rewards of the worker [k]. *)
Definition rewards_of (k : N) (rewards : list WorkerReward) : list WorkerReward :=
  filter (fun r => N.eqb (wr_workerId r) k) rewards.

(** The row of a worker after a settlement with the reward list
    [rewards]: the balances have grown by the sum of the rewards of the
    worker, and the number of completed tasks by their number. *)
Definition settled_worker (rewards : list WorkerReward) (w0 : Worker.t) : Worker.t :=
  let mine := rewards_of (Worker.id w0) rewards in
  {| Worker.id := Worker.id w0;
     Worker.address := Worker.address w0;
     Worker.pending_amount := Worker.pending_amount w0 + sum_Z (map amount_of mine);
     Worker.locked_amount := Worker.locked_amount w0;
     Worker.total_earned := Worker.total_earned w0 + sum_Z (map amount_of mine);
     Worker.tasks_completed :=
       Worker.tasks_completed w0 + Z.of_nat (List.length mine) |}.

(** The columns that a settlement credits hold values of an [Int]
    column. *)
Definition balances_fit (w0 : Worker.t) : bool :=
  Prisma.fits_Int (Worker.pending_amount w0)
  && Prisma.fits_Int (Worker.total_earned w0)
  && Prisma.fits_Int (Worker.tasks_completed w0).

(** The amount of a reward is an integer of an [Int] column, and is not
    negative. *)
Definition payable (r : WorkerReward) : Prop :=
  exists a, JS.to_Z (wr_amount r) = Some a /\ 0 <= a <= 2147483647.

(** The sample ledger in which the total earned of the worker 11 is the
    largest value of an [Int] column. *)
Definition sample_world_top_earner : World :=
  {| db := Prisma.set_workers sample_db
             [ {| Worker.id := 10; Worker.address := "W10";
                  Worker.pending_amount := 500; Worker.locked_amount := 0;
                  Worker.total_earned := 0; Worker.tasks_completed := 0 |};
               {| Worker.id := 11; Worker.address := "W11";
                  Worker.pending_amount := 500; Worker.locked_amount := 0;
                  Worker.total_earned := 2147483647; Worker.tasks_completed := 0 |} ];
     seqs := seqs sample_world;
     clock := 1000;
     sent := [];
     net := 0%N |}.

(** The OptionResult rows of a ranking, with ids from [i] on. *)
Fixpoint option_rows (taskResultId i : N) (rs : list RankedResult)
  : list OptionResult.t :=
  match rs with
  | [] => []
  | r :: rs' =>
      {| OptionResult.id := i;
         OptionResult.option_id := optionId r;
         OptionResult.task_result_id := taskResultId;
         OptionResult.vote_count := count r;
         OptionResult.rank := rank r;
         OptionResult.percentage := percentage r |}
      :: option_rows taskResultId (N.succ i) rs'
  end.

(** The ledger after the settlement of the task with the consensus [c]. *)
Definition settled_db (c : Consensus) (taskId : N) (w : World) : Db.t :=
  {| Db.tasks := Prisma.replace Task.id taskId (mark_done (clock w)) (Db.tasks (db w));
     Db.options := Db.options (db w);
     Db.submissions := Db.submissions (db w);
     Db.taskResults :=
       Db.taskResults (db w)
         ++ [ {| TaskResult.id := taskResult_seq (seqs w);
                 TaskResult.task_id := taskId |} ];
     Db.optionResults :=
       Db.optionResults (db w)
         ++ option_rows (taskResult_seq (seqs w)) (optionResult_seq (seqs w))
              (results c);
     Db.workers := map (settled_worker (workerRewards c)) (Db.workers (db w));
     Db.workerWithdrawals := Db.workerWithdrawals (db w) |}.

(** Two ledgers differ at most in the table of the workers. *)
Definition same_but_workers (d d' : Db.t) : Prop :=
  Db.tasks d' = Db.tasks d
  /\ Db.options d' = Db.options d
  /\ Db.submissions d' = Db.submissions d
  /\ Db.taskResults d' = Db.taskResults d
  /\ Db.optionResults d' = Db.optionResults d
  /\ Db.workerWithdrawals d' = Db.workerWithdrawals d.

(* ===================================================================== *)
(** ** index.js: the administration route of the settlement *)
(* ===================================================================== *)

(** What POST /admin/force-consensus/:taskId answers: the status, and the
    settlement or the error message. *)
Record AdminResponse := {
  admin_status : Z;
  admin_data : option Settlement;
  admin_error : option string
}.

Section Admin.

Variable env : Env.
Variable payout : Dispatcher.

(** POST /admin/force-consensus/:taskId, for the task id that
    [parseInt(taskId)] is. *)
Definition post_force_consensus (taskId : N) : M AdminResponse :=
  try_catch
    (result <- processTaskCompletion env payout taskId ;;
     ret {| admin_status := 200; admin_data := Some result; admin_error := None |})
    (fun error =>
       ret {| admin_status := 500; admin_data := None;
              admin_error := Some "Failed to process consensus"%string |}).

End Admin.

(* ===================================================================== *)
(** ** ConsensusService: reading the results, the scheduled settlement *)
(* ===================================================================== *)

(** An element of the [results] of [getTaskResults]; the option is the
    row that [include: { option: true }] loads. *)
Record ResultView := {
  rv_optionId : N;
  rv_rank : Z;
  rv_voteCount : Z;
  rv_percentage : JS.number;
  rv_option : option Option.t
}.

(** What [getTaskResults] returns.  Its [completedAt] is the creation time
    of the Result row, which the rows of this ledger do not carry. *)
Record TaskResults := {
  tr_taskId : N;
  tr_totalSubmissions : Z;
  tr_results : list ResultView
}.

(** [orderBy: { rank: 'asc' }] *)
Definition byRankAsc (a b : OptionResult.t) : Z :=
  OptionResult.rank a - OptionResult.rank b.

(** [getTaskResults(taskId)]: the Result of the task with its rows in the
    order of the ranks, or null; the [catch] clause rethrows. *)
Definition getTaskResults (taskId : N) : M (option TaskResults) :=
  d <- read_db ;;
  ret (match find (fun r => N.eqb (TaskResult.task_id r) taskId) (Db.taskResults d) with
       | None => None
       | Some taskResult =>
           let results :=
             Array.sort byRankAsc
               (filter (fun r => N.eqb (OptionResult.task_result_id r)
                                       (TaskResult.id taskResult))
                       (Db.optionResults d)) in
           let submissions :=
             filter (fun s => N.eqb (Submission.task_id s)
                                    (TaskResult.task_id taskResult))
                    (Db.submissions d) in
           Some {| tr_taskId := taskId;
                   tr_totalSubmissions := Array.length submissions;
                   tr_results :=
                     map (fun result =>
                            {| rv_optionId := OptionResult.option_id result;
                               rv_rank := OptionResult.rank result;
                               rv_voteCount := OptionResult.vote_count result;
                               rv_percentage := OptionResult.percentage result;
                               rv_option :=
                                 Prisma.lookup Option.id
                                   (OptionResult.option_id result)
                                   (Db.options d) |})
                         results |}
       end).

(** What a reader of the results sees of a ranked option. *)
Definition view_of (opts : list Option.t) (r : RankedResult) : ResultView :=
  {| rv_optionId := optionId r;
     rv_rank := rank r;
     rv_voteCount := count r;
     rv_percentage := percentage r;
     rv_option := Prisma.lookup Option.id (optionId r) opts |}.

Section Scheduled.

Variable env : Env.
Variable payout : Dispatcher.

(** One round of the loop of [processReadyTasks], for a task loaded with
    its submissions. *)
Definition processIfReady (processedTasks : list Settlement)
    (task : Task.t * list Submission.t) : M (list Settlement) :=
  let completionPercentage :=
    JS.div (JS.of_Z (Array.length (snd task)))
           (JS.of_Z (Task.reviewCount (fst task))) in
  if JS.ge completionPercentage ConsensusService.MINIMUM_SUBMISSIONS_THRESHOLD
  then try_catch
         (result <- processTaskCompletion env payout (Task.id (fst task)) ;;
          ret (processedTasks ++ [result]))
         (fun error => ret processedTasks)
  else ret processedTasks.

(** [processReadyTasks()]: the tasks that are not done are loaded with
    their submissions, and those that have reached the threshold are
    settled one after the other; the error of a settlement is logged and
    the loop goes on. *)
Definition processReadyTasks : M (list Settlement) :=
  d <- read_db ;;
  let incompleteTasks :=
    map (fun t =>
           (t, filter (fun s => N.eqb (Submission.task_id s) (Task.id t))
                      (Db.submissions d)))
        (filter (fun t => negb (Task.done t)) (Db.tasks d)) in
  foldM processIfReady incompleteTasks [].

End Scheduled.

(** The task is due for the scheduled settlement: it is not done and has
    reached the threshold. *)
Definition due (d : Db.t) (t : Task.t) : bool :=
  negb (Task.done t)
  && JS.ge (JS.div (JS.of_Z (Array.length
                               (filter (fun s => N.eqb (Submission.task_id s) (Task.id t))
                                       (Db.submissions d))))
                   (JS.of_Z (Task.reviewCount t)))
           ConsensusService.MINIMUM_SUBMISSIONS_THRESHOLD.

(** The settlements of the tasks [ids], attempted one after the other
    from the state [w], each in the state that the attempts before it
    have left: the settlements that returned, in order, and the state
    reached.  An attempt that throws adds nothing, and the next one is
    made. *)
Fixpoint settle_each (env : Env) (payout : Dispatcher) (ids : list N) (w : World)
  : list Settlement * World :=
  match ids with
  | [] => ([], w)
  | taskId :: ids' =>
      match processTaskCompletion env payout taskId w with
      | (Ok s, w1) =>
          let '(settled, w') := settle_each env payout ids' w1 in
          (s :: settled, w')
      | (Throw _, w1) => settle_each env payout ids' w1
      end
  end.

(** A ledger with two tasks that have reached the threshold: the sample
    task, and a task with the single vote of the worker 10. *)
Definition sample_two_tasks : World :=
  {| db :=
       {| Db.tasks :=
            [ sample_task;
              {| Task.id := 2; Task.serviceType := "VIDEOS"; Task.reviewCount := 1;
                 Task.amount := 1000; Task.done := false; Task.createdAt := 1;
                 Task.completedAt := None |} ];
          Db.options := Db.options sample_db
                          ++ [ {| Option.id := 3; Option.task_id := 2 |} ];
          Db.submissions :=
            Db.submissions sample_db
              ++ [ {| Submission.id := 3; Submission.option_id := 3;
                      Submission.worker_id := 10; Submission.task_id := 2;
                      Submission.amount := 1000 |} ];
          Db.taskResults := [];
          Db.optionResults := [];
          Db.workers := Db.workers sample_db;
          Db.workerWithdrawals := [] |};
     seqs := {| submission_seq := 4; taskResult_seq := 1;
                optionResult_seq := 1; workerWithdrawal_seq := 1 |};
     clock := 1000;
     sent := [];
     net := 0%N |}.

(** A row of the task table after a round of settlements of the tasks
    [ids]: the row itself, or, for one of these tasks, the row marked as
    done. *)
Definition row_after (ids : list N) (t t' : Task.t) : Prop :=
  t' = t \/ (In (Task.id t) ids /\ exists now, t' = mark_done now t).

(* ===================================================================== *)
(** ** types.js: the validation helper of the pricing tiers *)
(* ===================================================================== *)

(** The names of the properties that an object literal inherits from
    [Object.prototype]. *)
Definition Object_prototype : list string :=
  [ "constructor"; "__defineGetter__"; "__defineSetter__"; "hasOwnProperty";
    "__lookupGetter__"; "__lookupSetter__"; "isPrototypeOf";
    "propertyIsEnumerable"; "toString"; "valueOf"; "__proto__";
    "toLocaleString" ]%string.

(** The object literal [validCombinations]. *)
Definition validCombinations : list (string * list Z) :=
  [ ("MARKETING_IMAGES"%string, [200; 500]);
    ("YOUTUBE_THUMBNAILS"%string, [200; 500]);
    ("VIDEOS"%string, [100; 300]) ].

(** [validCombinations[serviceType]?.includes(reviewCount) || false].
    For a name inherited from [Object.prototype] the lookup yields a value
    that is not nullish and has no [includes]: the call throws a
    TypeError. *)
Definition validateServicePrice (serviceType : string) (reviewCount : Z)
  : Result bool :=
  match SolanaService.prop_string validCombinations serviceType with
  | Some counts => Ok (existsb (Z.eqb reviewCount) counts || false)
  | None =>
      if existsb (String.eqb serviceType) Object_prototype
      then Throw TypeError
      else Ok false
  end.

(* ===================================================================== *)
(** ** ConsensusService: the statistics of a worker *)
(* ===================================================================== *)

(** [Math.round]: the nearest integer, a tie going up. *)
Definition Math_round (x : JS.number) : JS.number :=
  match x with
  | S754_finite s m e =>
      if 0 <=? e then x
      else
        let half := 2 ^ (- e - 1) in
        if s
        then binary_normalize JS.prec JS.emax
               (Z.shiftr (- Zpos m + half) (- e)) 0 true
        else binary_normalize JS.prec JS.emax
               (Z.shiftr (Zpos m + half) (- e)) 0 false
  | _ => x
  end.

Record WorkerStats := {
  ws_workerId : N;
  ws_totalEarned : Z;
  ws_pendingAmount : Z;
  ws_lockedAmount : Z;
  ws_tasksCompleted : Z;
  ws_accuracy : JS.number;
  ws_totalSubmissions : Z;
  ws_completedSubmissions : Z
}.

(** The counters of the loop of [getWorkerStats]. *)
Record Tally := { correctSubmissions : Z; totalCompletedSubmissions : Z }.

(** One round of the loop, for a submission loaded with its task, the
    Results of the task and their rows.  The task of a submission is a
    required relation. *)
Definition countSubmission (d : Db.t) (counts : Tally) (submission : Submission.t)
  : M Tally :=
  match Prisma.lookup Task.id (Submission.task_id submission) (Db.tasks d) with
  | None => throw TypeError
  | Some task =>
      let results :=
        filter (fun r => N.eqb (TaskResult.task_id r) (Task.id task))
               (Db.taskResults d) in
      match results with
      | first :: _ =>
          if Task.done task
          then
            let taskResults :=
              filter (fun r => N.eqb (OptionResult.task_result_id r)
                                     (TaskResult.id first))
                     (Db.optionResults d) in
            let workerChoice :=
              find (fun r => N.eqb (OptionResult.option_id r)
                                   (Submission.option_id submission))
                   taskResults in
            ret {| correctSubmissions :=
                     match workerChoice with
                     | Some r =>
                         if OptionResult.rank r <=? 3
                         then correctSubmissions counts + 1
                         else correctSubmissions counts
                     | None => correctSubmissions counts
                     end;
                   totalCompletedSubmissions :=
                     totalCompletedSubmissions counts + 1 |}
          else ret counts
      | [] => ret counts
      end
  end.

(** [getWorkerStats(workerId)]; the [catch] clause rethrows. *)
Definition getWorkerStats (workerId : N) : M WorkerStats :=
  d <- read_db ;;
  match Prisma.lookup Worker.id workerId (Db.workers d) with
  | None => throw (Error "Worker not found")
  | Some worker =>
      let submissions :=
        filter (fun s => N.eqb (Submission.worker_id s) (Worker.id worker))
               (Db.submissions d) in
      counts <- foldM (countSubmission d) submissions
                  {| correctSubmissions := 0; totalCompletedSubmissions := 0 |} ;;
      let accuracy :=
        if 0 <? totalCompletedSubmissions counts
        then JS.mul (JS.div (JS.of_Z (correctSubmissions counts))
                            (JS.of_Z (totalCompletedSubmissions counts)))
                    (JS.of_Z 100)
        else JS.zero in
      ret {| ws_workerId := workerId;
             ws_totalEarned := Worker.total_earned worker;
             ws_pendingAmount := Worker.pending_amount worker;
             ws_lockedAmount := Worker.locked_amount worker;
             ws_tasksCompleted := Worker.tasks_completed worker;
             ws_accuracy :=
               JS.div (Math_round (JS.mul accuracy (JS.of_Z 100))) (JS.of_Z 100);
             ws_totalSubmissions := Array.length submissions;
             ws_completedSubmissions := totalCompletedSubmissions counts |}
  end.

(** The submission is of a task that is done and has a Result. *)
Definition is_completed (d : Db.t) (s : Submission.t) : bool :=
  match Prisma.lookup Task.id (Submission.task_id s) (Db.tasks d) with
  | Some task =>
      Task.done task
      && existsb (fun r => N.eqb (TaskResult.task_id r) (Task.id task))
                 (Db.taskResults d)
  | None => false
  end.

(** The option of the submission is ranked among the first three in the
    first Result of its task. *)
Definition in_top_three (d : Db.t) (s : Submission.t) : bool :=
  match Prisma.lookup Task.id (Submission.task_id s) (Db.tasks d) with
  | Some task =>
      match filter (fun r => N.eqb (TaskResult.task_id r) (Task.id task))
                   (Db.taskResults d) with
      | first :: _ =>
          match find (fun r => N.eqb (OptionResult.option_id r)
                                     (Submission.option_id s))
                     (filter (fun r => N.eqb (OptionResult.task_result_id r)
                                             (TaskResult.id first))
                             (Db.optionResults d)) with
          | Some r => OptionResult.rank r <=? 3
          | None => false
          end
      | [] => false
      end
  | None => false
  end.

(** The submissions of a worker. *)
Definition submissions_of (workerId : N) (d : Db.t) : list Submission.t :=
  filter (fun s => N.eqb (Submission.worker_id s) workerId) (Db.submissions d).

(* ===================================================================== *)
(** ** The user router: the statistics of a task *)
(* ===================================================================== *)

(** An entry of [submissionStats] in GET /v1/user/task. *)
Record OptionStat := {
  os_count : Z;
  os_percentage : JS.number;
  os_option : Option.t
}.

(** [task.options.forEach(option => { submissionStats[option.id] = {
    count: 0, percentage: 0, option } })] *)
Definition initStats (opts : list Option.t) : JSObject.t OptionStat :=
  fold_left
    (fun submissionStats o =>
       JSObject.set (Option.id o)
         {| os_count := 0; os_percentage := JS.zero; os_option := o |}
         submissionStats)
    opts [].

(** [if (submissionStats[submission.option_id])
       submissionStats[submission.option_id].count++] *)
Definition countVote (submissionStats : JSObject.t OptionStat) (s : Submission.t)
  : JSObject.t OptionStat :=
  match JSObject.get submissionStats (Submission.option_id s) with
  | Some stat =>
      JSObject.set (Submission.option_id s)
        {| os_count := os_count stat + 1;
           os_percentage := os_percentage stat;
           os_option := os_option stat |}
        submissionStats
  | None => submissionStats
  end.

(** The statistics block of GET /v1/user/task, for the task loaded with
    its options and submissions: the votes are counted by option, then
    every entry gets its percentage,
    [totalSubmissions > 0 ? (stat.count / totalSubmissions) * 100 : 0]. *)
Definition submissionStats (t : LoadedTask) : JSObject.t OptionStat :=
  let counted := fold_left countVote (submissions t) (initStats (options t)) in
  let totalSubmissions := Array.length (submissions t) in
  map (fun entry =>
         (fst entry,
          {| os_count := os_count (snd entry);
             os_percentage :=
               if 0 <? totalSubmissions
               then JS.mul (JS.div (JS.of_Z (os_count (snd entry)))
                                   (JS.of_Z totalSubmissions))
                           (JS.of_Z 100)
               else JS.zero;
             os_option := os_option (snd entry) |}))
      counted.

(** The entry of [submissionStats] that counts what an accumulator of
    the consensus counts. *)
Definition stat_of (v : VoteCount) : OptionStat :=
  {| os_count := vc_count v; os_percentage := JS.zero; os_option := vc_option v |}.

Definition map_values {A B} (f : A -> B) (o : JSObject.t A) : JSObject.t B :=
  map (fun entry => (fst entry, f (snd entry))) o.

(* ===================================================================== *)
(** ** The reward shown in the history of a worker ([routers/worker.js]) *)
(* ===================================================================== *)

(** The [reward] object that GET /history adds to a submission. *)
Record RewardInfo := {
  ri_rank : option Z;
  ri_percentage : JS.number;
  ri_actualReward : JS.number
}.

Definition no_reward : RewardInfo :=
  {| ri_rank := None; ri_percentage := JS.zero; ri_actualReward := JS.zero |}.

(** The callback that GET /history maps over the submissions of the page,
    for a submission loaded with its task (a required relation).
    [optionResult?.rank || null] is null at rank 0, and
    [optionResult?.rank <= 3] is false when no row is found. *)
Definition rewardInfo (env : Env) (submission : Submission.t) : M RewardInfo :=
  d <- read_db ;;
  match Prisma.lookup Task.id (Submission.task_id submission) (Db.tasks d) with
  | None => throw TypeError
  | Some task =>
      if Task.done task
      then
        taskResults <- getTaskResults (Task.id task) ;;
        match taskResults with
        | Some taskResults =>
            let optionResult :=
              find (fun r => N.eqb (rv_optionId r) (Submission.option_id submission))
                   (tr_results taskResults) in
            ret {| ri_rank :=
                     match optionResult with
                     | Some r => if rv_rank r =? 0 then None else Some (rv_rank r)
                     | None => None
                     end;
                   ri_percentage :=
                     match optionResult with
                     | Some r => JS.or (rv_percentage r) JS.zero
                     | None => JS.zero
                     end;
                   ri_actualReward :=
                     match optionResult with
                     | Some r =>
                         if rv_rank r <=? 3
                         then SolanaService.calculateWorkerReward env
                                (Task.serviceType task) (rv_rank r)
                         else JS.zero
                     | None => JS.zero
                     end |}
        | None => ret no_reward
        end
      else ret no_reward
  end.

(* ===================================================================== *)
(** * Properties of the pricing oracle *)
(* ===================================================================== *)

Lemma string_eqb_true (a b : string) : String.eqb a b = true -> a = b.
Proof. apply String.eqb_eq. Qed.

(** [getServicePrice] is a lookup in the table followed by [|| 0]. *)
Lemma getServicePrice_lookup (env : Env) (serviceType : string) (reviewCount : Z) :
  SolanaService.getServicePrice env serviceType reviewCount =
  if SolanaService.in_pricing_table serviceType reviewCount
  then JS.or (configured_price env serviceType reviewCount) JS.zero
  else JS.zero.
Proof.
  unfold SolanaService.getServicePrice, SolanaService.price_entry,
    SolanaService.in_pricing_table, configured_price.
  cbn [SolanaService.priceMap SolanaService.prop_string].
  destruct (String.eqb serviceType "MARKETING_IMAGES") eqn:E1.
  - cbn [SolanaService.prop_int andb orb].
    destruct (reviewCount =? 200) eqn:R1; [reflexivity|].
    destruct (reviewCount =? 500) eqn:R2; [reflexivity|].
    cbn. apply string_eqb_true in E1. subst. reflexivity.
  - cbn [andb orb].
    destruct (String.eqb serviceType "YOUTUBE_THUMBNAILS") eqn:E2.
    + cbn [SolanaService.prop_int andb orb].
      destruct (reviewCount =? 200) eqn:R1; [reflexivity|].
      destruct (reviewCount =? 500) eqn:R2; [reflexivity|].
      cbn. apply string_eqb_true in E2. subst. reflexivity.
    + cbn [andb orb].
      destruct (String.eqb serviceType "VIDEOS") eqn:E3.
      * cbn [SolanaService.prop_int andb orb].
        destruct (reviewCount =? 100) eqn:R1; [reflexivity|].
        destruct (reviewCount =? 300) eqn:R2; reflexivity.
      * reflexivity.
Qed.

(** C9, as stated, fails: the pair (VIDEOS, 200) is outside the pricing
    table, and [getServicePrice] returns the Number 0 for it; the function
    has no [throw]. *)
Lemma getServicePrice_zero_outside_table :
  SolanaService.in_pricing_table "VIDEOS" 200 = false /\
  SolanaService.getServicePrice sample_env "VIDEOS" 200 = JS.zero /\
  JS.to_Z (SolanaService.getServicePrice sample_env "VIDEOS" 200) = Some 0.
Proof. repeat split; reflexivity. Qed.

(** C9, amended: [getServicePrice] never raises.  For every pair outside
    the pricing table it returns 0; for every pair of the table it returns
    the configured amount, or 0 when that amount is falsy (0 or NaN). *)
Theorem getServicePrice_total (env : Env) (serviceType : string) (reviewCount : Z) :
  SolanaService.getServicePrice env serviceType reviewCount =
  if SolanaService.in_pricing_table serviceType reviewCount
  then
    if JS.truthy (configured_price env serviceType reviewCount)
    then configured_price env serviceType reviewCount
    else JS.zero
  else JS.zero.
Proof. rewrite getServicePrice_lookup. reflexivity. Qed.

(* ===================================================================== *)
(** * Arrays *)
(* ===================================================================== *)

Lemma push_all {A B} (h : A -> B) (l : list A) (acc : list B) :
  fold_left (fun acc x => acc ++ [h x]) l acc = acc ++ map h l.
Proof.
  revert acc. induction l as [|x l IH]; intros acc; cbn.
  - now rewrite app_nil_r.
  - rewrite IH, <- app_assoc. reflexivity.
Qed.

Lemma push_all_nested {A B} (h : A -> list B) (l : list A) (acc : list B) :
  fold_left (fun acc x => acc ++ h x) l acc = acc ++ flat_map h l.
Proof.
  revert acc. induction l as [|x l IH]; intros acc; cbn.
  - now rewrite app_nil_r.
  - rewrite IH, <- app_assoc. reflexivity.
Qed.

Lemma filter_none {A} (f : A -> bool) (l : list A) :
  Forall (fun x => f x = false) l -> filter f l = [].
Proof.
  induction 1 as [|x l Hx _ IH]; cbn; [reflexivity|]. now rewrite Hx.
Qed.

Lemma entries_from_length {A} (l : list A) (i : Z) :
  List.length (Array.entries_from i l) = List.length l.
Proof. revert i. induction l; intros i; cbn; auto. Qed.

Lemma entries_from_snd {A} (l : list A) (i : Z) :
  map snd (Array.entries_from i l) = l.
Proof. revert i. induction l; intros i; cbn; f_equal; auto. Qed.

Lemma entries_from_fst {A} (l : list A) (i : Z) :
  map fst (Array.entries_from i l) =
  map (fun k => i + Z.of_nat k) (seq 0 (List.length l)).
Proof.
  revert i. induction l as [|x l IH]; intros i; cbn; [reflexivity|].
  f_equal; [lia|].
  rewrite IH, <- seq_shift, map_map.
  apply map_ext. intros k. lia.
Qed.

(** The ranked list built by [.map((result, index) => ({ ...result,
    rank: index + 1, ... }))], from the index [i] on. *)
Section Ranked.

Variable total : Z.

Lemma ranked_from_ranks (l : list VoteCount) (i : Z) :
  Forall (fun r => i < rank r) (ranked_from total i l).
Proof.
  revert i. induction l as [|x l IH]; intros i; cbn; constructor.
  - cbn. lia.
  - eapply Forall_impl; [|apply IH]. cbn. intros; lia.
Qed.

Lemma ranked_from_firstn (l : list VoteCount) (i : Z) (n : nat) :
  firstn n (ranked_from total i l) =
  filter (fun r => rank r <=? i + Z.of_nat n) (ranked_from total i l).
Proof.
  revert i n. induction l as [|x l IH]; intros i n.
  - now rewrite firstn_nil.
  - destruct n as [|n].
    + cbn [firstn]. symmetry. apply filter_none.
      eapply Forall_impl; [|apply ranked_from_ranks].
      cbn. intros r Hr. apply Z.leb_gt. lia.
    + change (ranked_from total i (x :: l))
        with (ranked total x i :: ranked_from total (i + 1) l).
      cbn [firstn filter rank ranked].
      replace (i + 1 <=? i + Z.of_nat (S n)) with true
        by (symmetry; apply Z.leb_le; lia).
      f_equal. rewrite IH. apply filter_ext. intros r.
      f_equal. lia.
Qed.

Lemma ranked_from_entries (l : list VoteCount) (i : Z) (n : nat) :
  Forall (fun p => rank (snd p) = fst p + 1)
    (Array.entries_from i (firstn n (ranked_from total i l))).
Proof.
  revert i n. induction l as [|x l IH]; intros i n.
  - rewrite firstn_nil. constructor.
  - destruct n as [|n]; [constructor|].
    change (ranked_from total i (x :: l))
      with (ranked total x i :: ranked_from total (i + 1) l).
    cbn [firstn Array.entries_from]. constructor; [reflexivity|].
    apply IH.
Qed.

Lemma sortedResults_ranked (t : LoadedTask) :
  total = Array.length (submissions t) ->
  ConsensusService.sortedResults t =
  ranked_from total 0
    (Array.sort ConsensusService.byCountDesc
       (JSObject.values
          (ConsensusService.tallyVotes (submissions t)
             (ConsensusService.initVoteCounts (options t))))).
Proof. intros ->. reflexivity. Qed.

End Ranked.

(* ===================================================================== *)
(** * Reward computation *)
(* ===================================================================== *)

Lemma calculateWorkerRewards_flat (env : Env) (t : LoadedTask)
    (rs : list RankedResult) :
  ConsensusService.calculateWorkerRewards env t rs =
  flat_map
    (fun p : Z * RankedResult =>
       map (fun workerId =>
              {| wr_workerId := workerId;
                 wr_optionId := optionId (snd p);
                 wr_rank := fst p + 1;
                 wr_amount :=
                   SolanaService.calculateWorkerReward env
                     (Task.serviceType (task t)) (fst p + 1);
                 wr_percentage := percentage (snd p) |})
           (voters (snd p)))
    (Array.entries (Array.slice0 3 rs)).
Proof.
  unfold ConsensusService.calculateWorkerRewards.
  cbn zeta.
  generalize (Array.entries (Array.slice0 3 rs)). intros l.
  match goal with
  | |- fold_left ?F l [] = flat_map ?G l =>
      enough (H : forall acc, fold_left F l acc = acc ++ flat_map G l)
        by apply (H [])
  end.
  induction l as [|[index result] l IH]; intros acc; cbn [fold_left flat_map].
  - now rewrite app_nil_r.
  - rewrite IH. cbn [fst snd]. rewrite push_all, <- app_assoc. reflexivity.
Qed.

Lemma flat_map_entries_ranked {B} (G : Z -> RankedResult -> list B)
    (l : list (Z * RankedResult)) :
  Forall (fun p => rank (snd p) = fst p + 1) l ->
  flat_map (fun p => G (fst p + 1) (snd p)) l =
  flat_map (fun r => G (rank r) r) (map snd l).
Proof.
  induction 1 as [|p l Hp _ IH]; cbn; [reflexivity|].
  rewrite IH, Hp. reflexivity.
Qed.


(* ===================================================================== *)
(** * Integer-keyed objects *)
(* ===================================================================== *)

Lemma get_set_same {A} (o : JSObject.t A) (k : N) (v : A) :
  JSObject.get (JSObject.set k v o) k = Some v.
Proof.
  induction o as [|[k' v'] o IH]; cbn.
  - now rewrite N.eqb_refl.
  - destruct (N.eqb k k') eqn:E; cbn.
    + now rewrite N.eqb_refl.
    + destruct (N.ltb k k'); cbn.
      * now rewrite N.eqb_refl.
      * now rewrite E.
Qed.

Lemma get_set_other {A} (o : JSObject.t A) (k k2 : N) (v : A) :
  k2 <> k -> JSObject.get (JSObject.set k v o) k2 = JSObject.get o k2.
Proof.
  intros Hne. apply N.eqb_neq in Hne.
  induction o as [|[k' v'] o IH]; cbn.
  - now rewrite Hne.
  - destruct (N.eqb k k') eqn:E; cbn.
    + apply N.eqb_eq in E. subst k'. now rewrite Hne.
    + destruct (N.ltb k k'); cbn.
      * now rewrite Hne.
      * now rewrite IH.
Qed.

Lemma get_In {A} (o : JSObject.t A) (k : N) (v : A) :
  JSObject.get o k = Some v -> In (k, v) o.
Proof.
  induction o as [|[k' v'] o IH]; cbn; [discriminate|].
  destruct (N.eqb k k') eqn:E.
  - apply N.eqb_eq in E. intros [= ->]. now left; subst.
  - auto.
Qed.

Lemma get_None {A} (o : JSObject.t A) (k : N) :
  JSObject.get o k = None <-> ~ In k (JSObject.keys o).
Proof.
  induction o as [|[k' v'] o IH]; cbn; [tauto|].
  destruct (N.eqb k k') eqn:E.
  - apply N.eqb_eq in E. split; [discriminate|]. intros H. exfalso. auto.
  - apply N.eqb_neq in E. rewrite IH. split; intros H; [|tauto].
    intros [H'|H']; [congruence|tauto].
Qed.

Lemma ascending_In_get {A} (o : JSObject.t A) (k : N) (v : A) :
  ascending o -> In (k, v) o -> JSObject.get o k = Some v.
Proof.
  unfold ascending.
  induction o as [|[k' v'] o IH]; cbn; [tauto|].
  intros Hs [H|H].
  - injection H as -> ->. now rewrite N.eqb_refl.
  - inversion Hs as [|? ? Hs' Hall]; subst.
    destruct (N.eqb k k') eqn:E.
    + apply N.eqb_eq in E. subst k'. exfalso.
      rewrite Forall_forall in Hall.
      apply (N.lt_irrefl k). apply Hall.
      change k with (fst (k, v)). now apply in_map.
    + auto.
Qed.

Lemma set_keys_In {A} (o : JSObject.t A) (k k2 : N) (v : A) :
  In k2 (JSObject.keys (JSObject.set k v o)) <-> k2 = k \/ In k2 (JSObject.keys o).
Proof.
  induction o as [|[k' v'] o IH]; cbn.
  - intuition auto.
  - destruct (N.eqb k k') eqn:E; cbn.
    + apply N.eqb_eq in E. subst k'. intuition auto.
    + destruct (N.ltb k k'); cbn.
      * intuition auto.
      * rewrite IH. intuition auto.
Qed.

Lemma set_ascending {A} (o : JSObject.t A) (k : N) (v : A) :
  ascending o -> ascending (JSObject.set k v o).
Proof.
  unfold ascending.
  induction o as [|[k' v'] o IH]; cbn; intros Hs.
  - repeat constructor.
  - inversion Hs as [|? ? Hs' Hall]; subst.
    destruct (N.eqb k k') eqn:E; cbn.
    + apply N.eqb_eq in E. subst k'. now constructor.
    + destruct (N.ltb k k') eqn:L; cbn.
      * apply N.ltb_lt in L. constructor; [exact Hs|].
        constructor; [exact L|].
        eapply Forall_impl; [|exact Hall]. cbn. intros; lia.
      * apply N.ltb_ge in L. apply N.eqb_neq in E.
        constructor; [now apply IH|].
        apply Forall_forall. intros k2 Hk2.
        apply set_keys_In in Hk2. destruct Hk2 as [->|Hk2]; [lia|].
        rewrite Forall_forall in Hall. now apply Hall.
Qed.

(** Assigning to an existing key keeps every key where it is. *)
Lemma set_keys_existing {A} (o : JSObject.t A) (k : N) (v : A) :
  ascending o -> In k (JSObject.keys o) ->
  JSObject.keys (JSObject.set k v o) = JSObject.keys o.
Proof.
  unfold ascending.
  induction o as [|[k' v'] o IH]; cbn; intros Hs Hin; [tauto|].
  inversion Hs as [|? ? Hs' Hall]; subst.
  destruct (N.eqb k k') eqn:E; cbn.
  - apply N.eqb_eq in E. now subst.
  - apply N.eqb_neq in E. destruct Hin as [Hin|Hin]; [congruence|].
    rewrite Forall_forall in Hall. specialize (Hall _ Hin).
    destruct (N.ltb k k') eqn:L; cbn.
    + apply N.ltb_lt in L. lia.
    + f_equal. now apply IH.
Qed.

Lemma set_sum_existing (o : JSObject.t VoteCount) (k : N) (v0 v : VoteCount) :
  ascending o -> JSObject.get o k = Some v0 ->
  sum_Z (map vc_count (JSObject.values (JSObject.set k v o))) =
  sum_Z (map vc_count (JSObject.values o)) - vc_count v0 + vc_count v.
Proof.
  unfold ascending, JSObject.values.
  induction o as [|[k' v'] o IH]; cbn [JSObject.get JSObject.set JSObject.keys map fst];
    intros Hs Hget; [discriminate|].
  inversion Hs as [|? ? Hs' Hall]; subst.
  destruct (N.eqb k k') eqn:E.
  - injection Hget as ->. cbn. lia.
  - assert (Hin : In k (JSObject.keys o)).
    { apply get_In in Hget. change k with (fst (k, v0)). now apply in_map. }
    rewrite Forall_forall in Hall. specialize (Hall _ Hin).
    destruct (N.ltb k k') eqn:L.
    + apply N.ltb_lt in L. lia.
    + cbn [map snd sum_Z fold_right]. fold (sum_Z (map vc_count (map snd (JSObject.set k v o)))).
      fold (sum_Z (map vc_count (map snd o))).
      rewrite (IH Hs' Hget). lia.
Qed.

(* ===================================================================== *)
(** * The vote tally *)
(* ===================================================================== *)

Lemma bump_nil (k : N) (v : VoteCount) : bump k [] v = v.
Proof.
  destruct v. unfold bump. cbn. rewrite Z.add_0_r, app_nil_r. reflexivity.
Qed.

Lemma tallyVote_get (o : JSObject.t VoteCount) (s : Submission.t) (k : N) :
  JSObject.get (ConsensusService.tallyVote o s) k =
  option_map (bump k [s]) (JSObject.get o k).
Proof.
  unfold ConsensusService.tallyVote, bump, votes_for. cbn [filter].
  destruct (N.eqb (Submission.option_id s) k) eqn:E.
  - apply N.eqb_eq in E. subst k.
    destruct (JSObject.get o (Submission.option_id s)) as [v|] eqn:G.
    + rewrite get_set_same. reflexivity.
    + now rewrite G.
  - apply N.eqb_neq in E.
    assert (Hid : forall x, option_map
              (fun v => {| vc_optionId := vc_optionId v;
                           vc_count := vc_count v + Z.of_nat (List.length (@nil Submission.t));
                           vc_voters := vc_voters v ++ map Submission.worker_id [];
                           vc_option := vc_option v |}) x = x).
    { intros [v|]; [|reflexivity]. cbn. destruct v; cbn.
      now rewrite Z.add_0_r, app_nil_r. }
    rewrite Hid.
    destruct (JSObject.get o (Submission.option_id s)) as [v|]; [|reflexivity].
    apply get_set_other. congruence.
Qed.

Lemma bump_cons (k : N) (s : Submission.t) (subs : list Submission.t) (v : VoteCount) :
  bump k subs (bump k [s] v) = bump k (s :: subs) v.
Proof.
  unfold bump, votes_for. cbn [filter].
  destruct (N.eqb (Submission.option_id s) k); cbn [vc_optionId vc_count vc_voters vc_option].
  - f_equal.
    + cbn [List.length]. lia.
    + cbn [map]. now rewrite <- app_assoc.
  - f_equal.
    + cbn [List.length]. lia.
    + cbn [map]. now rewrite app_nil_r.
Qed.

(** What the tally leaves under each key: the accumulator it found there,
    with the votes for that option counted and their workers appended in
    the order of the submissions. *)
Lemma tallyVotes_get (subs : list Submission.t) (o : JSObject.t VoteCount) (k : N) :
  JSObject.get (ConsensusService.tallyVotes subs o) k =
  option_map (bump k subs) (JSObject.get o k).
Proof.
  unfold ConsensusService.tallyVotes.
  revert o. induction subs as [|s subs IH]; intros o; cbn [fold_left].
  - destruct (JSObject.get o k); cbn; [|reflexivity]. now rewrite bump_nil.
  - rewrite IH, tallyVote_get.
    destruct (JSObject.get o k); cbn [option_map]; [|reflexivity].
    now rewrite bump_cons.
Qed.

Lemma get_Some_key {A} (o : JSObject.t A) (k : N) (v : A) :
  JSObject.get o k = Some v -> In k (JSObject.keys o).
Proof.
  intros H. apply get_In in H. change k with (fst (k, v)). now apply in_map.
Qed.

Lemma tallyVote_keys (o : JSObject.t VoteCount) (s : Submission.t) :
  ascending o ->
  JSObject.keys (ConsensusService.tallyVote o s) = JSObject.keys o.
Proof.
  intros Ho. unfold ConsensusService.tallyVote.
  destruct (JSObject.get o (Submission.option_id s)) as [v|] eqn:G; [|reflexivity].
  apply set_keys_existing; [exact Ho|]. eapply get_Some_key; eauto.
Qed.

Lemma tallyVote_ascending (o : JSObject.t VoteCount) (s : Submission.t) :
  ascending o -> ascending (ConsensusService.tallyVote o s).
Proof.
  intros Ho. unfold ascending. rewrite tallyVote_keys; auto.
Qed.

Lemma tallyVotes_keys (subs : list Submission.t) (o : JSObject.t VoteCount) :
  ascending o ->
  JSObject.keys (ConsensusService.tallyVotes subs o) = JSObject.keys o.
Proof.
  unfold ConsensusService.tallyVotes.
  revert o. induction subs as [|s subs IH]; intros o Ho; cbn [fold_left].
  - reflexivity.
  - rewrite IH by now apply tallyVote_ascending. now apply tallyVote_keys.
Qed.

Lemma tallyVotes_ascending (subs : list Submission.t) (o : JSObject.t VoteCount) :
  ascending o -> ascending (ConsensusService.tallyVotes subs o).
Proof.
  intros Ho. unfold ascending. rewrite tallyVotes_keys; auto.
Qed.

Lemma tallyVote_sum (o : JSObject.t VoteCount) (s : Submission.t) :
  ascending o -> In (Submission.option_id s) (JSObject.keys o) ->
  sum_Z (map vc_count (JSObject.values (ConsensusService.tallyVote o s))) =
  sum_Z (map vc_count (JSObject.values o)) + 1.
Proof.
  intros Ho Hin. unfold ConsensusService.tallyVote.
  destruct (JSObject.get o (Submission.option_id s)) as [v|] eqn:G.
  - rewrite (set_sum_existing o _ v _ Ho G). cbn. lia.
  - apply get_None in G. contradiction.
Qed.

Lemma tallyVotes_sum (subs : list Submission.t) (o : JSObject.t VoteCount) :
  ascending o ->
  (forall s, In s subs -> In (Submission.option_id s) (JSObject.keys o)) ->
  sum_Z (map vc_count (JSObject.values (ConsensusService.tallyVotes subs o))) =
  sum_Z (map vc_count (JSObject.values o)) + Z.of_nat (List.length subs).
Proof.
  unfold ConsensusService.tallyVotes.
  revert o. induction subs as [|s subs IH]; intros o Ho Hin; cbn [fold_left].
  - cbn. lia.
  - rewrite IH.
    + rewrite tallyVote_sum; auto.
      * cbn [List.length]. lia.
      * apply Hin. now left.
    + now apply tallyVote_ascending.
    + intros s' Hs'. rewrite tallyVote_keys by exact Ho. apply Hin. now right.
Qed.

(** The accumulators before the tally. *)

Lemma initVoteCounts_acc (opts : list Option.t) (acc : JSObject.t VoteCount) :
  let o := fold_left
      (fun voteCounts o =>
         JSObject.set (Option.id o)
           {| vc_optionId := Option.id o; vc_count := 0;
              vc_voters := []; vc_option := o |} voteCounts) opts acc in
  (ascending acc -> ascending o)
  /\ (forall k, In k (JSObject.keys o) <->
                In k (map Option.id opts) \/ In k (JSObject.keys acc))
  /\ ((forall k v, JSObject.get acc k = Some v -> fresh_entry k v) ->
      forall k v, JSObject.get o k = Some v -> fresh_entry k v).
Proof.
  revert acc. induction opts as [|x opts IH]; intros acc; cbn [fold_left map].
  - cbn. intuition auto.
  - specialize (IH (JSObject.set (Option.id x)
           {| vc_optionId := Option.id x; vc_count := 0;
              vc_voters := []; vc_option := x |} acc)).
    cbn zeta in *. destruct IH as (IH1 & IH2 & IH3).
    split; [|split].
    + intros Ha. apply IH1. now apply set_ascending.
    + intros k. rewrite IH2, set_keys_In. cbn. intuition auto.
    + intros Hacc. apply IH3. intros k v.
      destruct (N.eq_dec k (Option.id x)) as [->|Hne].
      * rewrite get_set_same. intros [= <-]. repeat split.
      * rewrite get_set_other by exact Hne. apply Hacc.
Qed.

Lemma initVoteCounts_ascending (opts : list Option.t) :
  ascending (ConsensusService.initVoteCounts opts).
Proof.
  apply (initVoteCounts_acc opts []). constructor.
Qed.

Lemma initVoteCounts_keys (opts : list Option.t) (k : N) :
  In k (JSObject.keys (ConsensusService.initVoteCounts opts)) <->
  In k (map Option.id opts).
Proof.
  destruct (initVoteCounts_acc opts []) as (_ & H & _).
  cbn zeta in H. unfold ConsensusService.initVoteCounts.
  rewrite H. cbn. tauto.
Qed.

Lemma initVoteCounts_fresh (opts : list Option.t) (k : N) (v : VoteCount) :
  JSObject.get (ConsensusService.initVoteCounts opts) k = Some v ->
  fresh_entry k v.
Proof.
  destruct (initVoteCounts_acc opts []) as (_ & _ & H).
  apply H. cbn. discriminate.
Qed.

Lemma initVoteCounts_sum (opts : list Option.t) :
  sum_Z (map vc_count (JSObject.values (ConsensusService.initVoteCounts opts))) = 0.
Proof.
  pose proof (initVoteCounts_ascending opts) as Ha.
  pose proof (initVoteCounts_fresh opts) as Hf.
  revert Ha Hf. generalize (ConsensusService.initVoteCounts opts). intros o.
  induction o as [|[k v] o IH]; intros Ha Hf; [reflexivity|].
  unfold JSObject.values. cbn [map snd sum_Z fold_right].
  fold (sum_Z (map vc_count (map snd o))).
  unfold JSObject.values in IH. rewrite IH.
  - destruct (Hf k v) as (_ & -> & _); [|reflexivity].
    cbn. now rewrite N.eqb_refl.
  - unfold ascending in *. cbn in Ha. now inversion Ha.
  - intros k' v' G. apply Hf. apply ascending_In_get; [exact Ha|].
    right. now apply get_In.
Qed.

Lemma lt_sorted_NoDup (l : list N) : StronglySorted N.lt l -> NoDup l.
Proof.
  induction 1 as [|x l _ IH Hall]; constructor; [|exact IH].
  intros Hin. rewrite Forall_forall in Hall. specialize (Hall _ Hin). lia.
Qed.

(** The tallied accumulators: one per option id, the key equal to the
    option id, the count equal to the number of votes for it. *)
Lemma tallied_entry (t : LoadedTask) (k : N) (v : VoteCount) :
  In (k, v)
     (ConsensusService.tallyVotes (submissions t)
        (ConsensusService.initVoteCounts (options t))) ->
  vc_optionId v = k
  /\ vc_count v = Z.of_nat (List.length (votes_for k (submissions t)))
  /\ vc_voters v = map Submission.worker_id (votes_for k (submissions t)).
Proof.
  intros Hin.
  apply ascending_In_get in Hin;
    [|apply tallyVotes_ascending, initVoteCounts_ascending].
  rewrite tallyVotes_get in Hin.
  destruct (JSObject.get _ k) as [v0|] eqn:G; [|discriminate].
  injection Hin as <-.
  apply initVoteCounts_fresh in G. destruct G as (G1 & G2 & G3).
  unfold bump. cbn. rewrite G1, G2, G3. auto.
Qed.

(* ===================================================================== *)
(** * Sorting *)
(* ===================================================================== *)

Lemma insert_perm {A} (cmp : A -> A -> Z) (x : A) (l : list A) :
  Permutation (Array.insert cmp x l) (x :: l).
Proof.
  induction l as [|y l IH]; cbn; [reflexivity|].
  destruct (cmp x y <=? 0); [reflexivity|].
  rewrite IH. apply perm_swap.
Qed.

Lemma sort_perm {A} (cmp : A -> A -> Z) (l : list A) :
  Permutation (Array.sort cmp l) l.
Proof.
  induction l as [|x l IH]; cbn; [reflexivity|].
  rewrite insert_perm. now constructor.
Qed.

Lemma sort_In {A} (cmp : A -> A -> Z) (l : list A) (x : A) :
  In x (Array.sort cmp l) <-> In x l.
Proof.
  split; apply Permutation_in; [|symmetry]; apply sort_perm.
Qed.

Lemma tallied_before_trans (a b c : VoteCount) :
  tallied_before a b -> tallied_before b c -> tallied_before a c.
Proof. unfold tallied_before. lia. Qed.

(** Inserting an accumulator whose option id is below all the ids of a
    sorted list keeps the list sorted: by votes, then by id. *)
Lemma insert_tallied (x : VoteCount) (l : list VoteCount) :
  StronglySorted tallied_before l ->
  Forall (fun y => (vc_optionId x < vc_optionId y)%N) l ->
  StronglySorted tallied_before (Array.insert ConsensusService.byCountDesc x l).
Proof.
  induction 1 as [|y l Hs IH Hall]; intros Hx; cbn.
  - repeat constructor.
  - inversion Hx as [|? ? Hxy Hxl]; subst.
    unfold ConsensusService.byCountDesc at 1.
    destruct (vc_count y - vc_count x <=? 0) eqn:E.
    + apply Z.leb_le in E.
      assert (Hb : tallied_before x y) by (unfold tallied_before; lia).
      constructor; [now constructor|].
      constructor; [exact Hb|].
      eapply Forall_impl; [|exact Hall].
      intros z Hz. eapply tallied_before_trans; eauto.
    + apply Z.leb_gt in E.
      constructor; [now apply IH|].
      apply Forall_forall. intros z Hz.
      apply (Permutation_in _ (insert_perm _ x l)) in Hz.
      destruct Hz as [<-|Hz].
      * unfold tallied_before. lia.
      * rewrite Forall_forall in Hall. now apply Hall.
Qed.

Lemma sort_tallied (l : list VoteCount) :
  StronglySorted (fun a b => (vc_optionId a < vc_optionId b)%N) l ->
  StronglySorted tallied_before (Array.sort ConsensusService.byCountDesc l).
Proof.
  induction 1 as [|x l Hs IH Hall]; cbn; [constructor|].
  apply insert_tallied; [exact IH|].
  apply Forall_forall. intros y Hy. apply sort_In in Hy.
  rewrite Forall_forall in Hall. now apply Hall.
Qed.

Lemma values_by_id (o : JSObject.t VoteCount) :
  ascending o ->
  (forall k v, In (k, v) o -> vc_optionId v = k) ->
  StronglySorted (fun a b => (vc_optionId a < vc_optionId b)%N) (JSObject.values o).
Proof.
  unfold ascending, JSObject.values, JSObject.keys.
  induction o as [|[k v] o IH]; cbn; intros Hs Hk; [constructor|].
  inversion Hs as [|? ? Hs' Hall]; subst.
  constructor.
  - apply IH; [exact Hs'|]. intros; apply Hk; now right.
  - rewrite (Hk k v) by now left.
    rewrite Forall_forall in *. intros b Hb.
    apply in_map_iff in Hb. destruct Hb as ([k' v'] & <- & Hb). cbn.
    rewrite (Hk k' v') by now right.
    apply Hall. change k' with (fst (k', v')). now apply in_map.
Qed.

Lemma tallied_sorted (t : LoadedTask) :
  StronglySorted tallied_before
    (Array.sort ConsensusService.byCountDesc
       (JSObject.values
          (ConsensusService.tallyVotes (submissions t)
             (ConsensusService.initVoteCounts (options t))))).
Proof.
  apply sort_tallied, values_by_id.
  - apply tallyVotes_ascending, initVoteCounts_ascending.
  - intros k v H. now apply tallied_entry in H.
Qed.

(** The option ids of the tallied accumulators are those of the options. *)
Lemma tallied_ids (t : LoadedTask) :
  NoDup (map Option.id (options t)) ->
  Permutation
    (map vc_optionId
       (JSObject.values
          (ConsensusService.tallyVotes (submissions t)
             (ConsensusService.initVoteCounts (options t)))))
    (map Option.id (options t)).
Proof.
  intros Hnd.
  set (o := ConsensusService.tallyVotes _ _).
  assert (Ho : ascending o)
    by apply tallyVotes_ascending, initVoteCounts_ascending.
  assert (Hk : map vc_optionId (JSObject.values o) = JSObject.keys o).
  { assert (H : forall k v, In (k, v) o -> vc_optionId v = k)
      by (intros k v H; now apply tallied_entry in H).
    clear Ho. unfold JSObject.values, JSObject.keys.
    induction o as [|[k v] o' IH]; cbn; [reflexivity|].
    f_equal; [apply H; now left|]. apply IH. intros; apply H; now right. }
  rewrite Hk. apply NoDup_Permutation.
  - now apply lt_sorted_NoDup.
  - exact Hnd.
  - intros k. unfold o.
    rewrite tallyVotes_keys by apply initVoteCounts_ascending.
    apply initVoteCounts_keys.
Qed.

(* ===================================================================== *)
(** * Ranking *)
(* ===================================================================== *)

Lemma ranked_from_cons (total i : Z) (x : VoteCount) (l : list VoteCount) :
  ranked_from total i (x :: l) = ranked total x i :: ranked_from total (i + 1) l.
Proof. reflexivity. Qed.

Lemma ranked_from_rank_list (total : Z) (l : list VoteCount) (i : Z) :
  map rank (ranked_from total i l) =
  map (fun k => i + Z.of_nat k) (seq 1 (List.length l)).
Proof.
  revert i. induction l as [|x l IH]; intros i; [reflexivity|].
  rewrite ranked_from_cons. cbn [map List.length seq rank ranked].
  f_equal; try lia.
  rewrite IH, <- (seq_shift (List.length l) 1), map_map.
  apply map_ext. intros k. lia.
Qed.

Lemma ranked_from_origin (total : Z) (l : list VoteCount) (i : Z) (r : RankedResult) :
  In r (ranked_from total i l) ->
  exists x, In x l /\ optionId r = vc_optionId x /\ count r = vc_count x
            /\ voters r = vc_voters x.
Proof.
  revert i. induction l as [|x l IH]; intros i; [intros []|].
  rewrite ranked_from_cons. intros [<-|H].
  - exists x. cbn. auto.
  - destruct (IH _ H) as (y & Hy & ?). exists y. split; [now right|auto].
Qed.

Lemma ranked_from_ids (total : Z) (l : list VoteCount) (i : Z) :
  map optionId (ranked_from total i l) = map vc_optionId l.
Proof.
  revert i. induction l as [|x l IH]; intros i; [reflexivity|].
  rewrite ranked_from_cons. cbn [map]. now rewrite IH.
Qed.

Lemma ranked_from_counts (total : Z) (l : list VoteCount) (i : Z) :
  map count (ranked_from total i l) = map vc_count l.
Proof.
  revert i. induction l as [|x l IH]; intros i; [reflexivity|].
  rewrite ranked_from_cons. cbn [map]. now rewrite IH.
Qed.

(** In a ranked list of sorted accumulators, a smaller rank means: more
    votes, or as many votes and a smaller option id. *)
Lemma ranked_from_order (total : Z) (l : list VoteCount) :
  StronglySorted tallied_before l ->
  forall i a b,
    In a (ranked_from total i l) -> In b (ranked_from total i l) ->
    rank a < rank b -> ranks_before a b.
Proof.
  induction 1 as [|x l Hs IH Hall]; intros i a b Ha Hb Hlt; [destruct Ha|].
  rewrite ranked_from_cons in Ha, Hb.
  pose proof (ranked_from_ranks total l (i + 1)) as Hr.
  rewrite Forall_forall in Hr.
  destruct Ha as [<-|Ha], Hb as [<-|Hb].
  - lia.
  - destruct (ranked_from_origin _ _ _ _ Hb) as (y & Hy & E1 & E2 & _).
    rewrite Forall_forall in Hall. specialize (Hall _ Hy).
    unfold ranks_before, tallied_before in *. cbn. rewrite E1, E2. exact Hall.
  - specialize (Hr _ Ha). cbn in Hlt. lia.
  - eapply IH; eauto.
Qed.

Lemma ranked_from_rank_inj (total : Z) (l : list VoteCount) (i : Z) (a b : RankedResult) :
  In a (ranked_from total i l) -> In b (ranked_from total i l) ->
  rank a = rank b -> a = b.
Proof.
  revert i. induction l as [|x l IH]; intros i Ha Hb E; [destruct Ha|].
  rewrite ranked_from_cons in Ha, Hb.
  pose proof (ranked_from_ranks total l (i + 1)) as Hr.
  rewrite Forall_forall in Hr.
  destruct Ha as [<-|Ha], Hb as [<-|Hb].
  - reflexivity.
  - specialize (Hr _ Hb). cbn in E. lia.
  - specialize (Hr _ Ha). cbn in E. lia.
  - eapply IH; eauto.
Qed.

Lemma ranks_before_irrefl (a : RankedResult) : ~ ranks_before a a.
Proof. unfold ranks_before. lia. Qed.

Lemma ranks_before_asym (a b : RankedResult) :
  ranks_before a b -> ~ ranks_before b a.
Proof. unfold ranks_before. lia. Qed.

(** C5, as stated, fails in its last part: the sample task lists the
    option 2 before the option 1, both have one vote, and the option 1 is
    ranked first. *)
Lemma ties_follow_option_id_not_input_order :
  map Option.id (options sample_loaded) = [2; 1]%N /\
  map (fun r => (optionId r, count r, rank r))
      (ConsensusService.sortedResults sample_loaded) = [(1%N, 1, 1); (2%N, 1, 2)] /\
  ~ ties_keep_input_order sample_loaded.
Proof.
  split; [reflexivity|]. split; [reflexivity|].
  intros H.
  specialize (H (ranked 2 {| vc_optionId := 2; vc_count := 1; vc_voters := [10%N];
                             vc_option := {| Option.id := 2; Option.task_id := 1 |} |} 1)
                (ranked 2 {| vc_optionId := 1; vc_count := 1; vc_voters := [11%N];
                             vc_option := {| Option.id := 1; Option.task_id := 1 |} |} 0)).
  cbn in H.
  assert (2 < 1); [|lia].
  apply H; auto. 
Qed.

(** C5, amended: for a task with N options (of distinct ids), the ranks
    of [calculateConsensus] are exactly 1..N in the order of the results,
    the results are the options, each with the number of its votes, sorted
    by vote count descending; options with the same number of votes are
    ranked by ascending option id (the enumeration order of the tally
    object), whatever the order in which the task lists them. *)
Theorem ranks_are_positions (t : LoadedTask) :
  NoDup (map Option.id (options t)) ->
  let rs := ConsensusService.sortedResults t in
  map rank rs = map Z.of_nat (seq 1 (List.length (options t)))
  /\ Permutation (map optionId rs) (map Option.id (options t))
  /\ (forall r, In r rs ->
        count r = Z.of_nat (List.length (votes_for (optionId r) (submissions t))))
  /\ (forall a b, In a rs -> In b rs -> (rank a < rank b <-> ranks_before a b)).
Proof.
  intros Hnd rs. subst rs.
  rewrite (sortedResults_ranked (Array.length (submissions t)) t eq_refl).
  set (o := ConsensusService.tallyVotes _ _).
  set (l := Array.sort _ _).
  assert (Hperm : Permutation (map vc_optionId l) (map Option.id (options t))).
  { unfold l. rewrite (Permutation_map _ (sort_perm _ _)).
    now apply tallied_ids. }
  split; [|split; [|split]].
  - rewrite ranked_from_rank_list.
    rewrite <- (length_map vc_optionId l), (Permutation_length Hperm), length_map.
    apply map_ext. intros; lia.
  - now rewrite ranked_from_ids.
  - intros r Hr.
    destruct (ranked_from_origin _ _ _ _ Hr) as (x & Hx & E1 & E2 & _).
    apply sort_In in Hx. unfold JSObject.values in Hx.
    apply in_map_iff in Hx. destruct Hx as ([k v] & <- & Hx).
    apply tallied_entry in Hx. cbn [snd] in *.
    destruct Hx as (H1 & H2 & _). rewrite E1, E2, H1. exact H2.
  - intros a b Ha Hb. split.
    + apply (ranked_from_order _ _ (tallied_sorted t) _ _ _ Ha Hb).
    + intros Hab.
      destruct (Z.lt_trichotomy (rank a) (rank b)) as [?|[E|Hlt]]; [assumption| |].
      * apply (ranked_from_rank_inj _ _ _ _ _ Ha Hb) in E. subst b.
        now apply ranks_before_irrefl in Hab.
      * apply (ranked_from_order _ _ (tallied_sorted t) _ _ _ Hb Ha) in Hlt.
        now apply ranks_before_asym in Hab.
Qed.

(** The sample task: its two options have distinct ids. *)
Lemma ranks_are_positions_sample :
  NoDup (map Option.id (options sample_loaded)) /\
  map rank (ConsensusService.sortedResults sample_loaded) =
    map Z.of_nat (seq 1 (List.length (options sample_loaded))).
Proof.
  assert (H : NoDup (map Option.id (options sample_loaded))).
  { cbn. repeat constructor; cbn; intuition discriminate. }
  split; [exact H|]. exact (proj1 (ranks_are_positions sample_loaded H)).
Defined.

(* ===================================================================== *)
(** * The ledger store *)
(* ===================================================================== *)

Lemma replace_replace {A} (key : A -> N) (k : N) (f g : A -> A) (rows : list A) :
  (forall r, key (f r) = key r) ->
  Prisma.replace key k g (Prisma.replace key k f rows) =
  Prisma.replace key k (fun r => g (f r)) rows.
Proof.
  intros Hk. unfold Prisma.replace. rewrite map_map. apply map_ext.
  intros r. destruct (N.eqb (key r) k) eqn:E.
  - now rewrite Hk, E.
  - now rewrite E.
Qed.


Lemma lookup_replace {A} (key : A -> N) (k k' : N) (f : A -> A) (rows : list A) :
  (forall r, key (f r) = key r) ->
  Prisma.lookup key k (Prisma.replace key k' f rows) =
  option_map (fun r => if N.eqb (key r) k' then f r else r)
             (Prisma.lookup key k rows).
Proof.
  intros Hk. unfold Prisma.lookup, Prisma.replace.
  induction rows as [|r rows IH]; cbn; [reflexivity|].
  destruct (N.eqb (key r) k') eqn:E.
  - rewrite Hk. destruct (N.eqb (key r) k) eqn:E2; cbn; [now rewrite E|exact IH].
  - destruct (N.eqb (key r) k) eqn:E2; cbn; [now rewrite E|exact IH].
Qed.

Lemma lookup_app_fresh {A} (key : A -> N) (k : N) (rows : list A) (row : A) :
  Forall (fun r => key r <> k) rows -> key row = k ->
  Prisma.lookup key k (rows ++ [row]) = Some row.
Proof.
  intros H E. unfold Prisma.lookup.
  induction H as [|r rows Hr _ IH]; cbn.
  - now rewrite E, N.eqb_refl.
  - apply N.eqb_neq in Hr. now rewrite Hr.
Qed.

Lemma replace_app_fresh {A} (key : A -> N) (k : N) (f : A -> A)
    (rows : list A) (row : A) :
  Forall (fun r => key r <> k) rows -> key row = k ->
  Prisma.replace key k f (rows ++ [row]) = rows ++ [f row].
Proof.
  intros H E. unfold Prisma.replace. rewrite map_app. cbn.
  rewrite E, N.eqb_refl. f_equal.
  rewrite <- (map_id rows) at 2. apply map_ext_in.
  intros r Hr. rewrite Forall_forall in H. specialize (H _ Hr).
  apply N.eqb_neq in H. now rewrite H.
Qed.

Lemma lookup_key {A} (key : A -> N) (k : N) (rows : list A) (r : A) :
  Prisma.lookup key k rows = Some r -> key r = k /\ In r rows.
Proof.
  unfold Prisma.lookup. intros H. apply find_some in H.
  destruct H as [H1 H2]. apply N.eqb_eq in H2. auto.
Qed.

Lemma worker_findUnique_run (k : N) (w : World) :
  Prisma.worker_findUnique k w =
  (Ok (Prisma.lookup Worker.id k (Db.workers (db w))), w).
Proof. reflexivity. Qed.

Lemma worker_update_run (k : N) (f : Worker.t -> Worker.t) (w : World) :
  Prisma.worker_update k f w =
  match Prisma.lookup Worker.id k (Db.workers (db w)) with
  | Some _ =>
      (Ok tt, with_db (Prisma.set_workers (db w)
                         (Prisma.replace Worker.id k f (Db.workers (db w)))) w)
  | None => (Throw Prisma.P2025, w)
  end.
Proof.
  unfold Prisma.worker_update, bind, read_db.
  destruct (Prisma.lookup _ _ _); reflexivity.
Qed.

Lemma worker_credit_run (k : N) (fits : Worker.t -> bool)
    (f : Worker.t -> Worker.t) (w : World) :
  Prisma.worker_credit k fits f w =
  match Prisma.lookup Worker.id k (Db.workers (db w)) with
  | Some r =>
      if fits r
      then (Ok tt, with_db (Prisma.set_workers (db w)
                              (Prisma.replace Worker.id k f (Db.workers (db w)))) w)
      else (Throw Prisma.P2020, w)
  | None => (Throw Prisma.P2025, w)
  end.
Proof.
  unfold Prisma.worker_credit, bind, read_db.
  destruct (Prisma.lookup _ _ _) as [r|]; [|reflexivity].
  destruct (fits r); reflexivity.
Qed.

Lemma workerWithdrawal_create_run (k : N) (amount : Z) (sig : string)
    (st : TxnStatus) (w : World) :
  Prisma.workerWithdrawal_create k amount sig st w =
  let row := {| WorkerWithdrawal.id := workerWithdrawal_seq (seqs w);
                WorkerWithdrawal.workerId := k;
                WorkerWithdrawal.amount := amount;
                WorkerWithdrawal.signature := sig;
                WorkerWithdrawal.status := st;
                WorkerWithdrawal.processedAt := None |} in
  (Ok row,
   {| db := Prisma.set_workerWithdrawals (db w)
              (Db.workerWithdrawals (db w) ++ [row]);
      seqs := {| submission_seq := submission_seq (seqs w);
                 taskResult_seq := taskResult_seq (seqs w);
                 optionResult_seq := optionResult_seq (seqs w);
                 workerWithdrawal_seq := N.succ (workerWithdrawal_seq (seqs w)) |};
      clock := clock w; sent := sent w; net := net w |}).
Proof. reflexivity. Qed.

Lemma workerWithdrawal_update_run (k : N)
    (f : WorkerWithdrawal.t -> WorkerWithdrawal.t) (w : World) :
  Prisma.workerWithdrawal_update k f w =
  match Prisma.lookup WorkerWithdrawal.id k (Db.workerWithdrawals (db w)) with
  | Some _ =>
      (Ok tt, with_db (Prisma.set_workerWithdrawals (db w)
                         (Prisma.replace WorkerWithdrawal.id k f
                            (Db.workerWithdrawals (db w)))) w)
  | None => (Throw Prisma.P2025, w)
  end.
Proof.
  unfold Prisma.workerWithdrawal_update, bind, read_db.
  destruct (Prisma.lookup _ _ _); reflexivity.
Qed.

(* ===================================================================== *)
(** * Worker withdrawal *)
(* ===================================================================== *)

(** The first transaction of POST /payout, for an existing worker. *)
Lemma lockFunds_run (workerId : N) (X : Z) (w : World) (worker : Worker.t) :
  Prisma.lookup Worker.id workerId (Db.workers (db w)) = Some worker ->
  exists w1,
    lockFunds workerId X w =
      (Ok {| WorkerWithdrawal.id := workerWithdrawal_seq (seqs w);
             WorkerWithdrawal.workerId := workerId;
             WorkerWithdrawal.amount := X;
             WorkerWithdrawal.signature := "pending";
             WorkerWithdrawal.status := Processing;
             WorkerWithdrawal.processedAt := None |}, w1)
    /\ db w1 =
       Prisma.set_workerWithdrawals
         (Prisma.set_workers (db w)
            (Prisma.replace Worker.id workerId
               (fun w0 =>
                  {| Worker.id := Worker.id w0;
                     Worker.address := Worker.address w0;
                     Worker.pending_amount := Worker.pending_amount w0 - X;
                     Worker.locked_amount := Worker.locked_amount w0 + X;
                     Worker.total_earned := Worker.total_earned w0;
                     Worker.tasks_completed := Worker.tasks_completed w0 |})
               (Db.workers (db w))))
         (Db.workerWithdrawals (db w) ++
            [ {| WorkerWithdrawal.id := workerWithdrawal_seq (seqs w);
                 WorkerWithdrawal.workerId := workerId;
                 WorkerWithdrawal.amount := X;
                 WorkerWithdrawal.signature := "pending";
                 WorkerWithdrawal.status := Processing;
                 WorkerWithdrawal.processedAt := None |} ])
    /\ clock w1 = clock w /\ sent w1 = sent w /\ net w1 = net w.
Proof.
  intros Hw. unfold lockFunds, bind.
  rewrite worker_update_run, Hw, workerWithdrawal_create_run.
  eexists. split; [reflexivity|]. cbn. auto.
Qed.



(* ===================================================================== *)
(** * Settlement *)
(* ===================================================================== *)

Lemma task_findUnique_include_run (taskId : N) (w : World) :
  exists r, Prisma.task_findUnique_include taskId w = (Ok r, w).
Proof. eexists. reflexivity. Qed.

Lemma checkTaskCompletion_pure (taskId : N) (w : World) :
  exists r, checkTaskCompletion taskId w = (r, w).
Proof.
  unfold checkTaskCompletion, bind.
  destruct (task_findUnique_include_run taskId w) as [r ->].
  destruct r; eexists; reflexivity.
Qed.

Lemma calculateConsensus_pure (env : Env) (taskId : N) (w : World) :
  exists r, calculateConsensus env taskId w = (r, w).
Proof.
  unfold calculateConsensus, bind.
  destruct (checkTaskCompletion_pure taskId w) as [r ->].
  destruct r as [ts|e]; [|eexists; reflexivity].
  destruct (negb (isReadyForConsensus ts)); eexists; reflexivity.
Qed.

Lemma task_update_run (k : N) (f : Task.t -> Task.t) (w : World) :
  Prisma.task_update k f w =
  match Prisma.lookup Task.id k (Db.tasks (db w)) with
  | Some _ =>
      (Ok tt, with_db (Prisma.set_tasks (db w)
                         (Prisma.replace Task.id k f (Db.tasks (db w)))) w)
  | None => (Throw Prisma.P2025, w)
  end.
Proof.
  unfold Prisma.task_update, bind, read_db.
  destruct (Prisma.lookup _ _ _); reflexivity.
Qed.

Lemma taskResult_create_run (taskId : N) (w : World) :
  Prisma.taskResult_create taskId w =
  let w1 := with_seqs (bump_taskResult_seq (seqs w)) w in
  if has_result taskId (db w)
  then (Throw Prisma.P2002, w1)
  else
    let row := {| TaskResult.id := taskResult_seq (seqs w);
                  TaskResult.task_id := taskId |} in
    (Ok row,
     with_db (Prisma.set_taskResults (db w) (Db.taskResults (db w) ++ [row])) w1).
Proof.
  unfold Prisma.taskResult_create, bind, Prisma.next_taskResult_id, read_db,
    has_result, bump_taskResult_seq.
  cbn [db with_seqs seqs]. destruct (existsb _ _); reflexivity.
Qed.

Lemma same_addresses_refl (ws : list Worker.t) : same_addresses ws ws.
Proof. intros k. reflexivity. Qed.

Lemma same_addresses_trans (a b c : list Worker.t) :
  same_addresses a b -> same_addresses b c -> same_addresses a c.
Proof. intros H1 H2 k. now rewrite H2, H1. Qed.

Lemma replace_same_addresses (k : N) (f : Worker.t -> Worker.t) (ws : list Worker.t) :
  (forall r, Worker.id (f r) = Worker.id r) ->
  (forall r, Worker.address (f r) = Worker.address r) ->
  same_addresses ws (Prisma.replace Worker.id k f ws).
Proof.
  intros Hid Haddr j. rewrite lookup_replace by exact Hid.
  destruct (Prisma.lookup Worker.id j ws) as [r|]; cbn; [|reflexivity].
  destruct (N.eqb (Worker.id r) k); now rewrite ?Haddr.
Qed.

Lemma settlement_frame_refl (w : World) : settlement_frame w w.
Proof. repeat split. Qed.

Lemma settlement_frame_trans (a b c : World) :
  settlement_frame a b -> settlement_frame b c -> settlement_frame a c.
Proof.
  intros (A1 & A2 & A3 & A4 & A5) (B1 & B2 & B3 & B4 & B5).
  refine (conj _ (conj _ (conj _ (conj _ _))));
    [congruence | congruence | congruence | congruence
    | eapply same_addresses_trans; eauto].
Qed.

Lemma payee_frame (w w' : World) (r : WorkerReward) :
  settlement_frame w w' -> payee (db w') r = payee (db w) r.
Proof.
  intros (_ & _ & _ & _ & H). unfold payee. specialize (H (wr_workerId r)).
  destruct (Prisma.lookup _ _ (Db.workers (db w'))),
           (Prisma.lookup _ _ (Db.workers (db w))); cbn in H; congruence.
Qed.

(** A loop keeps what each of its steps keeps. *)
Lemma foldM_invariant {A B} (P : World -> World -> Prop)
    (body : B -> A -> M B) :
  (forall w, P w w) ->
  (forall a b c, P a b -> P b c -> P a c) ->
  (forall acc x w, P w (snd (body acc x w))) ->
  forall xs acc w, P w (snd (foldM body xs acc w)).
Proof.
  intros Hrefl Htrans Hbody xs.
  induction xs as [|x xs IH]; intros acc w; cbn [foldM].
  - apply Hrefl.
  - unfold bind. specialize (Hbody acc x w).
    destruct (body acc x w) as [[acc'|e] w1]; cbn [snd] in *.
    + eapply Htrans; [exact Hbody|apply IH].
    + exact Hbody.
Qed.

Lemma optionResult_create_frame (o r : N) (v k : Z) (p : JS.number) (w : World) :
  exists w',
    Prisma.optionResult_create o r v k p w = (Ok tt, w')
    /\ settlement_frame w w' /\ sent w' = sent w.
Proof.
  eexists. split; [reflexivity|]. cbn. repeat split.
Qed.

Lemma optionResults_loop (rs : list RankedResult) (i : N) (w : World) :
  exists w',
    forM rs (fun result =>
               Prisma.optionResult_create (optionId result) i (count result)
                 (rank result) (percentage result)) w = (Ok tt, w')
    /\ settlement_frame w w' /\ sent w' = sent w.
Proof.
  unfold forM. revert w.
  induction rs as [|r rs IH]; intros w; cbn [foldM].
  - eexists. split; [reflexivity|]. split; [apply settlement_frame_refl|reflexivity].
  - unfold bind.
    destruct (optionResult_create_frame (optionId r) i (count r) (rank r)
                (percentage r) w) as (w1 & -> & F1 & S1).
    destruct (IH w1) as (w2 & -> & F2 & S2).
    eexists. split; [reflexivity|]. split.
    + eapply settlement_frame_trans; eauto.
    + congruence.
Qed.

(** One step of the reward loop: the worker is credited and then the
    dispatcher is called once, for the address of that worker; the step
    throws when the amount is no integer, when the worker is missing,
    when a column does not accept the credit, or when the dispatcher
    throws. *)
Lemma distributeReward_spec (payout : Dispatcher) (acc : list RewardTransaction)
    (reward : WorkerReward) (w : World) :
  match distributeReward payout acc reward w with
  | (Ok acc', w') =>
      settlement_frame w w'
      /\ sent w' = sent w ++ [payee (db w) reward]
      /\ map rt_workerId acc' = map rt_workerId acc ++ [wr_workerId reward]
      /\ accepted payout (payee (db w) reward)
  | (Throw e, w') =>
      settlement_frame w w'
      /\ (sent w' = sent w \/ sent w' = sent w ++ [payee (db w) reward])
  end.
Proof.
  unfold distributeReward, bind, Prisma.Int.
  destruct (JS.to_Z (wr_amount reward)) as [amount|]; cbn [ret throw].
  2:{ split; [apply settlement_frame_refl|now left]. }
  rewrite worker_credit_run.
  destruct (Prisma.lookup Worker.id (wr_workerId reward) (Db.workers (db w)))
    as [worker|] eqn:Hw.
  2:{ split; [apply settlement_frame_refl|now left]. }
  match goal with |- context [if ?b then _ else _] => destruct b end.
  2:{ split; [apply settlement_frame_refl|now left]. }
  rewrite worker_findUnique_run.
  cbn [db with_db Db.workers Prisma.set_workers].
  rewrite lookup_replace by reflexivity. rewrite Hw. cbn [option_map].
  destruct (lookup_key _ _ _ _ Hw) as [Hid _]. rewrite Hid, N.eqb_refl.
  cbn [ret Worker.address]. unfold dispatch.
  cbn [db seqs clock sent net with_db].
  set (f := fun w0 : Worker.t => _).
  assert (F : same_addresses (Db.workers (db w))
                (Prisma.replace Worker.id (wr_workerId reward) f (Db.workers (db w))))
    by (apply replace_same_addresses; reflexivity).
  assert (P : payee (db w) reward = (Worker.address worker, wr_amount reward))
    by (unfold payee; now rewrite Hw).
  destruct (payout (Worker.address worker) (wr_amount reward) (net w))
    as [[sig|e] n] eqn:Hp.
  - split; [repeat split; exact F|]. cbn [sent]. rewrite P. split; [reflexivity|].
    split; [rewrite map_app; reflexivity|].
    exists (net w), sig, n. exact Hp.
  - split; [repeat split; exact F|]. right. cbn [sent]. now rewrite P.
Qed.

Lemma rewards_loop_spec (payout : Dispatcher) (rewards : list WorkerReward)
    (acc : list RewardTransaction) (w : World) :
  match foldM (distributeReward payout) rewards acc w with
  | (Ok acc', w') =>
      settlement_frame w w'
      /\ sent w' = sent w ++ map (payee (db w)) rewards
      /\ map rt_workerId acc' = map rt_workerId acc ++ map wr_workerId rewards
      /\ Forall (accepted payout) (map (payee (db w)) rewards)
  | (Throw e, w') =>
      settlement_frame w w'
      /\ exists k, sent w' = sent w ++ firstn k (map (payee (db w)) rewards)
  end.
Proof.
  revert acc w. induction rewards as [|r rewards IH]; intros acc w; cbn [foldM].
  - cbn. rewrite !app_nil_r. repeat split. constructor.
  - unfold bind. pose proof (distributeReward_spec payout acc r w) as H1.
    destruct (distributeReward payout acc r w) as [[acc1|e] w1].
    + destruct H1 as (F1 & S1 & A1 & P1).
      specialize (IH acc1 w1).
      assert (E : map (payee (db w1)) rewards = map (payee (db w)) rewards)
        by (apply map_ext; intros; now apply payee_frame).
      destruct (foldM (distributeReward payout) rewards acc1 w1) as [[acc2|e] w2].
      * destruct IH as (F2 & S2 & A2 & P2). split; [|split; [|split]].
        -- eapply settlement_frame_trans; eauto.
        -- rewrite S2, S1, E, <- app_assoc. reflexivity.
        -- rewrite A2, A1, <- app_assoc. reflexivity.
        -- cbn [map]. constructor; [exact P1|]. now rewrite <- E.
      * destruct IH as (F2 & k & S2). split.
        -- eapply settlement_frame_trans; eauto.
        -- exists (S k). rewrite S2, S1, E, <- app_assoc. reflexivity.
    + destruct H1 as (F1 & [S1|S1]); (split; [exact F1|]).
      * exists 0%nat. cbn. now rewrite app_nil_r.
      * exists 1%nat. cbn. exact S1.
Qed.

Lemma has_result_set_tasks (taskId : N) (d : Db.t) (x : list Task.t) :
  has_result taskId (Prisma.set_tasks d x) = has_result taskId d.
Proof. reflexivity. Qed.

(** The transaction of the settlement. *)
Lemma settlementTransaction_spec (payout : Dispatcher) (taskId : N)
    (c : Consensus) (w : World) :
  match settlementTransaction payout taskId c w with
  | (Ok s, w') =>
      s_consensus s = c
      /\ sent w' = sent w ++ map (payee (db w)) (workerRewards c)
      /\ map rt_workerId (rewardTransactions s) = map wr_workerId (workerRewards c)
      /\ Forall (accepted payout) (map (payee (db w)) (workerRewards c))
      /\ has_result taskId (db w) = false
      /\ has_result taskId (db w') = true
      /\ Db.tasks (db w') =
         Prisma.replace Task.id taskId (mark_done (clock w)) (Db.tasks (db w))
      /\ Db.submissions (db w') = Db.submissions (db w)
      /\ Db.options (db w') = Db.options (db w)
  | (Throw e, w') =>
      (exists k, sent w' = sent w ++ firstn k (map (payee (db w)) (workerRewards c)))
      /\ (has_result taskId (db w) = true ->
          sent w' = sent w
          /\ (Prisma.lookup Task.id taskId (Db.tasks (db w)) <> None ->
              e = Prisma.P2002))
  end.
Proof.
  unfold settlementTransaction, bind, new_Date.
  rewrite task_update_run. cbn [db seqs clock sent net].
  destruct (Prisma.lookup Task.id taskId (Db.tasks (db w))) as [t0|] eqn:Ht.
  2:{ cbn [sent]. split.
      - exists 0%nat. cbn. now rewrite app_nil_r.
      - intros _. split; [reflexivity|]. intros H. exfalso. apply H. reflexivity. }
  rewrite taskResult_create_run.
  cbn [db seqs clock sent net with_db with_seqs].
  rewrite has_result_set_tasks.
  destruct (has_result taskId (db w)) eqn:Hr.
  { cbn [sent]. split.
    - exists 0%nat. cbn. now rewrite app_nil_r.
    - intros _. split; [reflexivity|]. reflexivity. }
  cbn zeta. cbn [TaskResult.id].
  match goal with
  | |- context [forM ?rs ?body ?w1] =>
      destruct (optionResults_loop (results c) (taskResult_seq (seqs w)) w1)
        as (w2 & -> & F2 & S2)
  end.
  match type of F2 with
  | settlement_frame ?w1 _ => set (w1' := w1) in *
  end.
  pose proof (rewards_loop_spec payout (workerRewards c) [] w2) as H3.
  assert (E : map (payee (db w2)) (workerRewards c) =
              map (payee (db w)) (workerRewards c)).
  { apply map_ext. intros r. rewrite (payee_frame w1' w2 r F2). reflexivity. }
  rewrite E in H3. clear E.
  assert (S1 : sent w2 = sent w) by (rewrite S2; reflexivity).
  rewrite S1 in H3.
  destruct (foldM (distributeReward payout) (workerRewards c) [] w2)
    as [[acc|e] w3].
  - destruct H3 as (F3 & S3 & A3 & P3). cbn [ret db sent].
    pose proof (settlement_frame_trans _ _ _ F2 F3) as (T1 & T2 & T3 & T4 & T5).
    split; [reflexivity|]. split; [exact S3|]. split; [exact A3|].
    split; [exact P3|]. split; [reflexivity|].
    split; [|split; [|split]].
    + unfold has_result. rewrite T4. unfold w1'. cbn.
      rewrite existsb_app. cbn. rewrite N.eqb_refl. apply orb_true_r.
    + rewrite T1. reflexivity.
    + rewrite T3. reflexivity.
    + rewrite T2. reflexivity.
  - destruct H3 as (F3 & k & S3). split.
    + exists k. exact S3.
    + intros H. discriminate H.
Qed.

Lemma checkTaskCompletion_run (taskId : N) (w : World) :
  checkTaskCompletion taskId w =
  match load taskId (db w) with
  | Some t => (Ok (ConsensusService.taskStatus taskId t), w)
  | None => (Throw (Error "Task not found"), w)
  end.
Proof.
  unfold checkTaskCompletion, Prisma.task_findUnique_include, bind, read_db, ret, load.
  destruct (Prisma.lookup Task.id taskId (Db.tasks (db w))); reflexivity.
Qed.

Lemma calculateConsensus_run (env : Env) (taskId : N) (w : World) :
  calculateConsensus env taskId w =
  match load taskId (db w) with
  | Some t =>
      if isReadyForConsensus (ConsensusService.taskStatus taskId t)
      then (Ok (ConsensusService.consensusOf env taskId t), w)
      else (Throw (Error "Task does not have enough submissions for consensus"), w)
  | None => (Throw (Error "Task not found"), w)
  end.
Proof.
  unfold calculateConsensus, bind. rewrite checkTaskCompletion_run.
  destruct (load taskId (db w)) as [t|]; [|reflexivity].
  destruct (isReadyForConsensus (ConsensusService.taskStatus taskId t)); reflexivity.
Qed.



(** A task that has a Result is not settled again. *)
Lemma settled_task_rejected (env : Env) (payout : Dispatcher) (taskId : N) (w : World) :
  has_result taskId (db w) = true ->
  exists e w',
    processTaskCompletion env payout taskId w = (Throw e, w')
    /\ db w' = db w /\ sent w' = sent w
    /\ (forall c, calculateConsensus env taskId w = (Ok c, w) -> e = Prisma.P2002).
Proof.
  intros Hr. unfold processTaskCompletion, bind.
  rewrite calculateConsensus_run.
  destruct (load taskId (db w)) as [t|] eqn:Hl.
  2:{ do 2 eexists. split; [reflexivity|]. repeat split. intros c [=]. }
  destruct (isReadyForConsensus (ConsensusService.taskStatus taskId t)).
  2:{ do 2 eexists. split; [reflexivity|]. repeat split. intros c [=]. }
  unfold transaction.
  pose proof (settlementTransaction_spec payout taskId
                (ConsensusService.consensusOf env taskId t) w) as H.
  destruct (settlementTransaction payout taskId _ w) as [[s|e] w'].
  - destruct H as (_ & _ & _ & _ & H & _). congruence.
  - destruct H as (_ & H). destruct (H Hr) as (H1 & H2).
    do 2 eexists. split; [reflexivity|]. split; [reflexivity|].
    split; [exact H1|]. intros _ _. apply H2.
    unfold load in Hl. destruct (Prisma.lookup Task.id taskId (Db.tasks (db w)));
      [discriminate|discriminate Hl].
Qed.

Lemma load_after_settlement (taskId : N) (d d' : Db.t) (now : Z) (t : LoadedTask) :
  Db.tasks d' = Prisma.replace Task.id taskId (mark_done now) (Db.tasks d) ->
  Db.submissions d' = Db.submissions d ->
  Db.options d' = Db.options d ->
  load taskId d = Some t ->
  load taskId d' =
  Some {| task := mark_done now (task t);
          submissions := submissions t;
          options := options t |}.
Proof.
  intros Ht Hs Ho. unfold load. rewrite Ht, Hs, Ho.
  rewrite lookup_replace by reflexivity.
  destruct (Prisma.lookup Task.id taskId (Db.tasks d)) as [t0|] eqn:E; [|discriminate].
  intros [= <-]. cbn.
  destruct (lookup_key _ _ _ _ E) as [-> _]. now rewrite N.eqb_refl.
Qed.

(** C2: when [processTaskCompletion] has settled a task, a second call for
    that task throws the violation [P2002] of the unique index on the task
    id of TaskResult; the ledger after the second call is the ledger before
    it (every balance, the Result and its rows), and no payout is
    dispatched. *)
Theorem second_settlement_is_rejected (env : Env) (payout : Dispatcher)
    (taskId : N) (w w1 : World) (s : Settlement) :
  processTaskCompletion env payout taskId w = (Ok s, w1) ->
  exists w2,
    processTaskCompletion env payout taskId w1 = (Throw Prisma.P2002, w2)
    /\ db w2 = db w1
    /\ sent w2 = sent w1.
Proof.
  unfold processTaskCompletion at 1. unfold bind.
  rewrite calculateConsensus_run.
  destruct (load taskId (db w)) as [t|] eqn:Hl; [|discriminate].
  destruct (isReadyForConsensus (ConsensusService.taskStatus taskId t)) eqn:Hready;
    [|discriminate].
  unfold transaction.
  pose proof (settlementTransaction_spec payout taskId
                (ConsensusService.consensusOf env taskId t) w) as H.
  destruct (settlementTransaction payout taskId _ w) as [[s'|e] w']; [|discriminate].
  intros [= <- <-].
  destruct H as (_ & _ & _ & _ & _ & Hres & Ht & Hs & Ho).
  pose proof (load_after_settlement taskId (db w) (db w') (clock w) t Ht Hs Ho Hl) as Hl'.
  destruct (settled_task_rejected env payout taskId w' Hres) as (e & w2 & H1 & H2 & H3 & H4).
  exists w2. rewrite H1. split; [|split; assumption].
  rewrite (H4 (ConsensusService.consensusOf env taskId
                 {| task := mark_done (clock w) (task t);
                    submissions := submissions t; options := options t |})).
  - reflexivity.
  - rewrite calculateConsensus_run, Hl'.
    change (isReadyForConsensus (ConsensusService.taskStatus taskId
              {| task := mark_done (clock w) (task t);
                 submissions := submissions t; options := options t |}))
      with (isReadyForConsensus (ConsensusService.taskStatus taskId t)).
    now rewrite Hready.
Qed.

(** The sample task, settled once and then again. *)
Lemma second_settlement_is_rejected_sample :
  exists w2,
    processTaskCompletion sample_env accepting_dispatcher 1
      (snd (processTaskCompletion sample_env accepting_dispatcher 1 sample_world)) =
      (Throw Prisma.P2002, w2)
    /\ db w2 = db (snd (processTaskCompletion sample_env accepting_dispatcher 1 sample_world))
    /\ sent w2 = sent (snd (processTaskCompletion sample_env accepting_dispatcher 1 sample_world)).
Proof.
  eapply (second_settlement_is_rejected sample_env accepting_dispatcher 1 sample_world).
  vm_compute. reflexivity.
Defined.

(* ===================================================================== *)
(** * Submissions *)
(* ===================================================================== *)

Lemma getNextTask_available (userId : N) (w : World) :
  exists r,
    getNextTask userId w = (Ok r, w)
    /\ forall nt, r = Some nt ->
         Prisma.submission_unique (Task.id (nt_task nt)) userId
           (Db.submissions (db w)) = true.
Proof.
  unfold getNextTask, bind, read_db, ret.
  eexists. split; [reflexivity|].
  cbn [db].
  match goal with
  | |- context [Array.sort ?cmp (filter ?p ?l)] =>
      pose proof (fun t => proj1 (sort_In cmp (filter p l) t)) as Hin;
      destruct (Array.sort cmp (filter p l)) as [|t rest]
  end.
  - intros nt [=].
  - intros nt [= <-]. cbn [nt_task].
    specialize (Hin t (or_introl eq_refl)).
    apply filter_In in Hin. destruct Hin as [_ Hav].
    apply andb_true_iff in Hav. destruct Hav as [_ Hav].
    exact Hav.
Qed.

(** C8: when the ledger holds a submission of the worker for the task,
    a further POST /submission of that worker for that task is answered
    with the status 400 and changes nothing: no submission is added (so no
    vote and no change of the submission count) and no balance is
    credited; and the transaction of the handler, were it reached, throws
    the constraint violation [P2002] at the insert and leaves the ledger
    as it is, the credit of the pending balance included. *)
Theorem duplicate_submission_is_rejected (env : Env) (payout : Dispatcher)
    (workerId taskId selection : N) (w : World) :
  Prisma.submission_unique taskId workerId (Db.submissions (db w)) = false ->
  post_submission env payout workerId taskId selection w =
    (Ok (fail 400 "Invalid task ID or task not available"), w)
  /\ forall baseReward,
       exists e w',
         transaction (submissionTransaction workerId taskId selection baseReward) w
           = (Throw e, w')
         /\ db w' = db w
         /\ (JS.to_Z baseReward <> None -> e = Prisma.P2002).
Proof.
  intros Hdup. split.
  - unfold post_submission, try_catch, bind.
    destruct (getNextTask_available workerId w) as (r & -> & Hav).
    destruct r as [nt|]; [|reflexivity].
    destruct (N.eqb (Task.id (nt_task nt)) taskId) eqn:E; [|reflexivity].
    apply N.eqb_eq in E. specialize (Hav nt eq_refl).
    rewrite E in Hav. congruence.
  - intros baseReward.
    unfold transaction, submissionTransaction, bind, Prisma.Int.
    destruct (JS.to_Z baseReward) as [amount|]; cbn [ret throw].
    + unfold Prisma.submission_create, bind, Prisma.next_submission_id, read_db.
      cbn [db with_seqs]. rewrite Hdup. cbn [throw].
      do 2 eexists. split; [reflexivity|]. split; [reflexivity|]. reflexivity.
    + do 2 eexists. split; [reflexivity|]. split; [reflexivity|].
      intros H. now elim H.
Qed.

(** Worker 10 has voted on the sample task. *)
Lemma duplicate_submission_is_rejected_sample :
  post_submission sample_env accepting_dispatcher 10 1 2 sample_world =
    (Ok (fail 400 "Invalid task ID or task not available"), sample_world)
  /\ forall baseReward,
       exists e w',
         transaction (submissionTransaction 10 1 2 baseReward) sample_world
           = (Throw e, w')
         /\ db w' = db sample_world
         /\ (JS.to_Z baseReward <> None -> e = Prisma.P2002).
Proof.
  apply (duplicate_submission_is_rejected sample_env accepting_dispatcher 10 1 2
           sample_world).
  reflexivity.
Defined.

(* ===================================================================== *)
(** * The simulated dispatcher *)
(* ===================================================================== *)

Lemma lookup_app_last {A} (key : A -> N) (k : N) (rows : list A) (row : A) :
  key row = k -> Prisma.lookup key k (rows ++ [row]) <> None.
Proof.
  intros E. unfold Prisma.lookup.
  induction rows as [|r rows IH]; cbn.
  - rewrite E, N.eqb_refl. discriminate.
  - destruct (N.eqb (key r) k); [discriminate|exact IH].
Qed.

Lemma replace_In {A} (key : A -> N) (k : N) (f : A -> A) (rows : list A) (r : A) :
  In r (Prisma.replace key k f rows) ->
  In r rows \/ exists r0, r = f r0.
Proof.
  unfold Prisma.replace. intros H. apply in_map_iff in H.
  destruct H as (r0 & <- & H0).
  destruct (N.eqb (key r0) k); [right; now exists r0|now left].
Qed.

Section Mock.

Variable random_byte : N -> N.
Variable bs58_encode : list N -> string.

Let mock : Dispatcher := sendReward random_byte bs58_encode.

Lemma mock_dispatch (address : string) (amount : JS.number) (w : World) :
  exists sig w',
    dispatch mock address amount w = (Ok sig, w')
    /\ db w' = db w /\ seqs w' = seqs w /\ clock w' = clock w.
Proof. do 2 eexists. split; [reflexivity|]. cbn. auto. Qed.

Lemma mock_post_payout (workerId : N) (amount : option Z) (w : World) :
  exists resp w',
    post_payout mock workerId amount w = (Ok resp, w')
    /\ status resp <> 500
    /\ (forall r, In r (Db.workerWithdrawals (db w')) ->
                  WorkerWithdrawal.status r = Failure ->
                  In r (Db.workerWithdrawals (db w))).
Proof.
  unfold post_payout.
  destruct (negb (workerPayoutInput amount)).
  { do 2 eexists. split; [reflexivity|]. split; [discriminate|auto]. }
  unfold try_catch, bind.
  rewrite worker_findUnique_run.
  destruct (Prisma.lookup Worker.id workerId (Db.workers (db w))) as [worker|] eqn:Hw.
  2:{ do 2 eexists. split; [reflexivity|]. split; [discriminate|auto]. }
  set (payoutAmount := match amount with
                       | Some a => if a =? 0 then Worker.pending_amount worker else a
                       | None => Worker.pending_amount worker
                       end).
  destruct (payoutAmount <=? 0).
  { do 2 eexists. split; [reflexivity|]. split; [discriminate|auto]. }
  destruct (Worker.pending_amount worker <? payoutAmount).
  { do 2 eexists. split; [reflexivity|]. split; [discriminate|auto]. }
  unfold transaction.
  destruct (lockFunds_run workerId payoutAmount w worker Hw)
    as (w1 & -> & Hdb1 & Hc1 & Hs1 & Hn1).
  unfold sendPayout, bind.
  destruct (mock_dispatch (Worker.address worker) (JS.of_Z payoutAmount) w1)
    as (sig & w2 & -> & Hdb2 & Hq2 & Hc2).
  unfold new_Date. rewrite workerWithdrawal_update_run.
  cbn [db seqs clock sent net WorkerWithdrawal.id].
  rewrite Hdb2, Hdb1. cbn [Db.workerWithdrawals Prisma.set_workerWithdrawals].
  destruct (Prisma.lookup WorkerWithdrawal.id (workerWithdrawal_seq (seqs w))
              (Db.workerWithdrawals (db w) ++ _)) eqn:Hl.
  2:{ exfalso. revert Hl. now apply lookup_app_last. }
  rewrite worker_update_run.
  cbn [db with_db Db.workers Prisma.set_workerWithdrawals Prisma.set_workers].
  rewrite lookup_replace by reflexivity. rewrite Hw. cbn [ret option_map].
  do 2 eexists. split; [reflexivity|]. split; [discriminate|].
  cbn [db with_db Db.workerWithdrawals Prisma.set_workerWithdrawals Prisma.set_workers].
  intros r Hr Hf.
  apply replace_In in Hr. destruct Hr as [Hr|(r0 & ->)]; [|discriminate Hf].
  apply in_app_or in Hr. destruct Hr as [Hr|[<-|[]]]; [exact Hr|discriminate Hf].
Qed.

Lemma mock_distributeReward (acc : list RewardTransaction) (reward : WorkerReward)
    (w w' : World) (e : Exn) :
  distributeReward mock acc reward w = (Throw e, w') -> sent w' = sent w.
Proof.
  unfold distributeReward, bind, Prisma.Int.
  destruct (JS.to_Z (wr_amount reward)) as [amount|]; cbn [ret throw].
  2:{ now intros [= _ <-]. }
  rewrite worker_credit_run.
  destruct (Prisma.lookup Worker.id (wr_workerId reward) (Db.workers (db w))).
  2:{ now intros [= _ <-]. }
  match goal with |- context [if ?b then _ else _] => destruct b end.
  2:{ now intros [= _ <-]. }
  rewrite worker_findUnique_run.
  destruct (Prisma.lookup Worker.id _ _); cbn [ret throw].
  - match goal with
    | |- context [dispatch mock ?a ?x ?w1] =>
        destruct (mock_dispatch a x w1) as (sig & w2 & -> & _)
    end.
    discriminate.
  - now intros [= _ <-].
Qed.

End Mock.

(** C10: [sendReward] returns a transaction reference for every address,
    amount and state of the network, and never throws.  Hence, with it,
    the rollback branch of POST /payout is never taken: the request is
    never answered with "Transaction failed, funds returned to pending
    balance", and it never leaves a withdrawal of status Failure that was
    not there before; and a step of the reward loop of the settlement that
    throws has thrown before it called the dispatcher. *)
Theorem sendReward_never_fails (random_byte : N -> N) (bs58_encode : list N -> string) :
  (forall address amount n,
     exists sig,
       sendReward random_byte bs58_encode address amount n = (Ok sig, (n + 64)%N))
  /\ (forall workerId amount w,
        exists resp w',
          post_payout (sendReward random_byte bs58_encode) workerId amount w
            = (Ok resp, w')
          /\ resp <> fail 500 "Transaction failed, funds returned to pending balance"
          /\ (forall r, In r (Db.workerWithdrawals (db w')) ->
                        WorkerWithdrawal.status r = Failure ->
                        In r (Db.workerWithdrawals (db w))))
  /\ (forall acc reward w w' e,
        distributeReward (sendReward random_byte bs58_encode) acc reward w
          = (Throw e, w') ->
        sent w' = sent w).
Proof.
  split; [|split].
  - intros. eexists. reflexivity.
  - intros workerId amount w.
    destruct (mock_post_payout random_byte bs58_encode workerId amount w)
      as (resp & w' & H1 & H2 & H3).
    exists resp, w'. split; [exact H1|]. split; [|exact H3].
    intros ->. apply H2. reflexivity.
  - apply mock_distributeReward.
Qed.

(* ===================================================================== *)
(** * Binary64 arithmetic: rounding, division, the 0.8 threshold *)
(* ===================================================================== *)

Lemma digits2_pos_size (p : positive) : digits2_pos p = Pos.size p.
Proof. induction p; cbn; congruence. Qed.

Lemma digits2_bounds (p : positive) :
  2 ^ (Zpos (digits2_pos p) - 1) <= Zpos p < 2 ^ Zpos (digits2_pos p).
Proof.
  rewrite digits2_pos_size. split.
  - pose proof (Pos.size_le p) as H.
    assert (Hz : Zpos (2 ^ Pos.size p) <= Zpos p~0) by exact H.
    rewrite Pos2Z.inj_pow in Hz.
    replace (Zpos (Pos.size p)) with (Z.succ (Zpos (Pos.size p) - 1)) in Hz by lia.
    rewrite Z.pow_succ_r in Hz by lia. lia.
  - pose proof (Pos.size_gt p) as H.
    assert (Hz : Zpos p < Zpos (2 ^ Pos.size p)) by exact H.
    now rewrite Pos2Z.inj_pow in Hz.
Qed.

Lemma digits2_unique (p : positive) (d : Z) :
  2 ^ (d - 1) <= Zpos p < 2 ^ d -> Zpos (digits2_pos p) = d.
Proof.
  intros [H1 H2]. destruct (digits2_bounds p) as [B1 B2].
  assert (0 < d).
  { destruct (Z.lt_trichotomy d 0) as [Hd|[Hd|Hd]]; [|subst; cbn in *; lia|lia].
    rewrite Z.pow_neg_r in H2 by lia. lia. }
  destruct (Z.lt_trichotomy (Zpos (digits2_pos p)) d) as [Hl|[He|Hg]]; [|exact He|].
  - exfalso. assert (2 ^ Zpos (digits2_pos p) <= 2 ^ (d - 1)) by (apply Z.pow_le_mono_r; lia). lia.
  - exfalso. assert (2 ^ d <= 2 ^ (Zpos (digits2_pos p) - 1)) by (apply Z.pow_le_mono_r; lia). lia.
Qed.

Lemma iter_xO (m d : positive) : Zpos (Pos.iter xO m d) = Zpos m * 2 ^ Zpos d.
Proof.
  induction d using Pos.peano_ind.
  - cbn. lia.
  - rewrite Pos.iter_succ, Pos2Z.inj_xO, IHd, Pos2Z.inj_succ, Z.pow_succ_r by lia. lia.
Qed.


Lemma Zdigits2_53 (m : Z) : 2 ^ 52 <= m < 2 ^ 53 -> Zdigits2 m = 53.
Proof.
  intros H. destruct m as [|p|p]; try lia.
  cbn [Zdigits2]. apply digits2_unique. exact H.
Qed.

Lemma Zdigits2_54 (m : Z) : 2 ^ 53 <= m < 2 ^ 54 -> Zdigits2 m = 54.
Proof.
  intros H. destruct m as [|p|p]; try lia.
  cbn [Zdigits2]. apply digits2_unique. exact H.
Qed.

Lemma fexp_normal (d e : Z) : -1074 <= e -> fexp 53 1024 (d + e) - e = d - 53 \/ d < 53.
Proof. intros H. unfold fexp, emin. lia. Qed.

Lemma rne_bounds (m : Z) (l : location) :
  round_nearest_even m l = m \/ round_nearest_even m l = m + 1.
Proof.
  destruct l as [|[]]; cbn; auto. destruct (Z.even m); auto.
Qed.

Lemma shr_fexp_53 (m e : Z) (l : location) :
  2 ^ 52 <= m < 2 ^ 53 -> -1074 <= e ->
  shr_fexp 53 1024 m e l = (shr_record_of_loc m l, e).
Proof.
  intros Hm He. unfold shr_fexp. rewrite (Zdigits2_53 m Hm).
  replace (fexp 53 1024 (53 + e) - e) with 0 by (unfold fexp, emin; lia).
  reflexivity.
Qed.

Lemma record_of_loc_m (m : Z) (l : location) : shr_m (shr_record_of_loc m l) = m.
Proof. destruct l as [|[]]; reflexivity. Qed.

Lemma loc_of_record_of_loc (m : Z) (l : location) :
  loc_of_shr_record (shr_record_of_loc m l) = l.
Proof. destruct l as [|[]]; reflexivity. Qed.

Lemma round53_final (sx : bool) (m e : Z) :
  2 ^ 52 <= m <= 2 ^ 53 -> -1074 <= e -> e + 1 <= 971 ->
  (let '(mrs, e') := shr_fexp 53 1024 m e loc_Exact in
   match shr_m mrs with
   | Z0 => S754_zero sx
   | Zpos p => if e' <=? 1024 - 53 then S754_finite sx p e' else S754_infinity sx
   | Zneg _ => S754_nan
   end) = round53 sx m e.
Proof.
  intros Hm He He'. unfold round53.
  destruct (m <? 2 ^ 53) eqn:E.
  - apply Z.ltb_lt in E. rewrite shr_fexp_53 by lia. cbn [shr_record_of_loc shr_m].
    destruct m as [|p|p]; try lia.
    replace (e <=? 1024 - 53) with true by (symmetry; apply Z.leb_le; lia).
    reflexivity.
  - apply Z.ltb_ge in E. assert (m = 2 ^ 53) by lia. subst m.
    unfold shr_fexp.
    replace (Zdigits2 (2 ^ 53)) with 54 by reflexivity.
    replace (fexp 53 1024 (54 + e) - e) with 1 by (unfold fexp, emin; lia).
    cbn [shr shr_record_of_loc iter_pos].
    replace (e + 1 <=? 1024 - 53) with true by (symmetry; apply Z.leb_le; lia).
    reflexivity.
Qed.

Lemma bra53 (sx : bool) (m e : Z) (l : location) :
  2 ^ 52 <= m < 2 ^ 53 -> -1074 <= e -> e + 1 <= 971 ->
  binary_round_aux 53 1024 sx m e l = round53 sx (round_nearest_even m l) e.
Proof.
  intros Hm He He'. unfold binary_round_aux.
  rewrite shr_fexp_53 by assumption.
  rewrite record_of_loc_m, loc_of_record_of_loc.
  apply round53_final; try assumption.
  destruct (rne_bounds m l) as [-> | ->]; lia.
Qed.

Lemma shr_1_record (m : Z) (l : location) :
  0 < m ->
  shr_1 (shr_record_of_loc m l) =
  {| shr_m := m / 2; shr_r := Z.odd m; shr_s := inexact l |}.
Proof.
  intros Hm. destruct m as [|p|p]; try lia.
  destruct p as [p|p|]; destruct l as [|[]]; cbn [shr_record_of_loc shr_1 orb inexact];
    f_equal; try reflexivity;
    try (rewrite Pos2Z.inj_xI; rewrite Z.mul_comm, Z.div_add_l by lia; reflexivity);
    try (rewrite Pos2Z.inj_xO; rewrite Z.mul_comm, Z.div_mul by lia; reflexivity).
Qed.

Lemma bra54 (sx : bool) (m e : Z) (l : location) :
  2 ^ 53 <= m < 2 ^ 54 -> -1074 <= e -> e + 2 <= 971 ->
  binary_round_aux 53 1024 sx m e l =
  round53 sx
    (round_nearest_even (m / 2)
       (loc_of_shr_record
          {| shr_m := m / 2; shr_r := Z.odd m; shr_s := inexact l |}))
    (e + 1).
Proof.
  intros Hm He He'. unfold binary_round_aux.
  unfold shr_fexp at 1. rewrite (Zdigits2_54 m Hm).
  replace (fexp 53 1024 (54 + e) - e) with 1 by (unfold fexp, emin; lia).
  cbn [shr iter_pos]. rewrite shr_1_record by lia. cbn [shr_m].
  assert (Hh : 2 ^ 52 <= m / 2 < 2 ^ 53).
  { split.
    - apply Z.div_le_lower_bound; lia.
    - apply Z.div_lt_upper_bound; lia. }
  apply round53_final; try lia.
  match goal with |- _ <= round_nearest_even ?a ?b <= _ =>
    destruct (rne_bounds a b) as [-> | ->]; lia end.
Qed.

Lemma mul_le_r (a b c : Z) : 0 <= c -> a <= b -> a * c <= b * c.
Proof. intros. now apply Z.mul_le_mono_nonneg_r. Qed.

Lemma rne_threshold (T q rem my N : Z) :
  Z.even T = true -> 0 < my -> N = q * my + rem -> 0 <= rem < my ->
  T <= round_nearest_even q (new_location my rem) <-> (2 * T - 1) * my <= 2 * N.
Proof.
  intros HT Hmy HN Hrem.
  destruct (Z_le_gt_dec T q) as [Hq|Hq].
  - split; intros _.
    + pose proof (mul_le_r T q my ltac:(lia) Hq). lia.
    + destruct (rne_bounds q (new_location my rem)) as [-> | ->]; lia.
  - destruct (Z.eq_dec q (T - 1)) as [->|Hne].
    + assert (Hodd : Z.even (T - 1) = false).
      { rewrite Z.even_sub, HT. reflexivity. }
      replace ((2 * T - 1) * my <= 2 * N) with ((2 * T - 1) * my <= 2 * ((T - 1) * my + rem))
        by (now rewrite HN).
      unfold new_location, new_location_even, new_location_odd.
      destruct (Z.even my) eqn:Em.
      * destruct (Z.eqb_spec rem 0) as [->|Hr]; cbn [round_nearest_even]; [lia|].
        destruct (Z.compare_spec (2 * rem) my); cbn [round_nearest_even];
          rewrite ?Hodd; lia.
      * destruct (Z.eqb_spec rem 0) as [->|Hr]; cbn [round_nearest_even]; [lia|].
        destruct (Z.compare_spec (2 * rem + 1) my); cbn [round_nearest_even];
          rewrite ?Hodd; lia.
    + assert (Hq2 : q + 1 <= T - 1) by lia.
      pose proof (mul_le_r (q + 1) (T - 1) my ltac:(lia) Hq2).
      split; intros H'.
      * destruct (rne_bounds q (new_location my rem)) as [E | E]; rewrite E in H'; lia.
      * lia.
Qed.

Lemma rne_threshold_shift (T q rem my N : Z) (l : location) :
  Z.even T = true -> 0 < my -> N = q * my + rem -> 0 <= rem < my -> 0 <= q ->
  T <= round_nearest_even (q / 2)
         (loc_of_shr_record {| shr_m := q / 2; shr_r := Z.odd q; shr_s := inexact l |})
  <-> (2 * T - 1) * my <= N.
Proof.
  intros HT Hmy HN Hrem Hq0.
  pose proof (Z.div_mod q 2 ltac:(lia)) as Hdm.
  pose proof (Z.mod_pos_bound q 2 ltac:(lia)) as Hb.
  set (h := q / 2) in *.
  assert (Hoddq : Z.odd q = (q mod 2 =? 1)).
  { rewrite Zmod_odd. destruct (Z.odd q); reflexivity. }
  destruct (Z_le_gt_dec T h) as [Hh|Hh].
  - split; intros _.
    + assert (2 * T <= q) by lia.
      pose proof (mul_le_r (2 * T) q my ltac:(lia) H). lia.
    + match goal with |- _ <= round_nearest_even ?a ?b =>
        destruct (rne_bounds a b) as [-> | ->]; lia end.
  - destruct (Z.eq_dec h (T - 1)) as [Eh|Hne].
    + assert (Hodd : Z.even h = false).
      { rewrite Eh, Z.even_sub, HT. reflexivity. }
      rewrite Hoddq.
      destruct (Z.eqb_spec (q mod 2) 1) as [E1|E1].
      * assert (Eq : q = 2 * T - 1) by lia.
        replace ((2 * T - 1) * my <= N) with ((2 * T - 1) * my <= (2 * T - 1) * my + rem)
          by (rewrite HN, Eq; reflexivity).
        destruct (inexact l); cbn [loc_of_shr_record round_nearest_even];
          rewrite ?Hodd; lia.
      * assert (Eq : q = 2 * T - 2) by lia.
        replace ((2 * T - 1) * my <= N) with ((2 * T - 1) * my <= (2 * T - 2) * my + rem)
          by (rewrite HN, Eq; reflexivity).
        destruct (inexact l); cbn [loc_of_shr_record round_nearest_even]; lia.
    + assert (Hq2 : q + 1 <= 2 * T - 2) by lia.
      pose proof (mul_le_r (q + 1) (2 * T - 2) my ltac:(lia) Hq2).
      split; intros H'.
      * match type of H' with _ <= round_nearest_even ?a ?b =>
          destruct (rne_bounds a b) as [E | E]; rewrite E in H'; lia end.
      * lia.
Qed.

Lemma threshold_value :
  ConsensusService.MINIMUM_SUBMISSIONS_THRESHOLD = S754_finite false (Z.to_pos threshold_mantissa) (-53).
Proof. reflexivity. Qed.

Lemma ge_threshold_round53 (m e : Z) :
  2 ^ 52 <= m <= 2 ^ 53 ->
  JS.ge (round53 false m e) ConsensusService.MINIMUM_SUBMISSIONS_THRESHOLD =
  if e <? -53 then false else if -53 <? e then true else threshold_mantissa <=? m.
Proof.
  intros Hm. rewrite threshold_value. unfold JS.ge, SFleb, SFcompare, round53.
  destruct (Z.ltb_spec m (2 ^ 53)) as [Hlt|Hge].
  - destruct (Z.compare_spec (-53) e) as [<-|H|H].
    + cbn [Z.ltb Z.compare].
      rewrite Pos.compare_cont_spec. cbn [Pos.switch_Eq].
      change (threshold_mantissa <=? m) with (Z.leb threshold_mantissa m).
      unfold Z.leb. replace (threshold_mantissa ?= m) with (Z.to_pos threshold_mantissa ?= Z.to_pos m)%positive.
      * destruct (Z.to_pos threshold_mantissa ?= Z.to_pos m)%positive; reflexivity.
      * rewrite <- Z2Pos.inj_compare by (unfold threshold_mantissa; lia). reflexivity.
    + destruct (Z.ltb_spec e (-53)); [lia|].
      destruct (Z.ltb_spec (-53) e); [reflexivity|lia].
    + destruct (Z.ltb_spec e (-53)); [reflexivity|lia].
  - assert (m = 2 ^ 53) by lia. subst m.
    destruct (Z.compare_spec (-53) (e + 1)) as [E|H|H].
    + assert (e = -54) by lia. subst e. reflexivity.
    + destruct (Z.ltb_spec e (-53)); [lia|].
      destruct (Z.ltb_spec (-53) e); [reflexivity|].
      assert (e = -53) by lia. subst e. reflexivity.
    + destruct (Z.ltb_spec e (-53)); [reflexivity|lia].
Qed.

Lemma of_Z_pos (c : Z) :
  0 < c < 2 ^ 53 ->
  JS.of_Z c = S754_finite false (Z.to_pos (c * 2 ^ (53 - Zdigits2 c))) (Zdigits2 c - 53)
  /\ 2 ^ 52 <= c * 2 ^ (53 - Zdigits2 c) < 2 ^ 53
  /\ 1 <= Zdigits2 c <= 53.
Proof.
  intros Hc. destruct c as [|p|p]; try lia.
  cbn [Zdigits2]. pose proof (digits2_bounds p) as Hd.
  set (d := Zpos (digits2_pos p)) in *.
  assert (Hd1 : 1 <= d <= 53).
  { split; [unfold d; lia|].
    destruct (Z_le_gt_dec d 53); [assumption|].
    assert (2 ^ 53 <= 2 ^ (d - 1)) by (apply Z.pow_le_mono_r; lia). lia. }
  assert (Hm : 2 ^ 52 <= Zpos p * 2 ^ (53 - d) < 2 ^ 53).
  { replace (2 ^ 52) with (2 ^ (d - 1) * 2 ^ (53 - d))
      by (rewrite <- Z.pow_add_r by lia; f_equal; lia).
    replace (2 ^ 53) with (2 ^ d * 2 ^ (53 - d))
      by (rewrite <- Z.pow_add_r by lia; f_equal; lia).
    assert (0 < 2 ^ (53 - d)) by (apply Z.pow_pos_nonneg; lia).
    split; [apply Z.mul_le_mono_nonneg_r; lia|apply Z.mul_lt_mono_pos_r; lia]. }
  split; [|split; assumption].
  unfold JS.of_Z, binary_normalize, binary_round, shl_align.
  fold d. replace (fexp JS.prec JS.emax (d + 0)) with (d - 53)
    by (unfold fexp, emin, JS.prec, JS.emax; lia).
  destruct (Z.eq_dec d 53) as [E|E].
  - rewrite E in *. cbn [Z.sub Z.add Z.opp Z.pos_sub].
    change (53 - 53) with 0. rewrite Z.sub_diag. cbn [Z.pow Z.pow_pos Pos.iter] .
    change (binary_round_aux JS.prec JS.emax) with (binary_round_aux 53 1024).
    rewrite bra53; [|replace (2 ^ (53 - 53)) with 1 in Hm by reflexivity; lia|lia|lia].
    cbn [round_nearest_even]. unfold round53.
    replace (Zpos p <? 2 ^ 53) with true by (symmetry; apply Z.ltb_lt; lia).
    f_equal. cbn. lia.
  - destruct (d - 53 - 0) as [|q|q] eqn:Eq; try lia.
    assert (Hq : Zpos q = 53 - d) by lia.
    change (binary_round_aux JS.prec JS.emax) with (binary_round_aux 53 1024).
    rewrite bra53.
    + cbn [round_nearest_even]. unfold round53. rewrite iter_xO, Hq.
      replace (Zpos p * 2 ^ (53 - d) <? 2 ^ 53) with true
        by (symmetry; apply Z.ltb_lt; lia).
      reflexivity.
    + rewrite iter_xO, Hq. exact Hm.
    + lia.
    + lia.
Qed.

Lemma div_normal (mx my : positive) (ex ey : Z) :
  2 ^ 52 <= Zpos mx < 2 ^ 53 -> 2 ^ 52 <= Zpos my < 2 ^ 53 ->
  -1021 <= ex - ey - 53 ->
  JS.div (S754_finite false mx ex) (S754_finite false my ey) =
  binary_round_aux 53 1024 false
    (Zpos mx * 2 ^ 53 / Zpos my) (ex - ey - 53)
    (new_location (Zpos my) ((Zpos mx * 2 ^ 53) mod Zpos my)).
Proof.
  intros Hx Hy He. unfold JS.div, SFdiv, SFdiv_core_binary.
  rewrite (Zdigits2_53 _ Hx), (Zdigits2_53 _ Hy).
  replace (Z.min (fexp JS.prec JS.emax (53 + ex - (53 + ey))) (ex - ey))
    with (ex - ey - 53) by (unfold fexp, emin, JS.prec, JS.emax; lia).
  replace (ex - ey - (ex - ey - 53)) with 53 by lia.
  rewrite Z.shiftl_mul_pow2 by lia.
  unfold Z.div, Z.modulo.
  destruct (Z.div_eucl (Zpos mx * 2 ^ 53) (Zpos my)) as [q rem].
  reflexivity.
Qed.

Lemma quotient_bounds (mx my : Z) :
  2 ^ 52 <= mx < 2 ^ 53 -> 2 ^ 52 <= my < 2 ^ 53 ->
  let q := mx * 2 ^ 53 / my in
  let rem := (mx * 2 ^ 53) mod my in
  mx * 2 ^ 53 = q * my + rem /\ 0 <= rem < my /\ 2 ^ 52 <= q < 2 ^ 54
  /\ (q < 2 ^ 53 <-> mx < my).
Proof.
  intros Hx Hy q rem.
  assert (E : mx * 2 ^ 53 = q * my + rem).
  { unfold q, rem. rewrite Z.mul_comm with (n := _ / _). apply Z.div_mod. lia. }
  assert (R : 0 <= rem < my) by (apply Z.mod_pos_bound; lia).
  split; [exact E|]. split; [exact R|].
  assert (Q1 : 2 ^ 52 <= q).
  { apply Z.div_le_lower_bound; [lia|]. 
    pose proof (mul_le_r (2 ^ 52) mx (2 ^ 53) ltac:(lia) ltac:(lia)). lia. }
  assert (Q2 : q < 2 ^ 54).
  { apply Z.div_lt_upper_bound; [lia|].
    pose proof (mul_le_r (2 ^ 52) my (2 ^ 54) ltac:(lia) ltac:(lia)). lia. }
  split; [lia|].
  split; intros H.
  - assert (q + 1 <= 2 ^ 53) by lia.
    pose proof (mul_le_r (q + 1) (2 ^ 53) my ltac:(lia) H0). lia.
  - destruct (Z_lt_ge_dec q (2 ^ 53)); [assumption|].
    pose proof (mul_le_r (2 ^ 53) q my ltac:(lia) ltac:(lia)). lia.
Qed.

(** The test [x / y >= 0.8] on normalized mantissas, [k] being the
    difference of the exponents. *)
Lemma ge_threshold_div (mx my : positive) (ex ey : Z) :
  2 ^ 52 <= Zpos mx < 2 ^ 53 -> 2 ^ 52 <= Zpos my < 2 ^ 53 ->
  -60 <= ex - ey <= 60 ->
  JS.ge (JS.div (S754_finite false mx ex) (S754_finite false my ey))
        ConsensusService.MINIMUM_SUBMISSIONS_THRESHOLD =
  if ex - ey <? -1 then false
  else if 0 <? ex - ey then true
  else if ex - ey =? 0 then 4 * Zpos my <=? 5 * Zpos mx
  else 8 * Zpos my <=? 5 * Zpos mx.
Proof.
  intros Hx Hy Hk. rewrite div_normal by lia.
  destruct (quotient_bounds _ _ Hx Hy) as (E & R & Q & QA).
  set (q := Zpos mx * 2 ^ 53 / Zpos my) in *.
  set (rem := (Zpos mx * 2 ^ 53) mod Zpos my) in *.
  set (k := ex - ey) in *.
  destruct (Z_lt_ge_dec q (2 ^ 53)) as [A|B].
  - rewrite bra53 by lia.
    rewrite ge_threshold_round53
      by (destruct (rne_bounds q (new_location (Zpos my) rem)) as [-> | ->]; lia).
    pose proof (proj1 QA A) as Hlt.
    destruct (Z.ltb_spec (k - 53) (-53)), (Z.ltb_spec (-53) (k - 53)),
             (Z.ltb_spec k (-1)), (Z.ltb_spec 0 k), (Z.eqb_spec k 0);
      try lia; try reflexivity;
      try (symmetry; apply Z.leb_gt; lia).
    pose proof (rne_threshold threshold_mantissa q rem (Zpos my) _ eq_refl ltac:(lia) E R) as T.
    unfold threshold_mantissa in *.
    destruct (Z.leb_spec 7205759403792794 (round_nearest_even q (new_location (Zpos my) rem))),
             (Z.leb_spec (4 * Zpos my) (5 * Zpos mx)); try reflexivity; exfalso; lia.
  - rewrite bra54 by lia.
    assert (Hh : 2 ^ 52 <= q / 2 < 2 ^ 53).
    { split; [apply Z.div_le_lower_bound; lia|apply Z.div_lt_upper_bound; lia]. }
    rewrite ge_threshold_round53
      by (match goal with |- _ <= round_nearest_even ?a ?b <= _ =>
            destruct (rne_bounds a b) as [-> | ->]; lia end).
    assert (Hge : Zpos my <= Zpos mx) by lia.
    destruct (Z.ltb_spec (k - 53 + 1) (-53)), (Z.ltb_spec (-53) (k - 53 + 1)),
             (Z.ltb_spec k (-1)), (Z.ltb_spec 0 k), (Z.eqb_spec k 0);
      try lia; try reflexivity;
      try (symmetry; apply Z.leb_le; lia).
    pose proof (rne_threshold_shift threshold_mantissa q rem (Zpos my) _
                  (new_location (Zpos my) rem) eq_refl ltac:(lia) E R ltac:(lia)) as T.
    unfold threshold_mantissa in *.
    match goal with |- (_ <=? ?a) = _ =>
      destruct (Z.leb_spec 7205759403792794 a),
               (Z.leb_spec (8 * Zpos my) (5 * Zpos mx)); try reflexivity; exfalso; lia
    end.
Qed.

Lemma bra_sign (sx : bool) (m e : Z) (l : location) :
  match binary_round_aux 53 1024 sx m e l with
  | S754_zero s | S754_infinity s | S754_finite s _ _ => s = sx
  | S754_nan => True
  end.
Proof.
  unfold binary_round_aux.
  destruct (shr_fexp 53 1024 m e l) as [mrs e1].
  destruct (shr_fexp 53 1024 _ e1 loc_Exact) as [mrs2 e2].
  destruct (shr_m mrs2); [reflexivity| |exact I].
  destruct (e2 <=? 1024 - 53); reflexivity.
Qed.

Lemma of_Z_neg_sign (p : positive) :
  match JS.of_Z (Zneg p) with
  | S754_zero s | S754_infinity s | S754_finite s _ _ => s = true
  | S754_nan => True
  end.
Proof.
  unfold JS.of_Z, binary_normalize, binary_round.
  destruct (shl_align p 0 _) as [mz ez]. apply bra_sign.
Qed.

Lemma ge_threshold_negative (x y : JS.number) :
  match x with S754_finite false _ _ | S754_zero false => True | _ => False end ->
  match y with
  | S754_zero s | S754_infinity s | S754_finite s _ _ => s = true
  | S754_nan => True
  end ->
  JS.ge (JS.div x y) ConsensusService.MINIMUM_SUBMISSIONS_THRESHOLD = false.
Proof.
  intros Hx Hy. rewrite threshold_value. unfold JS.ge, JS.div, SFdiv.
  destruct x as [[|]| | |[|] mx ex]; try contradiction;
    destruct y as [s|s| |s my ey]; try subst s; try reflexivity.
  destruct (SFdiv_core_binary _ _ _ _ _ _) as [[mz ez] lz].
  pose proof (bra_sign true mz ez lz) as H.
  change JS.prec with 53. change JS.emax with 1024. cbn [xorb].
  destruct (binary_round_aux 53 1024 true mz ez lz) as [s|s| |s m e];
    try subst s; reflexivity.
Qed.

Lemma pow2_le (a b : Z) : 0 <= a <= b -> 2 ^ a <= 2 ^ b.
Proof. intros. apply Z.pow_le_mono_r; lia. Qed.

(** The readiness test of [checkTaskCompletion] on integers. *)
Lemma ready_iff (c r : Z) :
  0 <= c < 2 ^ 53 -> - 2 ^ 53 < r < 2 ^ 53 ->
  JS.ge (JS.div (JS.of_Z c) (JS.of_Z r)) ConsensusService.MINIMUM_SUBMISSIONS_THRESHOLD =
  if r =? 0 then 0 <? c else (0 <? r) && (4 * r <=? 5 * c).
Proof.
  intros Hc Hr.
  destruct (Z.eqb_spec r 0) as [->|Hr0].
  { destruct c as [|p|p]; try lia; [reflexivity|].
    destruct (of_Z_pos (Zpos p) ltac:(lia)) as (-> & _ & _). reflexivity. }
  destruct (Z.ltb_spec 0 r) as [Hpos|Hneg]; cbn [andb].
  2:{ destruct r as [|q|q]; try lia.
      apply ge_threshold_negative; [|apply of_Z_neg_sign].
      destruct c as [|p|p]; try lia; [exact I|].
      destruct (of_Z_pos (Zpos p) ltac:(lia)) as (-> & _ & _). exact I. }
  destruct (Z.eq_dec c 0) as [->|Hc0].
  { destruct (of_Z_pos r ltac:(lia)) as (-> & _ & _).
    symmetry. apply Z.leb_gt. lia. }
  destruct (of_Z_pos c ltac:(lia)) as (-> & Hmx & Hdc).
  destruct (of_Z_pos r ltac:(lia)) as (-> & Hmy & Hdr).
  assert (Bc : 2 ^ (Zdigits2 c - 1) <= c < 2 ^ Zdigits2 c).
  { destruct c as [|p|p]; try lia. apply digits2_bounds. }
  assert (Br : 2 ^ (Zdigits2 r - 1) <= r < 2 ^ Zdigits2 r).
  { destruct r as [|p|p]; try lia. apply digits2_bounds. }
  set (dc := Zdigits2 c) in *. set (dr := Zdigits2 r) in *.
  rewrite ge_threshold_div by (rewrite ?Z2Pos.id by lia; lia).
  rewrite !Z2Pos.id by lia.
  replace (dc - 53 - (dr - 53)) with (dc - dr) by lia.
  destruct (Z.ltb_spec (dc - dr) (-1)) as [K|K].
  { symmetry. apply Z.leb_gt.
    pose proof (pow2_le (dc + 1) (dr - 1) ltac:(lia)).
    replace (2 ^ (dc + 1)) with (2 * 2 ^ dc) in H
      by (rewrite Z.pow_add_r by lia; lia).
    lia. }
  destruct (Z.ltb_spec 0 (dc - dr)) as [K2|K2].
  { symmetry. apply Z.leb_le.
    pose proof (pow2_le dr (dc - 1) ltac:(lia)). lia. }
  destruct (Z.eqb_spec (dc - dr) 0) as [K3|K3].
  - replace dr with dc in * by lia.
    assert (0 < 2 ^ (53 - dc)) by (apply Z.pow_pos_nonneg; lia).
    destruct (Z.leb_spec (4 * (r * 2 ^ (53 - dc))) (5 * (c * 2 ^ (53 - dc)))),
             (Z.leb_spec (4 * r) (5 * c)); try reflexivity; exfalso; nia.
  - replace (53 - dc) with (53 - dr + 1) by lia.
    rewrite Z.pow_add_r by lia. change (2 ^ 1) with 2.
    assert (0 < 2 ^ (53 - dr)) by (apply Z.pow_pos_nonneg; lia).
    destruct (Z.leb_spec (8 * (r * 2 ^ (53 - dr))) (5 * (c * (2 ^ (53 - dr) * 2)))),
             (Z.leb_spec (4 * r) (5 * c)); try reflexivity; exfalso; nia.
Qed.

Lemma ratio_ge_08 (c r : Z) :
  0 <= c -> r <> 0 ->
  (Qle (8 # 10) (inject_Z c / inject_Z r) <-> 0 < r /\ 4 * r <= 5 * c).
Proof.
  intros Hc Hr. unfold Qle, Qdiv, Qmult, Qinv, inject_Z.
  destruct r as [|p|p]; [contradiction| |]; cbn [Qnum Qden];
    rewrite Pos.mul_1_l; lia.
Qed.

(* ===================================================================== *)
(** * Readiness *)
(* ===================================================================== *)

Lemma filter_length_le {A} (f : A -> bool) (l : list A) :
  (List.length (filter f l) <= List.length l)%nat.
Proof.
  induction l as [|x l IH]; cbn; [lia|]. destruct (f x); cbn; lia.
Qed.

(** C6: for a ledger with fewer than 2^53 submissions and required review
    counts below 2^53 in absolute value (both are 32-bit integers in the
    store), [checkTaskCompletion] fails with "Task not found" when the task
    does not exist, and otherwise returns the two counts and
    [isReadyForConsensus], which is true exactly when the quotient of the
    current by the required number of submissions, as a rational number,
    is at least 8/10: that is, when 4 * required <= 5 * current with a
    positive requirement.  The rounding of the binary64 division and of
    the constant 0.8 never changes the outcome.  (For a requirement of 0
    the quotient is Infinity or NaN, and the task is ready when it has a
    submission.) *)
Theorem readiness_is_the_80_percent_rule (taskId : N) (w : World) :
  Z.of_nat (List.length (Db.submissions (db w))) < 2 ^ 53 ->
  Forall (fun t => - 2 ^ 53 < Task.reviewCount t < 2 ^ 53) (Db.tasks (db w)) ->
  match load taskId (db w) with
  | None => checkTaskCompletion taskId w = (Throw (Error "Task not found"), w)
  | Some t =>
      let current := Array.length (submissions t) in
      let required := Task.reviewCount (task t) in
      exists st,
        checkTaskCompletion taskId w = (Ok st, w)
        /\ currentSubmissions st = current
        /\ requiredSubmissions st = required
        /\ isReadyForConsensus st =
             (if required =? 0 then 0 <? current
              else (0 <? required) && (4 * required <=? 5 * current))
        /\ (required <> 0 ->
            (isReadyForConsensus st = true <->
             Qle (8 # 10) (inject_Z current / inject_Z required)))
  end.
Proof.
  intros Hsubs Htasks. rewrite checkTaskCompletion_run.
  destruct (load taskId (db w)) as [t|] eqn:Hl; [|reflexivity].
  cbn zeta. eexists. split; [reflexivity|].
  split; [reflexivity|]. split; [reflexivity|].
  assert (Hc : 0 <= Array.length (submissions t) < 2 ^ 53).
  { unfold load in Hl.
    destruct (Prisma.lookup Task.id taskId (Db.tasks (db w))); [|discriminate].
    injection Hl as <-. cbn [submissions]. unfold Array.length.
    pose proof (filter_length_le
                  (fun s => N.eqb (Submission.task_id s) taskId)
                  (Db.submissions (db w))).
    lia. }
  assert (Hr : - 2 ^ 53 < Task.reviewCount (task t) < 2 ^ 53).
  { unfold load in Hl.
    destruct (Prisma.lookup Task.id taskId (Db.tasks (db w))) as [t0|] eqn:E;
      [|discriminate].
    injection Hl as <-. cbn [task].
    apply lookup_key in E. destruct E as [_ E].
    rewrite Forall_forall in Htasks. now apply Htasks. }
  assert (E : isReadyForConsensus (ConsensusService.taskStatus taskId t) =
              (if Task.reviewCount (task t) =? 0
               then 0 <? Array.length (submissions t)
               else (0 <? Task.reviewCount (task t))
                    && (4 * Task.reviewCount (task t)
                        <=? 5 * Array.length (submissions t)))).
  { cbn [isReadyForConsensus ConsensusService.taskStatus].
    now apply ready_iff. }
  split; [exact E|].
  intros Hne. rewrite E, ratio_ge_08 by lia.
  destruct (Z.eqb_spec (Task.reviewCount (task t)) 0); [contradiction|].
  rewrite andb_true_iff, Z.ltb_lt, Z.leb_le. reflexivity.
Qed.

(** The sample task: 2 submissions for 2 required reviews. *)
Lemma readiness_is_the_80_percent_rule_sample :
  exists st,
    checkTaskCompletion 1 sample_world = (Ok st, sample_world)
    /\ currentSubmissions st = 2
    /\ requiredSubmissions st = 2
    /\ isReadyForConsensus st = true
    /\ (2 <> 0 ->
        (isReadyForConsensus st = true <-> Qle (8 # 10) (inject_Z 2 / inject_Z 2))).
Proof.
  apply (readiness_is_the_80_percent_rule 1 sample_world).
  - simpl. lia.
  - repeat constructor; simpl; lia.
Defined.

(* ===================================================================== *)
(** * Vote counts and percentages *)
(* ===================================================================== *)

Lemma sum_Z_perm (l l' : list Z) : Permutation l l' -> sum_Z l = sum_Z l'.
Proof.
  unfold sum_Z. induction 1; cbn; lia.
Qed.

Lemma sum_exact_percentages (total : Z) (rs : list RankedResult) :
  total <> 0 ->
  Qeq (sum_Q (map (exact_percentage total) rs))
      (inject_Z (sum_Z (map count rs)) / inject_Z total * inject_Z 100).
Proof.
  intros Ht.
  assert (Hq : ~ Qeq (inject_Z total) 0).
  { unfold Qeq, inject_Z. cbn. lia. }
  induction rs as [|r rs IH].
  - cbn. field. exact Hq.
  - cbn [map sum_Q fold_right sum_Z].
    fold (sum_Q (map (exact_percentage total) rs)).
    fold (sum_Z (map count rs)).
    rewrite IH. unfold exact_percentage. rewrite inject_Z_plus. field. exact Hq.
Qed.

(** The votes counted are the submissions, when each votes for an option
    of the task. *)
Lemma sortedResults_sum (t : LoadedTask) :
  (forall s, In s (submissions t) ->
             In (Submission.option_id s) (map Option.id (options t))) ->
  sum_Z (map count (ConsensusService.sortedResults t)) =
  Array.length (submissions t).
Proof.
  intros Hvalid.
  rewrite (sortedResults_ranked (Array.length (submissions t)) t eq_refl).
  rewrite ranked_from_counts.
  rewrite (sum_Z_perm _ _ (Permutation_map vc_count (sort_perm _ _))).
  rewrite tallyVotes_sum.
  - rewrite initVoteCounts_sum. reflexivity.
  - apply initVoteCounts_ascending.
  - intros s Hs. apply initVoteCounts_keys. now apply Hvalid.
Qed.

Lemma ranked_from_percentage (total : Z) (l : list VoteCount) (i : Z) :
  Forall (fun r => percentage r =
                   JS.mul (JS.div (JS.of_Z (count r)) (JS.of_Z total)) (JS.of_Z 100))
         (ranked_from total i l).
Proof.
  revert i. induction l as [|x l IH]; intros i; [constructor|].
  rewrite ranked_from_cons. constructor; [reflexivity|apply IH].
Qed.

(* ===================================================================== *)
(** * Binary64 arithmetic: the error of a percentage *)
(* ===================================================================== *)

Lemma iter_pos_nat {A} (f : A -> A) (p : positive) (x : A) :
  iter_pos f p x = Nat.iter (Pos.to_nat p) f x.
Proof.
  revert x. induction p as [p IH|p IH|]; intros x; cbn [iter_pos].
  - rewrite !IH, Pos2Nat.inj_xI. rewrite <- Nat.iter_add.
    change (f x) with (Nat.iter 1 f x). rewrite <- Nat.iter_add.
    f_equal. lia.
  - rewrite !IH, Pos2Nat.inj_xO. rewrite <- Nat.iter_add. f_equal. lia.
  - reflexivity.
Qed.

Lemma shr_1_spec (m : Z) (r s : bool) :
  0 <= m ->
  shr_1 {| shr_m := m; shr_r := r; shr_s := s |} =
  {| shr_m := m / 2; shr_r := Z.odd m; shr_s := r || s |}.
Proof.
  intros Hm. destruct m as [|p|p]; try lia; [reflexivity|].
  destruct p as [p|p|]; cbn [shr_1]; f_equal; try reflexivity.
  - rewrite Pos2Z.inj_xI, Z.mul_comm, Z.div_add_l by lia. reflexivity.
  - rewrite Pos2Z.inj_xO, Z.mul_comm, Z.div_mul by lia. reflexivity.
Qed.

(** [n + 1] shifts of an exact mantissa. *)
Lemma shr_iter (M : Z) (n : nat) :
  0 <= M ->
  Nat.iter (S n) shr_1 {| shr_m := M; shr_r := false; shr_s := false |} =
  {| shr_m := M / 2 ^ Z.of_nat (S n);
     shr_r := Z.odd (M / 2 ^ Z.of_nat n);
     shr_s := negb (M mod 2 ^ Z.of_nat n =? 0) |}.
Proof.
  intros HM. induction n as [|n IH].
  - cbn [Nat.iter]. rewrite shr_1_spec by lia.
    change (2 ^ Z.of_nat 0) with 1. change (2 ^ Z.of_nat 1) with 2.
    rewrite Z.div_1_r, Z.mod_1_r. reflexivity.
  - change (Nat.iter (S (S n)) shr_1 ?x) with (shr_1 (Nat.iter (S n) shr_1 x)).
    rewrite IH.
    assert (Hp : 0 < 2 ^ Z.of_nat n) by (apply Z.pow_pos_nonneg; lia).
    assert (E1 : 2 ^ Z.of_nat (S n) = 2 ^ Z.of_nat n * 2)
      by (rewrite Nat2Z.inj_succ, Z.pow_succ_r by lia; lia).
    assert (E2 : 2 ^ Z.of_nat (S (S n)) = 2 ^ Z.of_nat (S n) * 2)
      by (rewrite (Nat2Z.inj_succ (S n)), Z.pow_succ_r by lia; lia).
    rewrite shr_1_spec by (apply Z.div_pos; lia).
    f_equal.
    + rewrite E2, Z.div_div by lia. reflexivity.
    + (* sticky *)
      rewrite E1.
      pose proof (Z.div_mod M (2 ^ Z.of_nat n) ltac:(lia)) as D1.
      pose proof (Z.mod_pos_bound M (2 ^ Z.of_nat n) Hp) as B1.
      set (h := M / 2 ^ Z.of_nat n) in *. set (lo := M mod 2 ^ Z.of_nat n) in *.
      pose proof (Z.div_mod h 2 ltac:(lia)) as D2.
      pose proof (Z.mod_pos_bound h 2 ltac:(lia)) as B2.
      assert (Hodd : Z.odd h = (h mod 2 =? 1)).
      { rewrite Zmod_odd. destruct (Z.odd h); reflexivity. }
      assert (Hm : M mod (2 ^ Z.of_nat n * 2) = lo + 2 ^ Z.of_nat n * (h mod 2)).
      { symmetry. apply Z.mod_unique_pos with (q := h / 2); [nia|]. 
        rewrite D1 at 1. rewrite D2 at 1. ring. }
      rewrite Hm, Hodd.
      destruct (Z.eqb_spec (h mod 2) 1) as [E|E];
        destruct (Z.eqb_spec lo 0) as [E'|E']; cbn [orb negb];
        symmetry; try (apply negb_true_iff; apply Z.eqb_neq; nia);
        try (apply negb_false_iff; apply Z.eqb_eq; nia).
Qed.

Lemma Zdigits2_bounds (M : Z) :
  0 < M -> 2 ^ (Zdigits2 M - 1) <= M < 2 ^ Zdigits2 M.
Proof.
  intros H. destruct M as [|p|p]; try lia. apply digits2_bounds.
Qed.

Lemma Zdigits2_unique (M d : Z) :
  0 < M -> 2 ^ (d - 1) <= M < 2 ^ d -> Zdigits2 M = d.
Proof.
  intros H B. destruct M as [|p|p]; try lia. now apply digits2_unique.
Qed.

Lemma bra_shift (sx : bool) (M e n : Z) :
  0 < n -> 2 ^ (52 + n) <= M < 2 ^ (53 + n) ->
  -1074 <= e -> e + n + 1 <= 971 ->
  binary_round_aux 53 1024 sx M e loc_Exact =
  round53 sx (round_nearest_even (M / 2 ^ n) (shifted_location M n)) (e + n).
Proof.
  intros Hn HM He He'.
  assert (HM0 : 0 < M).
  { assert (0 < 2 ^ (52 + n)) by (apply Z.pow_pos_nonneg; lia). lia. }
  assert (Hd : Zdigits2 M = 53 + n).
  { apply Zdigits2_unique; [exact HM0|].
    replace (53 + n - 1) with (52 + n) by lia. exact HM. }
  unfold binary_round_aux. unfold shr_fexp at 1. rewrite Hd.
  replace (fexp 53 1024 (53 + n + e) - e) with n by (unfold fexp, emin; lia).
  destruct n as [|p|p]; try lia.
  cbn [shr shr_record_of_loc]. rewrite iter_pos_nat.
  destruct (Pos2Nat.is_succ p) as [k Hk]. rewrite Hk.
  rewrite shr_iter by lia.
  assert (Ek : Z.of_nat (S k) = Zpos p) by (rewrite <- Hk; apply positive_nat_Z).
  assert (Ek' : Z.of_nat k = Zpos p - 1) by lia.
  rewrite Ek, Ek'. cbn [shr_m].
  fold (shifted_location M (Zpos p)).
  assert (Hh : 2 ^ 52 <= M / 2 ^ Zpos p < 2 ^ 53).
  { assert (0 < 2 ^ Zpos p) by (apply Z.pow_pos_nonneg; lia).
    rewrite !Z.pow_add_r in HM by lia.
    split.
    - apply Z.div_le_lower_bound; lia.
    - apply Z.div_lt_upper_bound; lia. }
  apply round53_final; try lia.
  destruct (rne_bounds (M / 2 ^ Zpos p) (shifted_location M (Zpos p))) as [-> | ->]; lia.
Qed.

(** Rounding after a shift is within half a unit of the last place. *)
Lemma rne_shift_error (M n : Z) :
  0 < n -> 0 <= M ->
  let m := round_nearest_even (M / 2 ^ n) (shifted_location M n) in
  2 * Z.abs (m * 2 ^ n - M) <= 2 ^ n.
Proof.
  intros Hn HM m. subst m. unfold shifted_location.
  assert (Hp : 0 < 2 ^ (n - 1)) by (apply Z.pow_pos_nonneg; lia).
  assert (E : 2 ^ n = 2 ^ (n - 1) * 2).
  { replace n with (n - 1 + 1) at 1 by lia. rewrite Z.pow_add_r by lia. reflexivity. }
  pose proof (Z.div_mod M (2 ^ (n - 1)) ltac:(lia)) as D1.
  pose proof (Z.mod_pos_bound M (2 ^ (n - 1)) Hp) as B1.
  rewrite E, <- Z.div_div by lia.
  set (h := M / 2 ^ (n - 1)) in *. set (lo := M mod 2 ^ (n - 1)) in *.
  pose proof (Z.div_mod h 2 ltac:(lia)) as D2.
  pose proof (Z.mod_pos_bound h 2 ltac:(lia)) as B2.
  assert (Hodd : Z.odd h = (h mod 2 =? 1)).
  { rewrite Zmod_odd. destruct (Z.odd h); reflexivity. }
  rewrite Hodd.
  destruct (Z.eqb_spec (h mod 2) 1) as [E1|E1];
    destruct (Z.eqb_spec lo 0) as [E0|E0];
    cbn [negb loc_of_shr_record round_nearest_even];
    try destruct (Z.even (h / 2)); nia.
Qed.

Lemma new_location_inexact (my rem : Z) :
  inexact (new_location my rem) = negb (rem =? 0).
Proof.
  unfold new_location, new_location_even, new_location_odd.
  destruct (Z.even my); destruct (rem =? 0); reflexivity.
Qed.

Lemma rne_error (q rem my N : Z) :
  0 < my -> N = q * my + rem -> 0 <= rem < my ->
  2 * Z.abs (round_nearest_even q (new_location my rem) * my - N) <= my.
Proof.
  intros Hmy HN Hrem. subst N.
  unfold new_location, new_location_even, new_location_odd.
  destruct (Z.even my) eqn:Em.
  - destruct (Z.eqb_spec rem 0) as [->|Hr]; cbn [round_nearest_even]; [lia|].
    destruct (Z.compare_spec (2 * rem) my); cbn [round_nearest_even];
      try destruct (Z.even q); lia.
  - destruct (Z.eqb_spec rem 0) as [->|Hr]; cbn [round_nearest_even]; [lia|].
    destruct (Z.compare_spec (2 * rem + 1) my); cbn [round_nearest_even];
      try destruct (Z.even q); lia.
Qed.

Lemma rne_error_shift (q rem my N : Z) :
  0 < my -> N = q * my + rem -> 0 <= rem < my -> 0 <= q ->
  Z.abs (round_nearest_even (q / 2)
           (loc_of_shr_record
              {| shr_m := q / 2; shr_r := Z.odd q;
                 shr_s := inexact (new_location my rem) |}) * (2 * my) - N) <= my.
Proof.
  intros Hmy HN Hrem Hq. subst N. rewrite new_location_inexact.
  pose proof (Z.div_mod q 2 ltac:(lia)) as D.
  pose proof (Z.mod_pos_bound q 2 ltac:(lia)) as B.
  assert (Hodd : Z.odd q = (q mod 2 =? 1)).
  { rewrite Zmod_odd. destruct (Z.odd q); reflexivity. }
  rewrite Hodd. set (h := q / 2) in *.
  destruct (Z.eqb_spec (q mod 2) 1) as [E1|E1];
    destruct (Z.eqb_spec rem 0) as [E0|E0];
    cbn [negb loc_of_shr_record round_nearest_even];
    try destruct (Z.even h); nia.
Qed.

(** The quotient of two integers [0 < c <= T < 2^53]: a 53-bit mantissa
    [m] and an exponent [E <= -52], with [m * 2^E] within half a unit of
    the last place of [c / T]. *)
Lemma div_error (c T : Z) :
  0 < c <= T -> T < 2 ^ 53 ->
  exists m E,
    JS.div (JS.of_Z c) (JS.of_Z T) = round53 false m E
    /\ 2 ^ 52 <= m <= 2 ^ 53
    /\ -106 <= E <= -52
    /\ 2 * Z.abs (m * T - c * 2 ^ (- E)) <= T
    /\ 2 ^ 52 * T <= c * 2 ^ (- E).
Proof.
  intros Hc HT.
  destruct (of_Z_pos c ltac:(lia)) as (-> & Hmx & Hdc).
  destruct (of_Z_pos T ltac:(lia)) as (-> & Hmy & Hdr).
  pose proof (Zdigits2_bounds c ltac:(lia)) as Bc.
  pose proof (Zdigits2_bounds T ltac:(lia)) as Br.
  set (dc := Zdigits2 c) in *. set (dr := Zdigits2 T) in *.
  assert (Hk : dc <= dr).
  { destruct (Z_le_gt_dec dc dr); [assumption|].
    pose proof (pow2_le dr (dc - 1) ltac:(lia)). lia. }
  set (sc := 2 ^ (53 - dc)) in *. set (sr := 2 ^ (53 - dr)) in *.
  assert (Hsc : 0 < sc) by (apply Z.pow_pos_nonneg; lia).
  assert (Hsr : 0 < sr) by (apply Z.pow_pos_nonneg; lia).
  rewrite div_normal by (rewrite ?Z2Pos.id by lia; lia).
  rewrite !Z2Pos.id by lia.
  destruct (quotient_bounds (c * sc) (T * sr) Hmx Hmy) as (E & R & Q & QA).
  set (q := c * sc * 2 ^ 53 / (T * sr)) in *.
  set (rem := (c * sc * 2 ^ 53) mod (T * sr)) in *.
  replace (dc - 53 - (dr - 53) - 53) with (dc - dr - 53) by lia.
  destruct (Z_lt_ge_dec q (2 ^ 53)) as [A|B].
  - rewrite bra53 by lia.
    exists (round_nearest_even q (new_location (T * sr) rem)), (dc - dr - 53).
    split; [reflexivity|].
    split; [destruct (rne_bounds q (new_location (T * sr) rem)) as [-> | ->]; lia|].
    split; [lia|].
    pose proof (rne_error q rem (T * sr) _ ltac:(lia) E R) as Herr.
    set (m := round_nearest_even q (new_location (T * sr) rem)) in *.
    replace (- (dc - dr - 53)) with (53 + dr - dc) by lia.
    set (W := 2 ^ (53 + dr - dc)).
    assert (HW : W * sr = sc * 2 ^ 53).
    { unfold W, sr, sc. rewrite <- !Z.pow_add_r by lia. f_equal. lia. }
    assert (HN : c * sc * 2 ^ 53 = c * W * sr) by (rewrite <- Z.mul_assoc, <- HW; ring).
    rewrite HN in Herr, E.
    replace (m * (T * sr) - c * W * sr) with ((m * T - c * W) * sr) in Herr by ring.
    rewrite Z.abs_mul, (Z.abs_eq sr) in Herr by lia.
    split; [nia|].
    pose proof (mul_le_r (2 ^ 52) q (T * sr) ltac:(lia) ltac:(lia)). nia.
  - rewrite bra54 by lia.
    match goal with |- context [round53 false ?a ?b] => exists a, b end.
    split; [reflexivity|].
    assert (Hh : 2 ^ 52 <= q / 2 < 2 ^ 53).
    { split; [apply Z.div_le_lower_bound; lia|apply Z.div_lt_upper_bound; lia]. }
    split; [match goal with |- _ <= round_nearest_even ?a ?b <= _ =>
              destruct (rne_bounds a b) as [-> | ->]; lia end|].
    split; [lia|].
    pose proof (rne_error_shift q rem (T * sr) _ ltac:(lia) E R ltac:(lia)) as Herr.
    match type of Herr with Z.abs (?a * _ - _) <= _ => set (m := a) in * end.
    replace (- (dc - dr - 53 + 1)) with (52 + dr - dc) by lia.
    set (W := 2 ^ (52 + dr - dc)).
    assert (HW : 2 * W * sr = sc * 2 ^ 53).
    { unfold W, sr, sc. change 2 with (2 ^ 1) at 1.
      rewrite <- !Z.pow_add_r by lia. f_equal. lia. }
    assert (HN : c * sc * 2 ^ 53 = 2 * c * W * sr).
    { replace (2 * c * W * sr) with (c * (2 * W * sr)) by ring. rewrite HW. ring. }
    rewrite HN in Herr, E.
    replace (m * (2 * (T * sr)) - 2 * c * W * sr) with ((m * T - c * W) * (2 * sr))
      in Herr by ring.
    rewrite Z.abs_mul, (Z.abs_eq (2 * sr)) in Herr by lia.
    split; [nia|].
    pose proof (mul_le_r (2 ^ 53) q (T * sr) ltac:(lia) ltac:(lia)). nia.
Qed.

Lemma of_Z_100 : JS.of_Z 100 = S754_finite false 7036874417766400 (-46).
Proof. reflexivity. Qed.

Lemma mul_normal (mx my : positive) (ex ey : Z) :
  JS.mul (S754_finite false mx ex) (S754_finite false my ey) =
  binary_round_aux 53 1024 false (Zpos mx * Zpos my) (ex + ey) loc_Exact.
Proof. reflexivity. Qed.

Lemma mul100_normal (m E : Z) :
  2 ^ 52 <= m < 2 ^ 53 -> -107 <= E <= -51 ->
  exists m2 E2,
    JS.mul (S754_finite false (Z.to_pos m) E) (JS.of_Z 100) = round53 false m2 E2
    /\ 2 ^ 52 <= m2 <= 2 ^ 53
    /\ -101 <= E2 <= -44
    /\ 2 ^ 53 * Z.abs (m2 * 2 ^ (- E) - 100 * m * 2 ^ (- E2)) <= 100 * m * 2 ^ (- E2).
Proof.
  intros Hm HE. rewrite of_Z_100, mul_normal, Z2Pos.id by lia.
  set (P := m * 7036874417766400).
  assert (HP : 100 * 2 ^ 98 <= P < 100 * 2 ^ 99) by (unfold P; lia).
  assert (Hn : exists n, (n = 52 \/ n = 53) /\ 2 ^ (52 + n) <= P < 2 ^ (53 + n)).
  { destruct (Z_lt_ge_dec P (2 ^ 105)).
    - exists 52. split; [now left|]. cbn. cbn in HP. lia.
    - exists 53. split; [now right|]. cbn. cbn in HP. lia. }
  destruct Hn as (n & Hn & HPn).
  rewrite (bra_shift false P (E + -46) n) by lia.
  set (m2 := round_nearest_even (P / 2 ^ n) (shifted_location P n)).
  exists m2, (E + -46 + n).
  split; [reflexivity|].
  assert (Hp : 0 < 2 ^ n) by (apply Z.pow_pos_nonneg; lia).
  pose proof (rne_shift_error P n ltac:(lia) ltac:(lia)) as Herr.
  cbn zeta in Herr. fold m2 in Herr.
  assert (Hh : 2 ^ 52 <= P / 2 ^ n < 2 ^ 53).
  { rewrite !Z.pow_add_r in HPn by lia.
    split; [apply Z.div_le_lower_bound; lia|apply Z.div_lt_upper_bound; lia]. }
  split; [unfold m2; destruct (rne_bounds (P / 2 ^ n) (shifted_location P n))
                       as [-> | ->]; lia|].
  split; [lia|].
  replace (- (E + -46 + n)) with (- E + 46 - n) by lia.
  set (W := 2 ^ (- E)).
  set (G := 2 ^ (- E + 46 - n)).
  assert (HW : 0 < W) by (apply Z.pow_pos_nonneg; lia).
  assert (HG : 0 < G) by (apply Z.pow_pos_nonneg; lia).
  assert (HGW : G * 2 ^ n = W * 2 ^ 46).
  { unfold G, W. rewrite <- !Z.pow_add_r by lia. f_equal. lia. }
  assert (HPG : 100 * m * G * 2 ^ n = P * W).
  { unfold P. replace (100 * m * G * 2 ^ n) with (100 * m * (G * 2 ^ n)) by ring.
    rewrite HGW. change (2 ^ 46) with 70368744177664. ring. }
  assert (Hd : (m2 * W - 100 * m * G) * 2 ^ n = (m2 * 2 ^ n - P) * W).
  { replace ((m2 * W - 100 * m * G) * 2 ^ n)
      with (m2 * 2 ^ n * W - 100 * m * G * 2 ^ n) by ring.
    rewrite HPG. ring. }
  assert (Ha : Z.abs (m2 * W - 100 * m * G) * 2 ^ n = Z.abs (m2 * 2 ^ n - P) * W).
  { rewrite <- (Z.abs_eq (2 ^ n)) at 1 by lia. rewrite <- (Z.abs_eq W) at 2 by lia.
    rewrite <- !Z.abs_mul. now rewrite Hd. }
  assert (Hlow : 2 ^ 52 * W * 2 ^ n <= 100 * m * G * 2 ^ n).
  { rewrite HPG. rewrite Z.pow_add_r in HPn by lia.
    replace (2 ^ 52 * W * 2 ^ n) with (2 ^ 52 * 2 ^ n * W) by ring.
    apply Z.mul_le_mono_nonneg_r; lia. }
  assert (H1 : 2 * Z.abs (m2 * W - 100 * m * G) * 2 ^ n <= W * 2 ^ n).
  { replace (2 * Z.abs (m2 * W - 100 * m * G) * 2 ^ n)
      with (2 * (Z.abs (m2 * W - 100 * m * G) * 2 ^ n)) by ring.
    rewrite Ha. pose proof (Z.abs_nonneg (m2 * 2 ^ n - P)).
    replace (2 * (Z.abs (m2 * 2 ^ n - P) * W))
      with ((2 * Z.abs (m2 * 2 ^ n - P)) * W) by ring.
    rewrite (Z.mul_comm W). apply Z.mul_le_mono_nonneg_r; lia. }
  apply Z.mul_le_mono_pos_r in H1; [|exact Hp].
  apply Z.mul_le_mono_pos_r in Hlow; [|exact Hp].
  lia.
Qed.

Lemma mul100_error (m E : Z) :
  2 ^ 52 <= m <= 2 ^ 53 -> -106 <= E <= -52 ->
  exists m2 E2,
    JS.mul (round53 false m E) (JS.of_Z 100) = round53 false m2 E2
    /\ 2 ^ 52 <= m2 <= 2 ^ 53
    /\ -101 <= E2 <= -44
    /\ 2 ^ 53 * Z.abs (m2 * 2 ^ (- E) - 100 * m * 2 ^ (- E2)) <= 100 * m * 2 ^ (- E2).
Proof.
  intros Hm HE. unfold round53 at 1.
  destruct (Z.ltb_spec m (2 ^ 53)) as [Hlt|Hge].
  - apply mul100_normal; lia.
  - assert (m = 2 ^ 53) by lia. subst m.
    destruct (mul100_normal (2 ^ 52) (E + 1) ltac:(lia) ltac:(lia))
      as (m2 & E2 & H1 & H2 & H3 & H4).
    exists m2, E2. split; [exact H1|]. split; [exact H2|]. split; [exact H3|].
    replace (- E) with (- (E + 1) + 1) by lia.
    rewrite Z.pow_add_r by lia. change (2 ^ 1) with 2.
    set (W := 2 ^ (- (E + 1))) in *. set (G := 2 ^ (- E2)) in *.
    replace (m2 * (W * 2) - 100 * 2 ^ 53 * G)
      with ((m2 * W - 100 * 2 ^ 52 * G) * 2) by (change (2 ^ 53) with (2 ^ 52 * 2); ring).
    rewrite Z.abs_mul. change (Z.abs 2) with 2.
    change (2 ^ 53) with (2 ^ 52 * 2) at 2. lia.
Qed.

(** The two roundings together, on integers. *)
Lemma percent_error_Z (c T m W m2 G : Z) :
  0 < c -> 0 < T -> 0 < W -> 0 < G -> 0 <= m ->
  2 * Z.abs (m * T - c * W) <= T ->
  2 ^ 52 * T <= c * W ->
  2 ^ 53 * Z.abs (m2 * W - 100 * m * G) <= 100 * m * G ->
  2 ^ 106 * Z.abs (m2 * T - 100 * c * G) <= 100 * (2 ^ 54 + 1) * (c * G).
Proof.
  intros Hc HT HW HG Hm I1 I2 I3.
  set (A := Z.abs (m2 * W - 100 * m * G)) in *.
  set (B := Z.abs (m * T - c * W)) in *.
  assert (HA : 0 <= A) by apply Z.abs_nonneg.
  assert (HB : 0 <= B) by apply Z.abs_nonneg.
  assert (Htri : W * Z.abs (m2 * T - 100 * c * G) <= T * A + 100 * G * B).
  { rewrite <- (Z.abs_eq W) at 1 by lia. rewrite <- Z.abs_mul.
    replace (W * (m2 * T - 100 * c * G))
      with (T * (m2 * W - 100 * m * G) + 100 * G * (m * T - c * W)) by ring.
    eapply Z.le_trans; [apply Z.abs_triangle|].
    rewrite (Z.abs_mul T), (Z.abs_mul (100 * G)).
    rewrite (Z.abs_eq T), (Z.abs_eq (100 * G)) by lia.
    fold A B. lia. }
  assert (HmT : m * T <= c * W + B).
  { unfold B. lia. }
  (* 2^106 * T * A <= 100 * G * (2^53 + 1) * (c * W) *)
  assert (H1 : 2 ^ 53 * (T * A) <= 100 * G * (m * T)).
  { replace (2 ^ 53 * (T * A)) with ((2 ^ 53 * A) * T) by ring.
    replace (100 * G * (m * T)) with ((100 * m * G) * T) by ring.
    apply Z.mul_le_mono_nonneg_r; lia. }
  assert (H2 : 2 ^ 53 * (m * T) <= (2 ^ 53 + 1) * (c * W)) by lia.
  assert (H3 : 2 ^ 106 * (T * A) <= 100 * G * ((2 ^ 53 + 1) * (c * W))).
  { change (2 ^ 106) with (2 ^ 53 * 2 ^ 53).
    replace (2 ^ 53 * 2 ^ 53 * (T * A)) with (2 ^ 53 * (2 ^ 53 * (T * A))) by ring.
    eapply Z.le_trans.
    - apply Z.mul_le_mono_nonneg_l; [lia|exact H1].
    - replace (2 ^ 53 * (100 * G * (m * T))) with (100 * G * (2 ^ 53 * (m * T))) by ring.
      apply Z.mul_le_mono_nonneg_l; [lia|exact H2]. }
  assert (H4 : 2 ^ 106 * (100 * G * B) <= 100 * G * (2 ^ 53 * (c * W))).
  { replace (2 ^ 106 * (100 * G * B)) with (100 * G * (2 ^ 106 * B)) by ring.
    apply Z.mul_le_mono_nonneg_l; [lia|]. lia. }
  assert (H5 : 2 ^ 106 * (W * Z.abs (m2 * T - 100 * c * G))
               <= 100 * G * ((2 ^ 54 + 1) * (c * W))).
  { eapply Z.le_trans.
    - apply Z.mul_le_mono_nonneg_l; [lia|exact Htri].
    - lia. }
  replace (2 ^ 106 * (W * Z.abs (m2 * T - 100 * c * G)))
    with ((2 ^ 106 * Z.abs (m2 * T - 100 * c * G)) * W) in H5 by ring.
  replace (100 * G * ((2 ^ 54 + 1) * (c * W)))
    with ((100 * (2 ^ 54 + 1) * (c * G)) * W) in H5 by ring.
  apply Z.mul_le_mono_pos_r in H5; [exact H5|exact HW].
Qed.

(** The percentage of [c] votes out of [T], as the code computes it, is
    the rational [m2 / 2^(-E2)], within a relative error of
    [(2^54 + 1) / 2^106] of [100 c / T]. *)
Lemma percentage_error_Z (c T : Z) :
  0 < c <= T -> T < 2 ^ 53 ->
  exists m2 E2,
    JS.mul (JS.div (JS.of_Z c) (JS.of_Z T)) (JS.of_Z 100) = round53 false m2 E2
    /\ 2 ^ 52 <= m2 <= 2 ^ 53
    /\ -101 <= E2 <= -44
    /\ 2 ^ 106 * Z.abs (m2 * T - 100 * c * 2 ^ (- E2))
       <= 100 * (2 ^ 54 + 1) * (c * 2 ^ (- E2)).
Proof.
  intros Hc HT.
  destruct (div_error c T Hc HT) as (m & E & -> & Hm & HE & I1 & I2).
  destruct (mul100_error m E Hm HE) as (m2 & E2 & -> & Hm2 & HE2 & I3).
  exists m2, E2. split; [reflexivity|]. split; [exact Hm2|]. split; [exact HE2|].
  apply (percent_error_Z c T m (2 ^ (- E)) m2 (2 ^ (- E2))); try lia;
    apply Z.pow_pos_nonneg; lia.
Qed.

Lemma to_Q_round53 (m E : Z) :
  2 ^ 52 <= m <= 2 ^ 53 -> E <= -2 ->
  Qeq (JS.to_Q (round53 false m E)) (m # Z.to_pos (2 ^ (- E))).
Proof.
  intros Hm HE. unfold round53.
  destruct (Z.ltb_spec m (2 ^ 53)) as [Hlt|Hge].
  - destruct E as [|p|p]; try lia. cbn [JS.to_Q Z.opp].
    unfold Qeq. cbn [Qnum Qden].
    assert (0 < 2 ^ Zpos p) by (apply Z.pow_pos_nonneg; lia).
    rewrite !Z2Pos.id by lia.
    rewrite Pos2Z.inj_pow. reflexivity.
  - assert (m = 2 ^ 53) by lia. subst m.
    destruct (E + 1) as [|p|p] eqn:Ep; try lia. cbn [JS.to_Q].
    unfold Qeq. cbn [Qnum Qden].
    assert (0 < 2 ^ (- E)) by (apply Z.pow_pos_nonneg; lia).
    rewrite !Z2Pos.id by lia.
    rewrite Pos2Z.inj_pow.
    replace (- E) with (Zpos p + 1) by lia.
    rewrite Z.pow_add_r by lia. change (2 ^ 1) with 2.
    change (2 ^ 53) with (2 ^ 52 * 2). ring.
Qed.



Lemma percentage_bounds (c T : Z) :
  0 <= c <= T -> 0 < T < 2 ^ 53 ->
  Qle ((percent_lo * c) # Z.to_pos (2 ^ 106 * T)) (JS.to_Q (pct T c))
  /\ Qle (JS.to_Q (pct T c)) ((percent_hi * c) # Z.to_pos (2 ^ 106 * T)).
Proof.
  intros Hc HT. unfold pct.
  destruct (Z.eq_dec c 0) as [->|Hc0].
  - destruct (of_Z_pos T ltac:(lia)) as (-> & _ & _).
    cbn. unfold Qle. cbn. lia.
  - destruct (percentage_error_Z c T ltac:(lia) ltac:(lia))
      as (m2 & E2 & -> & Hm2 & HE2 & H).
    rewrite to_Q_round53 by lia.
    set (G := 2 ^ (- E2)) in *.
    assert (HG : 0 < G) by (apply Z.pow_pos_nonneg; lia).
    unfold Qle. cbn [Qnum Qden]. rewrite !Z2Pos.id by lia.
    unfold percent_lo, percent_hi. split; lia.
Qed.

Lemma Qmake_plus_same (a b : Z) (d : positive) :
  Qeq ((a # d) + (b # d))%Q ((a + b) # d).
Proof. unfold Qeq, Qplus. cbn [Qnum Qden]. rewrite Pos2Z.inj_mul. ring. Qed.

Lemma percentages_sum_bounds (T : Z) (cs : list Z) :
  0 < T < 2 ^ 53 -> Forall (fun c => 0 <= c <= T) cs ->
  Qle ((percent_lo * sum_Z cs) # Z.to_pos (2 ^ 106 * T))
      (sum_Q (map (fun c => JS.to_Q (pct T c)) cs))
  /\ Qle (sum_Q (map (fun c => JS.to_Q (pct T c)) cs))
         ((percent_hi * sum_Z cs) # Z.to_pos (2 ^ 106 * T)).
Proof.
  intros HT H. induction H as [|c cs Hc _ IH].
  - cbn. unfold Qle. cbn. lia.
  - cbn [map sum_Q sum_Z fold_right].
    fold (sum_Q (map (fun c => JS.to_Q (pct T c)) cs)). fold (sum_Z cs).
    destruct IH as [IH1 IH2].
    destruct (percentage_bounds c T Hc HT) as [B1 B2].
    rewrite !Z.mul_add_distr_l, <- !Qmake_plus_same.
    split; apply Qplus_le_compat; assumption.
Qed.

Lemma percentages_sum_100 (T : Z) (cs : list Z) :
  0 < T < 2 ^ 53 -> Forall (fun c => 0 <= c <= T) cs -> sum_Z cs = T ->
  Qle (Qabs (sum_Q (map (fun c => JS.to_Q (pct T c)) cs) - 100)) (1 # 2 ^ 45).
Proof.
  intros HT H HS.
  destruct (percentages_sum_bounds T cs HT H) as [B1 B2].
  rewrite HS in B1, B2.
  apply Qabs_Qle_condition.
  set (S := sum_Q _) in *.
  assert (L : Qle (100 - (1 # 2 ^ 45)) ((percent_lo * T) # Z.to_pos (2 ^ 106 * T))).
  { unfold Qle, Qminus, Qplus, Qopp. cbn [Qnum Qden].
    rewrite !Z2Pos.id by lia. unfold percent_lo.
    rewrite !Pos2Z.inj_mul, !Pos2Z.inj_pow. 
    change (Z.pos 45) with 45. nia. }
  assert (U : Qle ((percent_hi * T) # Z.to_pos (2 ^ 106 * T)) (100 + (1 # 2 ^ 45))).
  { unfold Qle, Qplus. cbn [Qnum Qden].
    rewrite !Z2Pos.id by lia. unfold percent_hi.
    rewrite !Pos2Z.inj_mul, !Pos2Z.inj_pow. 
    change (Z.pos 45) with 45. nia. }
  split.
  - apply (Qplus_le_l _ _ 100). ring_simplify.
    eapply Qle_trans; [|exact B1]. eapply Qle_trans; [|exact L].
    unfold Qle; cbn; lia.
  - apply (Qplus_le_l _ _ 100). ring_simplify.
    eapply Qle_trans; [exact B2|]. eapply Qle_trans; [exact U|].
    unfold Qle; cbn; lia.
Qed.

(* ===================================================================== *)
(** * The percentages of a consensus *)
(* ===================================================================== *)

Lemma sortedResults_count (t : LoadedTask) (r : RankedResult) :
  In r (ConsensusService.sortedResults t) ->
  count r = Z.of_nat (List.length (votes_for (optionId r) (submissions t))).
Proof.
  rewrite (sortedResults_ranked (Array.length (submissions t)) t eq_refl).
  intros Hr.
  destruct (ranked_from_origin _ _ _ _ Hr) as (x & Hx & E1 & E2 & _).
  apply sort_In in Hx. unfold JSObject.values in Hx.
  apply in_map_iff in Hx. destruct Hx as ([k v] & <- & Hx).
  apply tallied_entry in Hx. cbn [snd] in *.
  destruct Hx as (H1 & H2 & _). rewrite E1, E2, H1. exact H2.
Qed.

Lemma sortedResults_voters (t : LoadedTask) (r : RankedResult) :
  In r (ConsensusService.sortedResults t) ->
  voters r = map Submission.worker_id (votes_for (optionId r) (submissions t)).
Proof.
  rewrite (sortedResults_ranked (Array.length (submissions t)) t eq_refl).
  intros Hr.
  destruct (ranked_from_origin _ _ _ _ Hr) as (x & Hx & E1 & _ & E3).
  apply sort_In in Hx. unfold JSObject.values in Hx.
  apply in_map_iff in Hx. destruct Hx as ([k v] & <- & Hx).
  apply tallied_entry in Hx. cbn [snd] in *.
  destruct Hx as (H1 & _ & H3). rewrite E1, E3, H1. exact H3.
Qed.

(* ===================================================================== *)
(** * Binary64 arithmetic: products and [Math.floor] *)
(* ===================================================================== *)



(** An integer below 2^53 is read back from the Number that holds it. *)
Lemma to_Z_of_Z (q : Z) : 0 <= q < 2 ^ 53 -> JS.to_Z (JS.of_Z q) = Some q.
Proof.
  intros Hq. destruct (Z.eq_dec q 0) as [->|Hne]; [reflexivity|].
  destruct (of_Z_pos q ltac:(lia)) as (-> & Hm & Hd).
  set (d := Zdigits2 q) in *. unfold JS.to_Z.
  assert (Hs : 0 < 2 ^ (53 - d)) by (apply Z.pow_pos_nonneg; lia).
  rewrite Z2Pos.id by lia.
  destruct (0 <=? d - 53) eqn:E.
  - apply Z.leb_le in E. assert (d = 53) by lia.
    replace (d - 53) with 0 by lia. replace (53 - d) with 0 by lia.
    rewrite Z.shiftl_0_r. f_equal. change (2 ^ 0) with 1. lia.
  - replace (- (d - 53)) with (53 - d) by lia.
    rewrite Z.shiftr_div_pow2, Z.div_mul by lia.
    rewrite Z.shiftl_mul_pow2, Z.eqb_refl by lia. reflexivity.
Qed.









Lemma sortedResults_percentage (t : LoadedTask) :
  Forall (fun r => percentage r = pct (Array.length (submissions t)) (count r))
         (ConsensusService.sortedResults t).
Proof.
  rewrite (sortedResults_ranked (Array.length (submissions t)) t eq_refl).
  apply ranked_from_percentage.
Qed.

(** C7: when every submission votes for an option of the task, and there
    is a submission (fewer than 2^53 of them), the vote counts of the
    results sum to the number of submissions; the percentage of each
    result is the double obtained by dividing its vote count by the number
    of submissions and multiplying by 100; the exact shares sum to 100,
    and the percentages, being these shares rounded twice, sum to 100
    within 2^-45. *)
Theorem votes_and_percentages (env : Env) (taskId : N) (t : LoadedTask) :
  (forall s, In s (submissions t) ->
             In (Submission.option_id s) (map Option.id (options t))) ->
  0 < Array.length (submissions t) < 2 ^ 53 ->
  let c := ConsensusService.consensusOf env taskId t in
  totalSubmissions c = Array.length (submissions t)
  /\ sum_Z (map count (results c)) = totalSubmissions c
  /\ Forall (fun r => percentage r =
                      JS.mul (JS.div (JS.of_Z (count r))
                                     (JS.of_Z (totalSubmissions c)))
                             (JS.of_Z 100))
            (results c)
  /\ Qeq (sum_Q (map (exact_percentage (totalSubmissions c)) (results c)))
         (inject_Z 100)
  /\ Qle (Qabs (sum_Q (map (fun r => JS.to_Q (percentage r)) (results c)) - 100))
         (1 # 2 ^ 45).
Proof.
  intros Hvalid HT c. subst c.
  cbn [totalSubmissions results ConsensusService.consensusOf].
  set (T := Array.length (submissions t)) in *.
  pose proof (sortedResults_sum t Hvalid) as Hsum. fold T in Hsum.
  split; [reflexivity|]. split; [exact Hsum|].
  split; [exact (sortedResults_percentage t)|].
  split.
  - rewrite sum_exact_percentages by lia. rewrite Hsum.
    assert (Hq : ~ Qeq (inject_Z T) 0) by (unfold Qeq, inject_Z; cbn; lia).
    field. exact Hq.
  - replace (map (fun r => JS.to_Q (percentage r)) (ConsensusService.sortedResults t))
      with (map (fun c => JS.to_Q (pct T c))
                (map count (ConsensusService.sortedResults t))).
    + apply percentages_sum_100; [exact HT| |exact Hsum].
      apply Forall_forall. intros c Hc.
      apply in_map_iff in Hc. destruct Hc as (r & <- & Hr).
      rewrite (sortedResults_count t r Hr).
      pose proof (filter_length_le
                    (fun s => N.eqb (Submission.option_id s) (optionId r))
                    (submissions t)) as Hle.
      unfold votes_for. subst T. unfold Array.length in *. lia.
    + rewrite map_map. apply map_ext_in. intros r Hr.
      pose proof (sortedResults_percentage t) as Hp.
      rewrite Forall_forall in Hp. rewrite (Hp r Hr). reflexivity.
Qed.

(** The sample task: two submissions, one for each option. *)
Lemma votes_and_percentages_sample :
  let c := ConsensusService.consensusOf sample_env 1 sample_loaded in
  totalSubmissions c = 2
  /\ sum_Z (map count (results c)) = totalSubmissions c
  /\ Forall (fun r => percentage r =
                      JS.mul (JS.div (JS.of_Z (count r))
                                     (JS.of_Z (totalSubmissions c)))
                             (JS.of_Z 100))
            (results c)
  /\ Qeq (sum_Q (map (exact_percentage (totalSubmissions c)) (results c)))
         (inject_Z 100)
  /\ Qle (Qabs (sum_Q (map (fun r => JS.to_Q (percentage r)) (results c)) - 100))
         (1 # 2 ^ 45).
Proof.
  apply (votes_and_percentages sample_env 1 sample_loaded).
  - intros s Hs. simpl in Hs. simpl.
    destruct Hs as [<-|[<-|[]]]; simpl; auto.
  - vm_compute. split; reflexivity.
Defined.

(* ===================================================================== *)
(** * The next task of a worker *)
(* ===================================================================== *)

Lemma insert_sorted_by {A} (key : A -> Z) (x : A) (l : list A) :
  StronglySorted (fun a b => key a <= key b) l ->
  StronglySorted (fun a b => key a <= key b)
                 (Array.insert (fun a b => key a - key b) x l).
Proof.
  induction 1 as [|y l Hs IH Hy]; cbn.
  - repeat constructor.
  - destruct (key x - key y <=? 0) eqn:E.
    + apply Z.leb_le in E. constructor; [constructor; assumption|].
      constructor; [lia|].
      eapply Forall_impl; [|exact Hy]. cbn. intros; lia.
    + apply Z.leb_gt in E. constructor; [exact IH|].
      apply Forall_forall. intros z Hz.
      apply (Permutation_in _ (insert_perm _ x l)) in Hz.
      destruct Hz as [<-|Hz]; [lia|].
      rewrite Forall_forall in Hy. now apply Hy.
Qed.

Lemma sort_sorted_by {A} (key : A -> Z) (l : list A) :
  StronglySorted (fun a b => key a <= key b)
                 (Array.sort (fun a b => key a - key b) l).
Proof.
  induction l as [|x l IH]; cbn; [constructor|].
  now apply insert_sorted_by.
Qed.

Lemma sort_head_min {A} (key : A -> Z) (l : list A) (x : A) (rest : list A) :
  Array.sort (fun a b => key a - key b) l = x :: rest ->
  In x l /\ forall y, In y l -> key x <= key y.
Proof.
  intros E. pose proof (sort_sorted_by key l) as Hs. rewrite E in Hs.
  split.
  - apply (sort_In (fun a b => key a - key b)). rewrite E. now left.
  - intros y Hy. apply (sort_In (fun a b => key a - key b)) in Hy.
    rewrite E in Hy. destruct Hy as [<-|Hy]; [lia|].
    inversion Hs as [|? ? _ Hall]; subst.
    rewrite Forall_forall in Hall. now apply Hall.
Qed.

Lemma sort_nil_inv {A} (cmp : A -> A -> Z) (l : list A) :
  Array.sort cmp l = [] -> l = [].
Proof.
  intros E. pose proof (sort_perm cmp l) as H. rewrite E in H.
  now apply Permutation_nil in H.
Qed.

Lemma has_submitted_spec (userId : N) (d : Db.t) (taskId : N) :
  has_submitted userId d taskId = true <->
  exists s, In s (Db.submissions d)
            /\ Submission.task_id s = taskId /\ Submission.worker_id s = userId.
Proof.
  unfold has_submitted. rewrite existsb_exists. split.
  - intros (s & Hs & E). apply andb_true_iff in E. destruct E as [E1 E2].
    exists s. split; [exact Hs|]. split; now apply N.eqb_eq.
  - intros (s & Hs & <- & <-). exists s. split; [exact Hs|].
    now rewrite !N.eqb_refl.
Qed.

(** What [getNextTask] returns, in terms of [available]. *)
Lemma getNextTask_run (userId : N) (w : World) :
  getNextTask userId w =
  (Ok (match Array.sort byCreatedAt (filter (available userId (db w)) (Db.tasks (db w))) with
       | t :: _ =>
           Some {| nt_task := t;
                   nt_options :=
                     filter (fun o => N.eqb (Option.task_id o) (Task.id t))
                            (Db.options (db w));
                   nt_count_submissions :=
                     Array.length
                       (filter (fun s => N.eqb (Submission.task_id s) (Task.id t))
                               (Db.submissions (db w))) |}
       | [] => None
       end), w).
Proof. reflexivity. Qed.

(** X1: [getNextTask] changes nothing and never throws.  The task it
    returns is a task of the ledger that is not done and that the worker
    has no submission for, and no such task was created earlier; it comes
    with its options and the number of its submissions.  It returns null
    exactly when every task is done or has a submission of the worker. *)
Theorem getNextTask_is_first_available (userId : N) (w : World) :
  exists r,
    getNextTask userId w = (Ok r, w)
    /\ match r with
       | Some nt =>
           In (nt_task nt) (Db.tasks (db w))
           /\ Task.done (nt_task nt) = false
           /\ (forall s, In s (Db.submissions (db w)) ->
                         Submission.task_id s = Task.id (nt_task nt) ->
                         Submission.worker_id s <> userId)
           /\ (forall t, In t (Db.tasks (db w)) ->
                         available userId (db w) t = true ->
                         Task.createdAt (nt_task nt) <= Task.createdAt t)
           /\ nt_options nt =
                filter (fun o => N.eqb (Option.task_id o) (Task.id (nt_task nt)))
                       (Db.options (db w))
           /\ nt_count_submissions nt =
                Array.length
                  (filter (fun s => N.eqb (Submission.task_id s) (Task.id (nt_task nt)))
                          (Db.submissions (db w)))
       | None =>
           forall t, In t (Db.tasks (db w)) -> available userId (db w) t = false
       end.
Proof.
  rewrite getNextTask_run. eexists. split; [reflexivity|].
  destruct (Array.sort byCreatedAt _) as [|t rest] eqn:E.
  - apply sort_nil_inv in E. intros t Ht.
    destruct (available userId (db w) t) eqn:Ha; [|reflexivity].
    assert (H : In t (filter (available userId (db w)) (Db.tasks (db w))))
      by (apply filter_In; auto).
    rewrite E in H. destruct H.
  - apply (sort_head_min Task.createdAt) in E. destruct E as [Hin Hmin].
    apply filter_In in Hin. destruct Hin as [Hin Ha].
    unfold available in Ha. apply andb_true_iff in Ha. destruct Ha as [Hd Hs].
    cbn [nt_task nt_options nt_count_submissions].
    split; [exact Hin|]. split; [now apply negb_true_iff in Hd|].
    split; [|split; [|split; reflexivity]].
    + intros s Hs1 Hs2 Hs3. apply negb_true_iff in Hs.
      assert (H : has_submitted userId (db w) (Task.id t) = true)
        by (apply has_submitted_spec; exists s; auto).
      congruence.
    + intros t' Ht' Ha'. apply Hmin. apply filter_In. auto.
Qed.

Lemma getNextTask_offer (userId : N) (w : World) (nt : NextTask) :
  getNextTask userId w = (Ok (Some nt), w) ->
  In (nt_task nt) (Db.tasks (db w))
  /\ available userId (db w) (nt_task nt) = true.
Proof.
  rewrite getNextTask_run.
  destruct (Array.sort byCreatedAt _) as [|t rest] eqn:E; [discriminate|].
  intros [= <-]. cbn [nt_task].
  apply (sort_head_min Task.createdAt) in E. destruct E as [Hin _].
  now apply filter_In in Hin.
Qed.

(* ===================================================================== *)
(** * POST /payout *)
(* ===================================================================== *)

Lemma requested_eq (amount : option Z) (worker : Worker.t) :
  match amount with
  | Some a => if a =? 0 then Worker.pending_amount worker else a
  | None => Worker.pending_amount worker
  end = requested amount worker.
Proof. reflexivity. Qed.

(** X2: a withdrawal that the payout dispatcher accepts, of an amount,
    the amount given or else the whole pending balance, that is positive
    and covered by the pending balance, and that the column of the locked
    balance can hold on top of that balance.  When the request passes the
    validation (it gives no amount, or a positive one), it is answered
    with the withdrawal, of status Success; the pending balance of the
    worker has decreased by the amount and the locked balance is what it
    was; the ledger has one more withdrawal record, of status Success,
    with the reference that the dispatcher returned and with its
    processing time; the dispatcher was called once, for the address of
    the worker and the amount.  When the amount given is 0 or negative,
    the request is answered with the status 400 by the validation, and
    nothing else happens: an amount of 0 does not stand for the whole
    pending balance. *)
Theorem payout_success_debits_pending (payout : Dispatcher)
    (workerId : N) (amount : option Z) (w : World) (worker : Worker.t)
    (sig : string) (n : Network) :
  Prisma.lookup Worker.id workerId (Db.workers (db w)) = Some worker ->
  0 < requested amount worker <= Worker.pending_amount worker ->
  Prisma.incrementable (Worker.locked_amount worker) (requested amount worker)
    = true ->
  Forall (fun r => WorkerWithdrawal.id r <> workerWithdrawal_seq (seqs w))
         (Db.workerWithdrawals (db w)) ->
  payout (Worker.address worker) (JS.of_Z (requested amount worker)) (net w)
    = (Ok sig, n) ->
  (workerPayoutInput amount = true ->
   exists w',
     post_payout payout workerId amount w =
       (Ok (json (WithdrawalBody (workerWithdrawal_seq (seqs w))
                    (requested amount worker) Success)), w')
     /\ db w' =
        Prisma.set_workers
          (Prisma.set_workerWithdrawals (db w)
             (Db.workerWithdrawals (db w)
                ++ [paid_withdrawal w workerId (requested amount worker) sig]))
          (Prisma.replace Worker.id workerId (debit (requested amount worker))
             (Db.workers (db w)))
     /\ sent w' = sent w ++ [(Worker.address worker, JS.of_Z (requested amount worker))]
     /\ net w' = n)
  /\ (workerPayoutInput amount = false ->
      post_payout payout workerId amount w = (Ok (fail 400 "Validation failed"), w)).
Proof.
  intros Hw [Hpos Hle] _ Hfresh Hpay. split; intros Hvalid.
  2:{ unfold post_payout. rewrite Hvalid. reflexivity. }
  unfold post_payout. rewrite Hvalid. cbn [negb].
  unfold try_catch, bind, transaction.
  rewrite worker_findUnique_run, Hw, requested_eq.
  set (X := requested amount worker) in *.
  destruct (lockFunds_run workerId X w worker Hw)
    as (w1 & Hlock & Hdb1 & Hc1 & Hs1 & Hn1).
  replace (X <=? 0) with false by (symmetry; apply Z.leb_gt; lia).
  replace (Worker.pending_amount worker <? X) with false
    by (symmetry; apply Z.ltb_ge; lia).
  rewrite Hlock.
  unfold sendPayout, dispatch, bind. rewrite Hn1, Hpay.
  unfold new_Date.
  rewrite workerWithdrawal_update_run.
  cbn [db seqs clock sent net WorkerWithdrawal.id].
  rewrite Hdb1. cbn [Db.workerWithdrawals Prisma.set_workerWithdrawals].
  erewrite lookup_app_fresh; [|exact Hfresh|reflexivity].
  rewrite worker_update_run.
  cbn [db seqs clock sent net with_db Db.workers
       Prisma.set_workerWithdrawals Prisma.set_workers].
  rewrite lookup_replace by reflexivity. rewrite Hw. cbn [option_map ret].
  eexists. split; [reflexivity|].
  cbn [db seqs clock sent net with_db Db.workers
       Prisma.set_workerWithdrawals Prisma.set_workers].
  rewrite Hs1, Hc1.
  erewrite replace_app_fresh; [|exact Hfresh|reflexivity].
  rewrite replace_replace by reflexivity.
  split; [|split; reflexivity].
  unfold Prisma.set_workers, Prisma.set_workerWithdrawals, paid_withdrawal.
  cbn. f_equal.
  unfold Prisma.replace. apply map_ext. intros [i a p l t c]. cbn.
  destruct (N.eqb i workerId); [|reflexivity].
  unfold debit. cbn. f_equal. lia.
Qed.

(** Worker 10 of the sample ledger withdraws the whole pending balance
    with a request that gives no amount; a request for the amount 0 is
    refused. *)
Lemma payout_success_debits_pending_sample :
  (exists w',
     post_payout accepting_dispatcher 10 None sample_world =
       (Ok (json (WithdrawalBody 1 500 Success)), w')
     /\ db w' =
        Prisma.set_workers
          (Prisma.set_workerWithdrawals (db sample_world)
             [paid_withdrawal sample_world 10 500 "signature"])
          (Prisma.replace Worker.id 10 (debit 500) (Db.workers (db sample_world)))
     /\ sent w' = [("W10"%string, JS.of_Z 500)]
     /\ net w' = 1%N)
  /\ post_payout accepting_dispatcher 10 (Some 0) sample_world =
       (Ok (fail 400 "Validation failed"), sample_world).
Proof.
  split.
  - apply (payout_success_debits_pending accepting_dispatcher 10 None sample_world
             {| Worker.id := 10; Worker.address := "W10";
                Worker.pending_amount := 500; Worker.locked_amount := 0;
                Worker.total_earned := 0; Worker.tasks_completed := 0 |}
             "signature" 1%N).
    + reflexivity.
    + simpl. lia.
    + reflexivity.
    + constructor.
    + reflexivity.
    + reflexivity.
  - apply (payout_success_debits_pending accepting_dispatcher 10 (Some 0) sample_world
             {| Worker.id := 10; Worker.address := "W10";
                Worker.pending_amount := 500; Worker.locked_amount := 0;
                Worker.total_earned := 0; Worker.tasks_completed := 0 |}
             "signature" 1%N).
    + reflexivity.
    + simpl. lia.
    + reflexivity.
    + constructor.
    + reflexivity.
    + reflexivity.
Defined.

(** X3: POST /payout never throws, whatever the dispatcher does.  A
    request that is refused (404, 400) leaves the whole state as it is.
    The dispatcher is called at most once, and then for the address of
    the worker and a positive amount that the pending balance covers.  A
    request answered with the status 200 is one whose transfer the
    dispatcher accepted. *)
Theorem payout_never_exceeds_pending (payout : Dispatcher)
    (workerId : N) (amount : option Z) (w : World) :
  exists resp w',
    post_payout payout workerId amount w = (Ok resp, w')
    /\ (status resp = 200 \/ status resp = 400 \/ status resp = 404
        \/ status resp = 500)
    /\ (status resp = 400 \/ status resp = 404 -> w' = w)
    /\ (sent w' = sent w
        \/ exists worker,
             Prisma.lookup Worker.id workerId (Db.workers (db w)) = Some worker
             /\ 0 < requested amount worker <= Worker.pending_amount worker
             /\ sent w' = sent w ++ [(Worker.address worker,
                                      JS.of_Z (requested amount worker))])
    /\ (status resp = 200 ->
        exists worker sig n,
          Prisma.lookup Worker.id workerId (Db.workers (db w)) = Some worker
          /\ payout (Worker.address worker) (JS.of_Z (requested amount worker))
                    (net w) = (Ok sig, n)).
Proof.
  unfold post_payout.
  destruct (negb (workerPayoutInput amount)).
  { do 2 eexists. split; [reflexivity|]. cbn.
    split; [auto|]. split; [auto|]. split; [auto|]. discriminate. }
  unfold try_catch, bind.
  rewrite worker_findUnique_run.
  destruct (Prisma.lookup Worker.id workerId (Db.workers (db w))) as [worker|] eqn:Hw.
  2:{ do 2 eexists. split; [reflexivity|]. cbn.
      split; [auto|]. split; [auto|]. split; [auto|]. discriminate. }
  rewrite requested_eq. set (X := requested amount worker).
  destruct (X <=? 0) eqn:Hpos.
  { do 2 eexists. split; [reflexivity|]. cbn.
    split; [auto|]. split; [auto|]. split; [auto|]. discriminate. }
  destruct (Worker.pending_amount worker <? X) eqn:Hle.
  { do 2 eexists. split; [reflexivity|]. cbn.
    split; [auto|]. split; [auto|]. split; [auto|]. discriminate. }
  apply Z.leb_gt in Hpos. apply Z.ltb_ge in Hle.
  unfold transaction.
  destruct (lockFunds_run workerId X w worker Hw)
    as (w1 & -> & Hdb1 & Hc1 & Hs1 & Hn1).
  unfold sendPayout, dispatch, bind. rewrite Hn1, Hs1.
  destruct (payout (Worker.address worker) (JS.of_Z X) (net w)) as [[sig|e] n] eqn:Hpay.
  - unfold new_Date. rewrite workerWithdrawal_update_run.
    cbn [db seqs clock sent net WorkerWithdrawal.id].
    rewrite Hdb1. cbn [Db.workerWithdrawals Prisma.set_workerWithdrawals].
    destruct (Prisma.lookup WorkerWithdrawal.id (workerWithdrawal_seq (seqs w))
                (Db.workerWithdrawals (db w) ++ _)) eqn:Hl.
    2:{ exfalso. revert Hl. now apply lookup_app_last. }
    rewrite worker_update_run.
    cbn [db with_db Db.workers Prisma.set_workerWithdrawals Prisma.set_workers].
    rewrite lookup_replace by reflexivity. rewrite Hw. cbn [ret option_map].
    do 2 eexists. split; [reflexivity|]. cbn [status json sent with_db].
    split; [auto|]. split; [intros [H|H]; discriminate H|].
    split.
    + right. exists worker. split; [reflexivity|]. split; [lia|reflexivity].
    + intros _. exists worker, sig, n. auto.
  - unfold revertWithdrawal, transaction, bind, new_Date.
    rewrite workerWithdrawal_update_run.
    cbn [db seqs clock sent net WorkerWithdrawal.id].
    rewrite Hdb1. cbn [Db.workerWithdrawals Prisma.set_workerWithdrawals].
    destruct (Prisma.lookup WorkerWithdrawal.id (workerWithdrawal_seq (seqs w))
                (Db.workerWithdrawals (db w) ++ _)) eqn:Hl.
    2:{ exfalso. revert Hl. now apply lookup_app_last. }
    rewrite worker_update_run.
    cbn [db with_db Db.workers Prisma.set_workerWithdrawals Prisma.set_workers].
    rewrite lookup_replace by reflexivity. rewrite Hw. cbn [ret option_map].
    do 2 eexists. split; [reflexivity|]. cbn [status fail sent with_db].
    split; [auto|]. split; [intros [H|H]; discriminate H|].
    split.
    + right. exists worker. split; [reflexivity|]. split; [lia|reflexivity].
    + discriminate.
Qed.

(* ===================================================================== *)
(** * POST /submission *)
(* ===================================================================== *)

(** The transaction of POST /submission: it commits the submission and
    the credit, or throws and leaves the ledger as it is. *)
Lemma submissionTransaction_run (workerId taskId selection : N)
    (baseReward : JS.number) (w : World) :
  exists r w1,
    transaction (submissionTransaction workerId taskId selection baseReward) w
      = (r, w1)
    /\ sent w1 = sent w
    /\ match r with
       | Ok row =>
           exists b,
             JS.to_Z baseReward = Some b
             /\ Prisma.lookup Worker.id workerId (Db.workers (db w)) <> None
             /\ row = new_submission w workerId taskId selection b
             /\ w1 = after_submission w workerId taskId selection b
       | Throw _ => db w1 = db w
       end.
Proof.
  unfold transaction, submissionTransaction, bind, Prisma.Int.
  destruct (JS.to_Z baseReward) as [b|]; cbn [ret throw].
  2:{ do 2 eexists. split; [reflexivity|]. split; reflexivity. }
  unfold Prisma.submission_create, bind, Prisma.next_submission_id, read_db.
  cbn [db with_seqs].
  destruct (Prisma.submission_unique taskId workerId (Db.submissions (db w))).
  2:{ cbn [throw]. do 2 eexists. split; [reflexivity|]. split; reflexivity. }
  unfold write_db, ret. rewrite worker_credit_run.
  cbn [db with_db Db.workers Prisma.set_submissions].
  destruct (Prisma.lookup Worker.id workerId (Db.workers (db w))) as [r|].
  2:{ do 2 eexists. split; [reflexivity|]. split; reflexivity. }
  destruct (Prisma.incrementable (Worker.pending_amount r) b).
  2:{ do 2 eexists. split; [reflexivity|]. split; reflexivity. }
  do 2 eexists. split; [reflexivity|]. split; [reflexivity|].
  exists b. split; [reflexivity|]. split; [discriminate|]. split; reflexivity.
Qed.

Lemma lookup_In {A} (key : A -> N) (k : N) (rows : list A) (r : A) :
  In r rows -> key r = k -> Prisma.lookup key k rows <> None.
Proof.
  intros Hin E H. unfold Prisma.lookup in H.
  apply (find_none _ _ H) in Hin. rewrite E, N.eqb_refl in Hin. discriminate.
Qed.

(** The settlement leaves the submissions alone, whatever its outcome. *)
Lemma processTaskCompletion_submissions (env : Env) (payout : Dispatcher)
    (taskId : N) (w : World) :
  Db.submissions (db (snd (processTaskCompletion env payout taskId w)))
  = Db.submissions (db w).
Proof.
  unfold processTaskCompletion, bind.
  destruct (calculateConsensus_pure env taskId w) as [r ->].
  destruct r as [c|e]; [|reflexivity].
  unfold transaction.
  pose proof (settlementTransaction_spec payout taskId c w) as H.
  destruct (settlementTransaction payout taskId c w) as [[s|e] w'].
  - cbn [snd]. tauto.
  - reflexivity.
Qed.

Lemma submissionFollowUp_run (env : Env) (payout : Dispatcher)
    (workerId taskId : N) (result : Submission.t) (w : World) :
  Prisma.lookup Task.id taskId (Db.tasks (db w)) <> None ->
  submissionFollowUp env payout workerId taskId result w =
  (Ok (json (SubmissionBody result)),
   if ready taskId (db w)
   then snd (processTaskCompletion env payout taskId w)
   else w).
Proof.
  intros Ht. unfold submissionFollowUp, bind, ready.
  rewrite checkTaskCompletion_run.
  destruct (load taskId (db w)) as [t|] eqn:Hl.
  2:{ exfalso. unfold load in Hl.
      destruct (Prisma.lookup Task.id taskId (Db.tasks (db w))); [discriminate|].
      now apply Ht. }
  cbn [isReadyForConsensus ConsensusService.taskStatus].
  destruct (JS.ge _ _).
  - unfold try_catch, bind.
    destruct (processTaskCompletion env payout taskId w) as [[s|e] w2];
      cbn [ret snd]; rewrite getNextTask_run; reflexivity.
  - cbn [ret]. rewrite getNextTask_run. reflexivity.
Qed.

Lemma post_submission_unfold (env : Env) (payout : Dispatcher)
    (workerId taskId selection : N) :
  post_submission env payout workerId taskId selection =
  try_catch
    (task <- getNextTask workerId ;;
     match task with
     | None => ret (fail 400 "Invalid task ID or task not available")
     | Some task =>
         if negb (N.eqb (Task.id (nt_task task)) taskId)
         then ret (fail 400 "Invalid task ID or task not available")
         else
           match find (fun o => N.eqb (Option.id o) selection) (nt_options task) with
           | None => ret (fail 400 "Invalid option selection")
           | Some _ =>
               result <- transaction
                           (submissionTransaction workerId taskId selection
                              (baseRewardOf (nt_task task))) ;;
               submissionFollowUp env payout workerId taskId result
           end
     end)
    (fun error =>
       match error with
       | PrismaClientKnownRequestError "P2002" =>
           ret (fail 400 "You have already submitted for this task")
       | _ => ret (fail 500 "Failed to submit evaluation")
       end).
Proof. reflexivity. Qed.

(** The [catch] clause of POST /submission answers 400 or 500. *)
Lemma submission_catch (e : Exn) (w : World) :
  exists resp,
    match e with
    | PrismaClientKnownRequestError "P2002" =>
        ret (fail 400 "You have already submitted for this task")
    | _ => ret (fail 500 "Failed to submit evaluation")
    end w = (Ok resp, w)
    /\ (status resp = 400 \/ status resp = 500).
Proof.
  destruct e as [m|code| |];
    try (eexists; split; [reflexivity|cbn; auto]).
  repeat match goal with
         | |- context [match ?x with _ => _ end] => destruct x
         end;
    eexists; (split; [reflexivity|cbn; auto]).
Qed.

(** The outcomes of POST /submission: a refusal that leaves the ledger
    as it is, or the commit of the submission followed by the attempt to
    settle the task when it has become ready. *)
Lemma post_submission_outcome (env : Env) (payout : Dispatcher)
    (workerId taskId selection : N) (w : World) :
  exists resp w',
    post_submission env payout workerId taskId selection w = (Ok resp, w')
    /\ (((status resp = 400 \/ status resp = 500)
         /\ db w' = db w /\ sent w' = sent w)
        \/ exists nt b,
             getNextTask workerId w = (Ok (Some nt), w)
             /\ Task.id (nt_task nt) = taskId
             /\ find (fun o => N.eqb (Option.id o) selection) (nt_options nt) <> None
             /\ JS.to_Z (baseRewardOf (nt_task nt)) = Some b
             /\ Prisma.lookup Worker.id workerId (Db.workers (db w)) <> None
             /\ resp = json (SubmissionBody
                               (new_submission w workerId taskId selection b))
             /\ w' = if ready taskId
                          (db (after_submission w workerId taskId selection b))
                     then snd (processTaskCompletion env payout taskId
                                 (after_submission w workerId taskId selection b))
                     else after_submission w workerId taskId selection b).
Proof.
  rewrite post_submission_unfold. unfold try_catch, bind.
  rewrite getNextTask_run.
  destruct (Array.sort byCreatedAt _) as [|t rest] eqn:E.
  { do 2 eexists. split; [reflexivity|]. left. cbn. auto. }
  cbn [nt_task nt_options].
  destruct (N.eqb (Task.id t) taskId) eqn:Eid; cbn [negb].
  2:{ do 2 eexists. split; [reflexivity|]. left. cbn. auto. }
  apply N.eqb_eq in Eid.
  destruct (find _ _) as [o|] eqn:Ho.
  2:{ do 2 eexists. split; [reflexivity|]. left. cbn. auto. }
  destruct (submissionTransaction_run workerId taskId selection (baseRewardOf t) w)
    as (r & w1 & -> & Hs & Hr).
  destruct r as [row|e].
  - destruct Hr as (b & Hb & Hwk & -> & ->).
    rewrite submissionFollowUp_run.
    2:{ cbn [db after_submission Db.tasks Prisma.set_workers Prisma.set_submissions].
        apply (sort_head_min Task.createdAt) in E. destruct E as [Hin _].
        apply filter_In in Hin. destruct Hin as [Hin _].
        now apply (lookup_In Task.id taskId _ t). }
    do 2 eexists. split; [reflexivity|]. right.
    eexists. exists b. split; [reflexivity|]. cbn [nt_task nt_options].
    split; [exact Eid|]. split; [rewrite Ho; discriminate|].
    split; [exact Hb|]. split; [exact Hwk|]. split; reflexivity.
  - destruct (submission_catch e w1) as (resp & -> & Hst).
    do 2 eexists. split; [reflexivity|]. left. rewrite Hs. auto.
Qed.

(** X4: POST /submission never throws and answers 200, 400 or 500; a
    request that is not answered with 200 leaves the ledger as it is, and
    no payout is dispatched for it. *)
Theorem refused_submission_changes_nothing (env : Env) (payout : Dispatcher)
    (workerId taskId selection : N) (w : World) :
  exists resp w',
    post_submission env payout workerId taskId selection w = (Ok resp, w')
    /\ (status resp = 200 \/ status resp = 400 \/ status resp = 500)
    /\ (status resp <> 200 -> db w' = db w /\ sent w' = sent w).
Proof.
  destruct (post_submission_outcome env payout workerId taskId selection w)
    as (resp & w' & Hrun & [(Hst & Hdb & Hsent)|(nt & b & _ & _ & _ & _ & _ & -> & _)]).
  - exists resp, w'. split; [exact Hrun|]. split; [tauto|auto].
  - eexists. exists w'. split; [exact Hrun|]. cbn.
    split; [auto|]. intros H. now elim H.
Qed.

Lemma find_In_id (selection : N) (opts : list Option.t) (o : Option.t) :
  In o opts -> Option.id o = selection ->
  find (fun o => N.eqb (Option.id o) selection) opts <> None.
Proof.
  intros Hin E H. apply (find_none _ _ H) in Hin.
  rewrite E, N.eqb_refl in Hin. discriminate.
Qed.

(** X5: a submission for the task that [getNextTask] offers the worker,
    choosing one of its options, when the provisional reward
    floor(amount / reviewCount) of the task is an integer.  When the
    column of the pending balance accepts the credit (the reward and the
    new balance are within the range of an [Int] column), the request is
    answered with the new submission, whose amount is the provisional
    reward; the submission is stored and the pending balance of the worker
    is credited with that amount in one transaction.  Then, when the task
    has reached the threshold, its settlement is attempted, and the
    outcome of the settlement does not change the answer; otherwise
    nothing else happens.  The submissions of the ledger are those before
    and the new one.  When the column does not accept the credit, the
    transaction is rolled back: the request is answered with the status
    500, no submission is stored and nothing is dispatched. *)
Theorem accepted_submission_is_stored_and_credited (env : Env) (payout : Dispatcher)
    (workerId taskId selection : N) (w : World)
    (nt : NextTask) (o : Option.t) (worker : Worker.t) (b : Z) :
  getNextTask workerId w = (Ok (Some nt), w) ->
  Task.id (nt_task nt) = taskId ->
  In o (nt_options nt) -> Option.id o = selection ->
  Prisma.lookup Worker.id workerId (Db.workers (db w)) = Some worker ->
  JS.to_Z (baseRewardOf (nt_task nt)) = Some b ->
  let w1 := after_submission w workerId taskId selection b in
  (Prisma.incrementable (Worker.pending_amount worker) b = true ->
   exists w',
     post_submission env payout workerId taskId selection w =
       (Ok (json (SubmissionBody (new_submission w workerId taskId selection b))), w')
     /\ w' = (if ready taskId (db w1)
              then snd (processTaskCompletion env payout taskId w1)
              else w1)
     /\ Db.submissions (db w') =
        Db.submissions (db w) ++ [new_submission w workerId taskId selection b]
     /\ Prisma.lookup Worker.id workerId (Db.workers (db w1)) =
        Some (credit_pending b worker))
  /\ (Prisma.incrementable (Worker.pending_amount worker) b = false ->
      exists w',
        post_submission env payout workerId taskId selection w =
          (Ok (fail 500 "Failed to submit evaluation"), w')
        /\ db w' = db w /\ sent w' = sent w).
Proof.
  intros Hnext Hid Ho Hsel Hwk Hb w1.
  assert (Hav : Prisma.submission_unique taskId workerId (Db.submissions (db w)) = true).
  { destruct (getNextTask_available workerId w) as (r & Hr & Hav).
    rewrite Hnext in Hr. injection Hr as <-.
    specialize (Hav nt eq_refl). now rewrite Hid in Hav. }
  assert (Hfind : find (fun o => N.eqb (Option.id o) selection) (nt_options nt) <> None)
    by now apply (find_In_id selection _ o).
  split; intros Hfit.
  2:{ rewrite post_submission_unfold. unfold try_catch, bind.
      rewrite Hnext, Hid, N.eqb_refl. cbn [negb].
      destruct (find _ _); [|now elim Hfind].
      unfold transaction, submissionTransaction, bind, Prisma.Int.
      rewrite Hb. cbn [ret].
      unfold Prisma.submission_create, bind, Prisma.next_submission_id, read_db.
      cbn [db with_seqs]. rewrite Hav.
      unfold write_db, ret. rewrite worker_credit_run.
      cbn [db with_db Db.workers Prisma.set_submissions]. rewrite Hwk, Hfit.
      eexists. split; [reflexivity|]. split; reflexivity. }
  destruct (post_submission_outcome env payout workerId taskId selection w)
    as (resp & w' & Hrun & Hcases).
  (* the request passes every guard *)
  assert (Hok : exists row w1',
             transaction (submissionTransaction workerId taskId selection
                            (baseRewardOf (nt_task nt))) w = (Ok row, w1')).
  { unfold transaction, submissionTransaction, bind, Prisma.Int.
    rewrite Hb. cbn [ret].
    unfold Prisma.submission_create, bind, Prisma.next_submission_id, read_db.
    cbn [db with_seqs]. rewrite Hav.
    unfold write_db, ret. rewrite worker_credit_run.
    cbn [db with_db Db.workers Prisma.set_submissions]. rewrite Hwk, Hfit.
    do 2 eexists. reflexivity. }
  destruct Hok as (row & w1' & Hok).
  assert (Hresp : status resp = 200).
  { revert Hrun. rewrite post_submission_unfold. unfold try_catch, bind.
    rewrite Hnext, Hid, N.eqb_refl. cbn [negb].
    destruct (find _ _) eqn:Hf; [|now elim Hfind].
    rewrite Hok.
    destruct (submissionTransaction_run workerId taskId selection
                (baseRewardOf (nt_task nt)) w) as (r2 & w2 & Hr2 & _ & Hr3).
    rewrite Hok in Hr2. injection Hr2 as <- <-.
    destruct Hr3 as (b' & _ & _ & _ & ->).
    rewrite submissionFollowUp_run.
    - now intros [= <- _].
    - cbn [db after_submission Db.tasks Prisma.set_workers Prisma.set_submissions].
      destruct (getNextTask_offer workerId w nt Hnext) as [Hin _].
      now apply (lookup_In Task.id taskId _ (nt_task nt)). }
  destruct Hcases as [([H|H] & _)|(nt2 & b2 & Hn2 & _ & _ & Hb2 & _ & -> & ->)];
    try (rewrite Hresp in H; discriminate H).
  rewrite Hnext in Hn2. injection Hn2 as <-.
  rewrite Hb in Hb2. injection Hb2 as <-.
  exists (if ready taskId (db w1)
          then snd (processTaskCompletion env payout taskId w1) else w1).
  split; [exact Hrun|]. split; [reflexivity|]. split.
  - destruct (ready taskId (db w1)).
    + rewrite processTaskCompletion_submissions. reflexivity.
    + reflexivity.
  - subst w1.
    cbn [db after_submission Db.workers Prisma.set_workers].
    rewrite lookup_replace by reflexivity. rewrite Hwk. cbn [option_map].
    destruct (lookup_key _ _ _ _ Hwk) as [-> _]. now rewrite N.eqb_refl.
Qed.

(** Worker 12 of the sample ledger votes for the option 1 of the task 1:
    the provisional reward is floor(1000 / 2) = 500.  With a pending
    balance of 2147483647, the largest value of the column, the same
    request is answered with the status 500 and stores nothing. *)
Lemma accepted_submission_is_stored_and_credited_sample :
  (exists w',
     post_submission sample_env accepting_dispatcher 12 1 1 sample_world_with_newcomer =
       (Ok (json (SubmissionBody
                    {| Submission.id := 3; Submission.option_id := 1;
                       Submission.worker_id := 12; Submission.task_id := 1;
                       Submission.amount := 500 |})), w')
     /\ Db.submissions (db w') =
        Db.submissions sample_db ++
          [ {| Submission.id := 3; Submission.option_id := 1;
               Submission.worker_id := 12; Submission.task_id := 1;
               Submission.amount := 500 |} ])
  /\ (exists w',
        post_submission sample_env accepting_dispatcher 12 1 1 sample_world_at_the_limit =
          (Ok (fail 500 "Failed to submit evaluation"), w')
        /\ db w' = db sample_world_at_the_limit).
Proof.
  split.
  - destruct (accepted_submission_is_stored_and_credited
                sample_env accepting_dispatcher 12 1 1 sample_world_with_newcomer
                {| nt_task := sample_task;
                   nt_options := Db.options sample_db;
                   nt_count_submissions := 2 |}
                {| Option.id := 1; Option.task_id := 1 |}
                {| Worker.id := 12; Worker.address := "W12";
                   Worker.pending_amount := 0; Worker.locked_amount := 0;
                   Worker.total_earned := 0; Worker.tasks_completed := 0 |}
                500)
      as [Hyes _].
    + reflexivity.
    + reflexivity.
    + simpl. auto.
    + reflexivity.
    + reflexivity.
    + vm_compute. reflexivity.
    + destruct (Hyes eq_refl) as (w' & H1 & _ & H3 & _).
      exists w'. split; [exact H1|exact H3].
  - destruct (accepted_submission_is_stored_and_credited
                sample_env accepting_dispatcher 12 1 1 sample_world_at_the_limit
                {| nt_task := sample_task;
                   nt_options := Db.options sample_db;
                   nt_count_submissions := 2 |}
                {| Option.id := 1; Option.task_id := 1 |}
                {| Worker.id := 12; Worker.address := "W12";
                   Worker.pending_amount := 2147483647; Worker.locked_amount := 0;
                   Worker.total_earned := 0; Worker.tasks_completed := 0 |}
                500)
      as [_ Hno].
    + reflexivity.
    + reflexivity.
    + simpl. auto.
    + reflexivity.
    + reflexivity.
    + vm_compute. reflexivity.
    + destruct (Hno eq_refl) as (w' & H1 & H2 & _).
      exists w'. split; [exact H1|exact H2].
Defined.

(** X6: after a submission that was answered with 200, the ledger holds
    a submission of the worker for the task, [getNextTask] does not offer
    that task to the worker any more, and a further submission of the
    worker for that task, whatever the option, is refused with 400 and
    changes nothing. *)
Theorem submitted_task_is_not_offered_again (env : Env) (payout : Dispatcher)
    (workerId taskId selection : N) (w w' : World) (resp : Response) :
  post_submission env payout workerId taskId selection w = (Ok resp, w') ->
  status resp = 200 ->
  has_submitted workerId (db w') taskId = true
  /\ (forall nt, getNextTask workerId w' = (Ok (Some nt), w') ->
                 Task.id (nt_task nt) <> taskId)
  /\ (forall selection',
        post_submission env payout workerId taskId selection' w' =
          (Ok (fail 400 "Invalid task ID or task not available"), w')).
Proof.
  intros Hrun Hst.
  destruct (post_submission_outcome env payout workerId taskId selection w)
    as (resp2 & w2 & Hrun2 & Hcases).
  rewrite Hrun in Hrun2. injection Hrun2 as <- <-.
  destruct Hcases as [([H|H] & _)|(nt & b & _ & _ & _ & _ & _ & _ & Hw')];
    try (rewrite Hst in H; discriminate H).
  assert (Hsub : has_submitted workerId (db w') taskId = true).
  { apply has_submitted_spec.
    exists (new_submission w workerId taskId selection b).
    split; [|split; reflexivity].
    rewrite Hw'. destruct (ready taskId _).
    - rewrite processTaskCompletion_submissions. cbn. apply in_or_app. right. now left.
    - cbn. apply in_or_app. right. now left. }
  assert (Hno : forall nt, getNextTask workerId w' = (Ok (Some nt), w') ->
                           Task.id (nt_task nt) <> taskId).
  { intros nt2 Hn E.
    destruct (getNextTask_offer workerId w' nt2 Hn) as [_ Hav].
    unfold available in Hav. rewrite E, Hsub in Hav.
    rewrite andb_false_r in Hav. discriminate. }
  split; [exact Hsub|]. split; [exact Hno|].
  intros selection'. rewrite post_submission_unfold. unfold try_catch, bind.
  pose proof (getNextTask_run workerId w') as Hn. rewrite Hn.
  destruct (Array.sort byCreatedAt _) as [|t rest] eqn:E; [reflexivity|].
  cbn [nt_task].
  destruct (N.eqb (Task.id t) taskId) eqn:Eid; [|reflexivity].
  exfalso. apply N.eqb_eq in Eid.
  exact (Hno _ Hn Eid).
Qed.

(** After the vote of the worker 12, the task 1 is not offered to that
    worker again. *)
Lemma submitted_task_is_not_offered_again_sample :
  has_submitted 12
    (db (snd (post_submission sample_env accepting_dispatcher 12 1 1
                sample_world_with_newcomer))) 1 = true.
Proof.
  refine (proj1 (submitted_task_is_not_offered_again
                   sample_env accepting_dispatcher 12 1 1
                   sample_world_with_newcomer
                   (snd (post_submission sample_env accepting_dispatcher 12 1 1
                           sample_world_with_newcomer))
                   (json (SubmissionBody
                            {| Submission.id := 3; Submission.option_id := 1;
                               Submission.worker_id := 12; Submission.task_id := 1;
                               Submission.amount := 500 |})) _ _)).
  - vm_compute. reflexivity.
  - reflexivity.
Defined.

(* ===================================================================== *)
(** * The ledger after a settlement *)
(* ===================================================================== *)

Lemma Db_ext (d d' : Db.t) :
  Db.tasks d' = Db.tasks d ->
  Db.options d' = Db.options d ->
  Db.submissions d' = Db.submissions d ->
  Db.taskResults d' = Db.taskResults d ->
  Db.optionResults d' = Db.optionResults d ->
  Db.workers d' = Db.workers d ->
  Db.workerWithdrawals d' = Db.workerWithdrawals d ->
  d' = d.
Proof. destruct d, d'. cbn. intros; subst; reflexivity. Qed.

Lemma same_but_workers_refl (d : Db.t) : same_but_workers d d.
Proof. repeat split. Qed.

Lemma same_but_workers_trans (a b c : Db.t) :
  same_but_workers a b -> same_but_workers b c -> same_but_workers a c.
Proof.
  unfold same_but_workers. intros (A1 & A2 & A3 & A4 & A5 & A6) (B1 & B2 & B3 & B4 & B5 & B6).
  repeat split; congruence.
Qed.

(** The loop that stores the ranking: it appends the rows of the ranking
    to the OptionResult table and changes nothing else. *)
Lemma optionResults_loop_exact (rs : list RankedResult) (i : N) (w : World) :
  exists w',
    forM rs (fun result =>
               Prisma.optionResult_create (optionId result) i (count result)
                 (rank result) (percentage result)) w = (Ok tt, w')
    /\ Db.optionResults (db w') =
       Db.optionResults (db w) ++ option_rows i (optionResult_seq (seqs w)) rs
    /\ Db.tasks (db w') = Db.tasks (db w)
    /\ Db.options (db w') = Db.options (db w)
    /\ Db.submissions (db w') = Db.submissions (db w)
    /\ Db.taskResults (db w') = Db.taskResults (db w)
    /\ Db.workers (db w') = Db.workers (db w)
    /\ Db.workerWithdrawals (db w') = Db.workerWithdrawals (db w)
    /\ clock w' = clock w.
Proof.
  unfold forM. revert w.
  induction rs as [|r rs IH]; intros w; cbn [foldM option_rows].
  - eexists. split; [reflexivity|]. rewrite app_nil_r. repeat split.
  - unfold bind at 1.
    unfold Prisma.optionResult_create at 1.
    unfold bind, Prisma.next_optionResult_id, read_db, write_db.
    cbn [db seqs with_seqs with_db].
    match goal with
    | |- context [foldM ?b rs tt ?w1] => destruct (IH w1) as (w2 & -> & H1 & H2)
    end.
    eexists. split; [reflexivity|].
    cbn [db seqs optionResult_seq Db.optionResults Prisma.set_optionResults
         Db.tasks Db.options Db.submissions Db.taskResults Db.workers
         Db.workerWithdrawals clock with_db with_seqs] in *.
    split; [rewrite H1, <- app_assoc; reflexivity|exact H2].
Qed.

(** One step of the reward loop that returns. *)
Lemma distributeReward_ok (payout : Dispatcher) (acc acc' : list RewardTransaction)
    (reward : WorkerReward) (w w' : World) :
  distributeReward payout acc reward w = (Ok acc', w') ->
  JS.to_Z (wr_amount reward) <> None
  /\ Db.workers (db w') =
     Prisma.replace Worker.id (wr_workerId reward) (credit (amount_of reward))
       (Db.workers (db w))
  /\ same_but_workers (db w) (db w')
  /\ clock w' = clock w
  /\ acc' = acc ++ [ {| rt_workerId := wr_workerId reward;
                        rt_amount := wr_amount reward;
                        rt_signature := rt_signature (last acc' {| rt_workerId := 0; rt_amount := JS.zero; rt_signature := EmptyString; rt_rank := 0 |});
                        rt_rank := wr_rank reward |} ].
Proof.
  unfold distributeReward, bind, Prisma.Int, amount_of.
  destruct (JS.to_Z (wr_amount reward)) as [a|]; cbn [ret throw]; [|discriminate].
  rewrite worker_credit_run.
  destruct (Prisma.lookup Worker.id (wr_workerId reward) (Db.workers (db w)));
    [|discriminate].
  match goal with |- context [if ?b then _ else _] => destruct b end; [|discriminate].
  rewrite worker_findUnique_run.
  destruct (Prisma.lookup Worker.id _ _); cbn [ret throw]; [|discriminate].
  unfold dispatch. cbn [net db with_db].
  destruct (payout _ _ _) as [[sig|e] n]; [|discriminate].
  intros [= <- <-]. cbn [db Db.workers Prisma.set_workers clock].
  split; [discriminate|]. split; [reflexivity|].
  split; [repeat split|]. split; [reflexivity|].
  rewrite last_last. reflexivity.
Qed.

(** The reward loop that returns: every amount is an integer, the workers
    are credited one after the other, and no other table changes. *)
Lemma rewards_loop_ok (payout : Dispatcher) (rewards : list WorkerReward)
    (acc acc' : list RewardTransaction) (w w' : World) :
  foldM (distributeReward payout) rewards acc w = (Ok acc', w') ->
  Forall (fun r => JS.to_Z (wr_amount r) <> None) rewards
  /\ Db.workers (db w') = credit_rewards rewards (Db.workers (db w))
  /\ same_but_workers (db w) (db w')
  /\ clock w' = clock w
  /\ map (fun t => (rt_workerId t, rt_amount t, rt_rank t)) acc' =
     map (fun t => (rt_workerId t, rt_amount t, rt_rank t)) acc
       ++ map (fun r => (wr_workerId r, wr_amount r, wr_rank r)) rewards.
Proof.
  revert acc w. induction rewards as [|r rewards IH]; intros acc w; cbn [foldM].
  - intros [= <- <-]. split; [constructor|]. split; [reflexivity|].
    split; [apply same_but_workers_refl|]. split; [reflexivity|].
    cbn. now rewrite app_nil_r.
  - unfold bind.
    destruct (distributeReward payout acc r w) as [[acc1|e] w1] eqn:E1; [|discriminate].
    apply distributeReward_ok in E1. destruct E1 as (A1 & B1 & C1 & D1 & E1).
    intros H. apply IH in H. destruct H as (A2 & B2 & C2 & D2 & E2).
    split; [constructor; assumption|].
    split; [rewrite B2, B1; reflexivity|].
    split; [eapply same_but_workers_trans; eauto|].
    split; [congruence|].
    rewrite E2, E1, map_app. cbn [map]. rewrite <- app_assoc. reflexivity.
Qed.

Lemma settled_worker_nil (w0 : Worker.t) : settled_worker [] w0 = w0.
Proof. destruct w0. unfold settled_worker. cbn. f_equal; lia. Qed.

Lemma credit_rewards_map (rewards : list WorkerReward) (ws : list Worker.t) :
  credit_rewards rewards ws = map (settled_worker rewards) ws.
Proof.
  unfold credit_rewards. revert ws.
  induction rewards as [|r rewards IH]; intros ws; cbn [fold_left].
  - rewrite <- (map_id ws) at 1. apply map_ext. intros w0.
    now rewrite settled_worker_nil.
  - rewrite IH. unfold Prisma.replace. rewrite map_map. apply map_ext.
    intros w0. unfold settled_worker, rewards_of. cbn [filter].
    rewrite (N.eqb_sym (wr_workerId r) (Worker.id w0)).
    destruct (N.eqb (Worker.id w0) (wr_workerId r)); [|reflexivity].
    cbn [credit Worker.id Worker.address Worker.pending_amount
         Worker.locked_amount Worker.total_earned Worker.tasks_completed
         map List.length].
    change (sum_Z (?x :: ?l)) with (x + sum_Z l).
    f_equal; lia.
Qed.

(** The transaction of the settlement, when it commits. *)
Lemma settlementTransaction_ok (payout : Dispatcher) (taskId : N)
    (c : Consensus) (w w' : World) (s : Settlement) :
  settlementTransaction payout taskId c w = (Ok s, w') ->
  db w' = settled_db c taskId w
  /\ Forall (fun r => JS.to_Z (wr_amount r) <> None) (workerRewards c)
  /\ s_taskId s = taskId
  /\ s_consensus s = c
  /\ s_completedAt s = clock w + 1
  /\ map (fun t => (rt_workerId t, rt_amount t, rt_rank t)) (rewardTransactions s) =
     map (fun r => (wr_workerId r, wr_amount r, wr_rank r)) (workerRewards c).
Proof.
  unfold settlementTransaction, bind, new_Date.
  rewrite task_update_run. cbn [db seqs clock sent net].
  destruct (Prisma.lookup Task.id taskId (Db.tasks (db w))); [|discriminate].
  rewrite taskResult_create_run.
  cbn [db seqs clock sent net with_db with_seqs].
  rewrite has_result_set_tasks.
  destruct (has_result taskId (db w)); [discriminate|].
  cbn zeta. cbn [TaskResult.id].
  match goal with
  | |- context [forM ?rs ?body ?w1] =>
      destruct (optionResults_loop_exact (results c) (taskResult_seq (seqs w)) w1)
        as (w2 & -> & O1 & O2 & O3 & O4 & O5 & O6 & O7 & O8)
  end.
  cbn [db seqs clock with_db with_seqs bump_taskResult_seq optionResult_seq
       Db.tasks Db.options Db.submissions Db.taskResults Db.optionResults
       Db.workers Db.workerWithdrawals Prisma.set_taskResults Prisma.set_tasks]
    in O1, O2, O3, O4, O5, O6, O7, O8.
  destruct (foldM (distributeReward payout) (workerRewards c) [] w2)
    as [[acc|e] w3] eqn:E3; [|discriminate].
  apply rewards_loop_ok in E3.
  destruct E3 as (R1 & R2 & (T1 & T2 & T3 & T4 & T5 & T6) & R4 & R5).
  cbn [ret]. intros [= <- <-]. cbn [db s_taskId s_consensus s_completedAt rewardTransactions].
  split; [|split; [exact R1|]].
  - apply Db_ext; cbn [settled_db Db.tasks Db.options Db.submissions Db.taskResults
                       Db.optionResults Db.workers Db.workerWithdrawals]; try congruence.
    + rewrite T1, O2. reflexivity.
    + rewrite R2, O6. apply credit_rewards_map.
  - split; [reflexivity|]. split; [reflexivity|].
    split; [rewrite R4, O8; reflexivity|exact R5].
Qed.

Lemma processTaskCompletion_ok (env : Env) (payout : Dispatcher)
    (taskId : N) (w w' : World) (s : Settlement) :
  processTaskCompletion env payout taskId w = (Ok s, w') ->
  exists t,
    load taskId (db w) = Some t
    /\ isReadyForConsensus (ConsensusService.taskStatus taskId t) = true
    /\ s_consensus s = ConsensusService.consensusOf env taskId t
    /\ settlementTransaction payout taskId (s_consensus s) w = (Ok s, w').
Proof.
  unfold processTaskCompletion, bind. rewrite calculateConsensus_run.
  destruct (load taskId (db w)) as [t|]; [|discriminate].
  destruct (isReadyForConsensus _) eqn:Hr; [|discriminate].
  unfold transaction.
  destruct (settlementTransaction payout taskId _ w) as [[s1|e] w1] eqn:E;
    [|discriminate].
  intros [= <- <-]. exists t.
  pose proof (settlementTransaction_ok _ _ _ _ _ _ E) as (_ & _ & _ & Hc & _).
  rewrite Hc. auto.
Qed.

Lemma settlement_ok_ready (env : Env) (payout : Dispatcher)
    (taskId : N) (w w' : World) (s : Settlement) :
  processTaskCompletion env payout taskId w = (Ok s, w') ->
  ready taskId (db w) = true.
Proof.
  intros H. apply processTaskCompletion_ok in H.
  destruct H as (t & Hl & Hr & _). unfold ready. now rewrite Hl.
Qed.

(** X7: the ledger after a settlement that returned.  The task is done,
    with its completion time; the Result of the task and one row for each
    ranked option were appended; every amount of the reward list is an
    integer, and the pending balance and the total earned of every worker
    have grown by the sum of the rewards of that worker, the number of
    completed tasks by their number; the options, the submissions and the
    withdrawals are what they were.  The settlement that is returned
    lists one payout for each entry of the reward list, in order. *)
Theorem settlement_credits_each_reward (env : Env) (payout : Dispatcher)
    (taskId : N) (w w' : World) (s : Settlement) :
  processTaskCompletion env payout taskId w = (Ok s, w') ->
  calculateConsensus env taskId w = (Ok (s_consensus s), w)
  /\ db w' = settled_db (s_consensus s) taskId w
  /\ Forall (fun r => JS.to_Z (wr_amount r) <> None) (workerRewards (s_consensus s))
  /\ s_taskId s = taskId
  /\ map (fun t => (rt_workerId t, rt_amount t, rt_rank t)) (rewardTransactions s) =
     map (fun r => (wr_workerId r, wr_amount r, wr_rank r))
         (workerRewards (s_consensus s)).
Proof.
  intros H. apply processTaskCompletion_ok in H.
  destruct H as (t & Hl & Hr & Hc & H).
  apply settlementTransaction_ok in H.
  destruct H as (H1 & H2 & H3 & _ & _ & H6).
  split; [|auto].
  rewrite calculateConsensus_run, Hl, Hr, Hc. reflexivity.
Qed.

(** The settlement of the sample task: the worker 11 voted for the option
    ranked first (reward 100), the worker 10 for the option ranked second
    (reward 70). *)
Lemma settlement_credits_each_reward_sample :
  let r := processTaskCompletion sample_env accepting_dispatcher 1 sample_world in
  exists s,
    fst r = Ok s
    /\ map (fun x => (Worker.id x, Worker.pending_amount x, Worker.total_earned x,
                      Worker.tasks_completed x))
           (Db.workers (db (snd r)))
       = [(10%N, 570, 70, 1); (11%N, 600, 100, 1)].
Proof.
  cbv zeta.
  destruct (processTaskCompletion sample_env accepting_dispatcher 1 sample_world)
    as [[s|e] w'] eqn:E.
  - exists s. split; [reflexivity|].
    destruct (settlement_credits_each_reward _ _ _ _ _ _ E) as (Hc & Hdb & _).
    cbn [snd]. rewrite Hdb.
    assert (Hc2 : calculateConsensus sample_env 1 sample_world =
                  (Ok (ConsensusService.consensusOf sample_env 1 sample_loaded),
                   sample_world))
      by (vm_compute; reflexivity).
    rewrite Hc2 in Hc. injection Hc as Hs. rewrite <- Hs.
    vm_compute. reflexivity.
  - vm_compute in E. discriminate E.
Defined.

Lemma replace_In_inv {A} (key : A -> N) (k : N) (f : A -> A) (rows : list A) (r : A) :
  In r (Prisma.replace key k f rows) ->
  exists r0, In r0 rows /\ r = if N.eqb (key r0) k then f r0 else r0.
Proof.
  unfold Prisma.replace. intros H. apply in_map_iff in H.
  destruct H as (r0 & <- & H0). now exists r0.
Qed.

(** X8: after a settlement that returned, every row of the task is done
    and carries the completion time, the other tasks are what they were,
    and [getNextTask] does not offer the task to any worker. *)
Theorem settled_task_is_never_offered (env : Env) (payout : Dispatcher)
    (taskId : N) (w w' : World) (s : Settlement) :
  processTaskCompletion env payout taskId w = (Ok s, w') ->
  (forall t, In t (Db.tasks (db w')) -> Task.id t = taskId ->
             Task.done t = true /\ Task.completedAt t = Some (clock w))
  /\ (forall t, Task.id t <> taskId ->
                (In t (Db.tasks (db w')) <-> In t (Db.tasks (db w))))
  /\ (forall userId nt, getNextTask userId w' = (Ok (Some nt), w') ->
                        Task.id (nt_task nt) <> taskId).
Proof.
  intros H. apply processTaskCompletion_ok in H.
  destruct H as (t0 & _ & _ & _ & H).
  apply settlementTransaction_ok in H. destruct H as (Hdb & _).
  assert (Hdone : forall t, In t (Db.tasks (db w')) -> Task.id t = taskId ->
                            Task.done t = true /\ Task.completedAt t = Some (clock w)).
  { intros t Ht Hid. rewrite Hdb in Ht. cbn [settled_db Db.tasks] in Ht.
    apply replace_In_inv in Ht. destruct Ht as (r0 & _ & ->).
    destruct (N.eqb (Task.id r0) taskId) eqn:E.
    - split; reflexivity.
    - apply N.eqb_neq in E. contradiction. }
  split; [exact Hdone|]. split.
  - intros t Hid. rewrite Hdb. cbn [settled_db Db.tasks].
    unfold Prisma.replace. rewrite in_map_iff. split.
    + intros (r0 & E & Hr0).
      destruct (N.eqb (Task.id r0) taskId) eqn:E2.
      * apply N.eqb_eq in E2. subst t. cbn in Hid. contradiction.
      * now subst.
    + intros Ht. exists t. split; [|exact Ht].
      apply N.eqb_neq in Hid. now rewrite Hid.
  - intros userId nt Hn Hid.
    destruct (getNextTask_offer userId w' nt Hn) as [Hin Hav].
    destruct (Hdone _ Hin Hid) as [Hd _].
    unfold available in Hav. rewrite Hd in Hav. discriminate.
Qed.

(** After the settlement of the sample task, it is not offered to any
    worker. *)
Lemma settled_task_is_never_offered_sample :
  exists s w',
    processTaskCompletion sample_env accepting_dispatcher 1
      sample_world_with_newcomer = (Ok s, w')
    /\ (forall userId nt, getNextTask userId w' = (Ok (Some nt), w') ->
                          Task.id (nt_task nt) <> 1%N).
Proof.
  destruct (processTaskCompletion sample_env accepting_dispatcher 1
              sample_world_with_newcomer) as [[s|e] w'] eqn:E.
  - exists s, w'. split; [reflexivity|].
    exact (proj2 (proj2 (settled_task_is_never_offered _ _ _ _ _ _ E))).
  - vm_compute in E. discriminate E.
Defined.

(* ===================================================================== *)
(** * Settlement of a task that is not ready *)
(* ===================================================================== *)

Lemma ready_run (taskId : N) (w : World) :
  ready taskId (db w) = false ->
  forall env, exists msg, calculateConsensus env taskId w = (Throw (Error msg), w).
Proof.
  unfold ready. intros H env. rewrite calculateConsensus_run.
  destruct (load taskId (db w)) as [t|]; [|eexists; reflexivity].
  rewrite H. eexists. reflexivity.
Qed.

(** X9: the settlement of a task that is missing or below the threshold
    of submissions throws before anything is written or dispatched, and
    the administration route that forces a settlement does not lift the
    threshold: for such a task it answers 500 and the whole state is what
    it was.  The route never throws, and when it answers 200 the task had
    reached the threshold and the ledger is the settled one. *)
Theorem forced_settlement_keeps_the_threshold (env : Env) (payout : Dispatcher)
    (taskId : N) (w : World) :
  exists resp w',
    post_force_consensus env payout taskId w = (Ok resp, w')
    /\ (admin_status resp = 200 \/ admin_status resp = 500)
    /\ (ready taskId (db w) = false ->
        admin_status resp = 500 /\ w' = w
        /\ exists msg,
             processTaskCompletion env payout taskId w = (Throw (Error msg), w))
    /\ (admin_status resp = 200 ->
        ready taskId (db w) = true
        /\ exists s, admin_data resp = Some s
                     /\ db w' = settled_db (s_consensus s) taskId w)
    /\ (admin_status resp = 500 -> db w' = db w).
Proof.
  unfold post_force_consensus, try_catch, bind.
  destruct (processTaskCompletion env payout taskId w) as [[s|e] w'] eqn:E.
  - do 2 eexists. split; [reflexivity|]. cbn [admin_status admin_data ret].
    pose proof (settlement_ok_ready env payout taskId w w' s E) as Hr.
    split; [auto|]. split; [|split].
    + intros H. rewrite H in Hr. discriminate.
    + intros _. split; [exact Hr|]. exists s. split; [reflexivity|].
      apply processTaskCompletion_ok in E. destruct E as (t0 & _ & _ & _ & E).
      now apply settlementTransaction_ok in E.
    + discriminate.
  - do 2 eexists. split; [reflexivity|]. cbn [admin_status admin_data ret].
    split; [auto|]. split; [|split].
    + intros H. destruct (ready_run taskId w H env) as [msg Hc].
      revert E. unfold processTaskCompletion, bind. rewrite Hc.
      intros [= <- <-]. split; [reflexivity|]. split; [reflexivity|].
      now exists msg.
    + discriminate.
    + intros _. revert E. unfold processTaskCompletion, bind.
      destruct (calculateConsensus_pure env taskId w) as [r ->].
      destruct r as [c|e0]; [|now intros [= _ <-]].
      unfold transaction.
      destruct (settlementTransaction payout taskId c w) as [[s1|e1] w1];
        [discriminate|].
      now intros [= _ <-].
Qed.

(* ===================================================================== *)
(** * Reading the results of a settlement *)
(* ===================================================================== *)

Lemma sort_sorted_id {A} (key : A -> Z) (l : list A) :
  StronglySorted (fun a b => key a <= key b) l ->
  Array.sort (fun a b => key a - key b) l = l.
Proof.
  induction 1 as [|x l Hs IH Hx]; [reflexivity|].
  cbn [Array.sort fold_right]. fold (Array.sort (fun a b => key a - key b) l).
  rewrite IH. destruct l as [|y l']; [reflexivity|].
  cbn [Array.insert]. inversion Hx as [|? ? Hy _]; subst.
  replace (key x - key y <=? 0) with true by (symmetry; apply Z.leb_le; lia).
  reflexivity.
Qed.

Lemma option_rows_filter (i j : N) (rs : list RankedResult) :
  filter (fun r => N.eqb (OptionResult.task_result_id r) i) (option_rows i j rs)
  = option_rows i j rs.
Proof.
  revert j. induction rs as [|r rs IH]; intros j; cbn; [reflexivity|].
  rewrite N.eqb_refl, IH. reflexivity.
Qed.

Lemma option_rows_rank (i j : N) (rs : list RankedResult) :
  map OptionResult.rank (option_rows i j rs) = map rank rs.
Proof.
  revert j. induction rs as [|r rs IH]; intros j; cbn; [reflexivity|].
  now rewrite IH.
Qed.

Lemma option_rows_view (i j : N) (opts : list Option.t) (rs : list RankedResult) :
  map (fun result =>
         {| rv_optionId := OptionResult.option_id result;
            rv_rank := OptionResult.rank result;
            rv_voteCount := OptionResult.vote_count result;
            rv_percentage := OptionResult.percentage result;
            rv_option := Prisma.lookup Option.id (OptionResult.option_id result) opts |})
      (option_rows i j rs)
  = map (view_of opts) rs.
Proof.
  revert j. induction rs as [|r rs IH]; intros j; cbn; [reflexivity|].
  now rewrite IH.
Qed.

Lemma sorted_by_map {A} (key : A -> Z) (l : list A) :
  StronglySorted Z.le (map key l) ->
  StronglySorted (fun a b => key a <= key b) l.
Proof.
  induction l as [|x l IH]; cbn; intros H; [constructor|].
  inversion H as [|? ? Hs Hx]; subst. constructor; [now apply IH|].
  rewrite Forall_map in Hx. exact Hx.
Qed.

Lemma seq_sorted (n : nat) (i : nat) :
  StronglySorted Z.le (map Z.of_nat (seq i n)).
Proof.
  revert i. induction n as [|n IH]; intros i; cbn; constructor; [apply IH|].
  apply Forall_forall. intros z Hz. apply in_map_iff in Hz.
  destruct Hz as (k & <- & Hk). apply in_seq in Hk. lia.
Qed.

(** The ranks of a ranking are in ascending order. *)
Lemma sortedResults_ranks_ascending (t : LoadedTask) :
  StronglySorted Z.le (map rank (ConsensusService.sortedResults t)).
Proof.
  rewrite (sortedResults_ranked (Array.length (submissions t)) t eq_refl).
  rewrite ranked_from_rank_list.
  rewrite (map_ext (fun k => 0 + Z.of_nat k) Z.of_nat) by (intros; lia).
  apply seq_sorted.
Qed.

Lemma find_app_last {A} (p : A -> bool) (l : list A) (x : A) :
  existsb p l = false -> p x = true -> find p (l ++ [x]) = Some x.
Proof.
  induction l as [|y l IH]; cbn; intros H Hx.
  - now rewrite Hx.
  - apply orb_false_iff in H. destruct H as [Hy H]. rewrite Hy. now apply IH.
Qed.

Lemma find_existsb_false {A} (p : A -> bool) (l : list A) :
  existsb p l = false -> find p l = None.
Proof.
  induction l as [|y l IH]; cbn; intros H; [reflexivity|].
  apply orb_false_iff in H. destruct H as [Hy H]. rewrite Hy. now apply IH.
Qed.

Lemma settlement_ok_no_result (env : Env) (payout : Dispatcher)
    (taskId : N) (w w' : World) (s : Settlement) :
  processTaskCompletion env payout taskId w = (Ok s, w') ->
  has_result taskId (db w) = false.
Proof.
  intros H. apply processTaskCompletion_ok in H.
  destruct H as (t & _ & _ & _ & H).
  pose proof (settlementTransaction_spec payout taskId (s_consensus s) w) as Hs.
  rewrite H in Hs. tauto.
Qed.

(** What [getTaskResults] reads after a settlement that returned. *)
Lemma getTaskResults_settled (env : Env) (payout : Dispatcher)
    (taskId : N) (w w' : World) (s : Settlement) :
  processTaskCompletion env payout taskId w = (Ok s, w') ->
  Forall (fun r => OptionResult.task_result_id r <> taskResult_seq (seqs w))
         (Db.optionResults (db w)) ->
  getTaskResults taskId w' =
  (Ok (Some {| tr_taskId := taskId;
               tr_totalSubmissions := totalSubmissions (s_consensus s);
               tr_results := map (view_of (Db.options (db w)))
                                 (results (s_consensus s)) |}), w').
Proof.
  intros Hrun Hfresh.
  pose proof (settlement_ok_no_result _ _ _ _ _ _ Hrun) as Hno.
  pose proof Hrun as Hok. apply processTaskCompletion_ok in Hok.
  destruct Hok as (t & Hl & _ & Hc & Hok).
  apply settlementTransaction_ok in Hok. destruct Hok as (Hdb & _).
  unfold getTaskResults, bind, read_db, ret.
  rewrite Hdb.
  cbn [settled_db Db.taskResults Db.optionResults Db.submissions Db.options].
  rewrite (find_app_last _ _ _ Hno) by (cbn; apply N.eqb_refl).
  cbn [TaskResult.id TaskResult.task_id].
  rewrite filter_app, option_rows_filter.
  rewrite (filter_none _ (Db.optionResults (db w))).
  2:{ eapply Forall_impl; [|exact Hfresh]. cbn. intros r Hr.
      now apply N.eqb_neq. }
  cbn [app].
  change byRankAsc with (fun a b => OptionResult.rank a - OptionResult.rank b).
  rewrite (sort_sorted_id OptionResult.rank).
  2:{ apply sorted_by_map. rewrite option_rows_rank, Hc.
      apply sortedResults_ranks_ascending. }
  rewrite option_rows_view.
  do 4 f_equal. rewrite Hc. cbn [totalSubmissions ConsensusService.consensusOf].
  unfold load in Hl.
  destruct (Prisma.lookup Task.id taskId (Db.tasks (db w))); [|discriminate].
  injection Hl as <-. reflexivity.
Qed.

(** X10: what a settlement stores is what [getTaskResults] reads.  Before
    a settlement that returned, [getTaskResults] returns null for the
    task; after it, it returns the number of submissions of the consensus
    and, in the order of the ranks, the option, rank, vote count and
    percentage of every ranked option of the consensus.  (No row of the
    ledger refers to the id that the Result is going to get.) *)
Theorem settlement_is_read_back (env : Env) (payout : Dispatcher)
    (taskId : N) (w w' : World) (s : Settlement) :
  processTaskCompletion env payout taskId w = (Ok s, w') ->
  Forall (fun r => OptionResult.task_result_id r <> taskResult_seq (seqs w))
         (Db.optionResults (db w)) ->
  getTaskResults taskId w = (Ok None, w)
  /\ getTaskResults taskId w' =
     (Ok (Some {| tr_taskId := taskId;
                  tr_totalSubmissions := totalSubmissions (s_consensus s);
                  tr_results := map (view_of (Db.options (db w)))
                                    (results (s_consensus s)) |}), w').
Proof.
  intros Hrun Hfresh. split.
  - pose proof (settlement_ok_no_result _ _ _ _ _ _ Hrun) as Hno.
    unfold getTaskResults, bind, read_db, ret.
    unfold has_result in Hno. now rewrite (find_existsb_false _ _ Hno).
  - eapply getTaskResults_settled; eauto.
Qed.

(** The results of the sample task, read back: the option 1 is ranked
    first and the option 2 second, with one vote of two each. *)
Lemma settlement_is_read_back_sample :
  exists s w',
    processTaskCompletion sample_env accepting_dispatcher 1 sample_world = (Ok s, w')
    /\ getTaskResults 1 sample_world = (Ok None, sample_world)
    /\ exists v,
         getTaskResults 1 w' = (Ok (Some v), w')
         /\ tr_totalSubmissions v = 2
         /\ map (fun r => (rv_optionId r, rv_rank r, rv_voteCount r)) (tr_results v)
            = [(1%N, 1, 1); (2%N, 2, 1)].
Proof.
  destruct (processTaskCompletion sample_env accepting_dispatcher 1 sample_world)
    as [[s|e] w'] eqn:E.
  - exists s, w'. split; [reflexivity|].
    destruct (settlement_is_read_back _ _ _ _ _ _ E) as [H1 H2]; [constructor|].
    split; [exact H1|]. eexists. split; [exact H2|].
    assert (Hc2 : calculateConsensus sample_env 1 sample_world =
                  (Ok (ConsensusService.consensusOf sample_env 1 sample_loaded),
                   sample_world))
      by (vm_compute; reflexivity).
    apply processTaskCompletion_ok in E. destruct E as (t & Hl & _ & Hc & _).
    assert (Ht : t = sample_loaded) by (vm_compute in Hl; now injection Hl).
    rewrite Hc, Ht. vm_compute. split; reflexivity.
  - vm_compute in E. discriminate E.
Defined.

(* ===================================================================== *)
(** * The scheduled settlement *)
(* ===================================================================== *)

Lemma mark_done_id (now : Z) (t : Task.t) : Task.id (mark_done now t) = Task.id t.
Proof. reflexivity. Qed.

Lemma row_after_refl (ids : list N) (t : Task.t) : row_after ids t t.
Proof. now left. Qed.

Lemma row_after_step (ids : list N) (k : N) (now : Z) (t t' : Task.t) :
  row_after ids t t' ->
  row_after (ids ++ [k]) t (if N.eqb (Task.id t') k then mark_done now t' else t').
Proof.
  intros [->|(Hin & now0 & ->)].
  - destruct (N.eqb (Task.id t) k) eqn:E; [|now left].
    apply N.eqb_eq in E. right. split.
    + apply in_or_app. right. now left.
    + now exists now.
  - right. split; [apply in_or_app; now left|].
    destruct (N.eqb _ k); [now exists now|now exists now0].
Qed.

(** What a round of the loop keeps: the rows of the settled tasks are
    done, every settled task has a Result, the other rows and the
    submissions are what they were. *)
Lemma processIfReady_step (env : Env) (payout : Dispatcher) (d0 : Db.t)
    (acc : list Settlement) (task : Task.t * list Submission.t) (w : World) :
  Forall2 (row_after (map s_taskId acc)) (Db.tasks d0) (Db.tasks (db w)) ->
  (forall t', In t' (Db.tasks (db w)) -> In (Task.id t') (map s_taskId acc) ->
              Task.done t' = true) ->
  (forall k, In k (map s_taskId acc) -> has_result k (db w) = true) ->
  Db.submissions (db w) = Db.submissions d0 ->
  exists acc' w',
    processIfReady env payout acc task w = (Ok acc', w')
    /\ (acc' = acc
        \/ (exists s, acc' = acc ++ [s] /\ s_taskId s = Task.id (fst task))
           /\ (JS.ge (JS.div (JS.of_Z (Array.length (snd task)))
                             (JS.of_Z (Task.reviewCount (fst task))))
                     ConsensusService.MINIMUM_SUBMISSIONS_THRESHOLD = true))
    /\ Forall2 (row_after (map s_taskId acc')) (Db.tasks d0) (Db.tasks (db w'))
    /\ (forall t', In t' (Db.tasks (db w')) -> In (Task.id t') (map s_taskId acc') ->
                   Task.done t' = true)
    /\ (forall k, In k (map s_taskId acc') -> has_result k (db w') = true)
    /\ Db.submissions (db w') = Db.submissions d0.
Proof.
  intros I1 I2 I3 I4. unfold processIfReady.
  destruct (JS.ge _ _) eqn:Hge.
  2:{ exists acc, w. split; [reflexivity|]. split; [now left|auto]. }
  unfold try_catch, bind.
  destruct (processTaskCompletion env payout (Task.id (fst task)) w)
    as [[s|e] w1] eqn:E.
  - pose proof E as Hok. apply processTaskCompletion_ok in Hok.
    destruct Hok as (t & _ & _ & _ & Hok).
    apply settlementTransaction_ok in Hok.
    destruct Hok as (Hdb & _ & Hid & _).
    exists (acc ++ [s]), w1. split; [reflexivity|].
    split; [right; split; [exists s; auto|reflexivity]|].
    rewrite map_app. cbn [map]. rewrite Hid, Hdb.
    cbn [settled_db Db.tasks Db.submissions].
    split; [|split; [|split; [|exact I4]]].
    + unfold Prisma.replace.
      clear - I1. induction I1 as [|a b la lb Hab _ IH]; cbn [map]; constructor.
      * now apply row_after_step.
      * exact IH.
    + intros t' Ht' Hin. apply replace_In_inv in Ht'.
      destruct Ht' as (r0 & Hr0 & ->).
      destruct (N.eqb (Task.id r0) (Task.id (fst task))) eqn:E2; [reflexivity|].
      apply I2; [exact Hr0|].
      apply in_app_or in Hin. destruct Hin as [Hin|[Hin|[]]]; [exact Hin|].
      apply N.eqb_neq in E2. congruence.
    + intros k Hin. unfold has_result. cbn [settled_db Db.taskResults].
      rewrite existsb_app. apply in_app_or in Hin.
      destruct Hin as [Hin|[<-|[]]].
      * apply I3 in Hin. unfold has_result in Hin. now rewrite Hin.
      * cbn. rewrite N.eqb_refl. apply orb_true_r.
  - assert (Hdb : db w1 = db w).
    { revert E. unfold processTaskCompletion, bind.
      destruct (calculateConsensus_pure env (Task.id (fst task)) w) as [r ->].
      destruct r as [c|e0]; [|now intros [= _ <-]].
      unfold transaction.
      destruct (settlementTransaction payout _ c w) as [[s1|e1] w2];
        [discriminate|].
      now intros [= _ <-]. }
    exists acc, w1. split; [reflexivity|]. split; [now left|].
    rewrite Hdb. auto.
Qed.

Lemma processReadyTasks_loop (env : Env) (payout : Dispatcher) (d0 : Db.t)
    (l : list (Task.t * list Submission.t)) :
  Forall (fun p => In (fst p) (Db.tasks d0)
                   /\ Task.done (fst p) = false
                   /\ snd p = filter (fun s => N.eqb (Submission.task_id s)
                                                     (Task.id (fst p)))
                                     (Db.submissions d0)) l ->
  forall (acc : list Settlement) (w : World),
    Forall2 (row_after (map s_taskId acc)) (Db.tasks d0) (Db.tasks (db w)) ->
    (forall t', In t' (Db.tasks (db w)) -> In (Task.id t') (map s_taskId acc) ->
                Task.done t' = true) ->
    (forall k, In k (map s_taskId acc) -> has_result k (db w) = true) ->
    Db.submissions (db w) = Db.submissions d0 ->
    incl (map s_taskId acc) (map Task.id (filter (due d0) (Db.tasks d0))) ->
    exists acc' w',
      foldM (processIfReady env payout) l acc w = (Ok acc', w')
      /\ Forall2 (row_after (map s_taskId acc')) (Db.tasks d0) (Db.tasks (db w'))
      /\ (forall t', In t' (Db.tasks (db w')) -> In (Task.id t') (map s_taskId acc') ->
                     Task.done t' = true)
      /\ (forall k, In k (map s_taskId acc') -> has_result k (db w') = true)
      /\ Db.submissions (db w') = Db.submissions d0
      /\ incl (map s_taskId acc') (map Task.id (filter (due d0) (Db.tasks d0))).
Proof.
  induction 1 as [|p l Hp _ IH]; intros acc w I1 I2 I3 I4 I5; cbn [foldM].
  - exists acc, w. split; [reflexivity|auto].
  - unfold bind.
    destruct (processIfReady_step env payout d0 acc p w I1 I2 I3 I4)
      as (acc1 & w1 & -> & Hacc & J1 & J2 & J3 & J4).
    apply IH; try assumption.
    destruct Hacc as [->|((s & -> & Hid) & Hge)]; [exact I5|].
    rewrite map_app. cbn [map]. apply incl_app; [exact I5|].
    intros k [<-|[]]. rewrite Hid. apply in_map.
    destruct Hp as (Hin & Hd & Hs). apply filter_In. split; [exact Hin|].
    unfold due. rewrite Hd, <- Hs. exact Hge.
Qed.

Lemma Forall2_refl {A} (R : A -> A -> Prop) (l : list A) :
  (forall x, R x x) -> Forall2 R l l.
Proof. intros H. induction l; constructor; auto. Qed.

(** The loop of [processReadyTasks] attempts the settlement of the loaded
    tasks that have reached the threshold, and of no other. *)
Lemma processReadyTasks_attempts (env : Env) (payout : Dispatcher)
    (l : list (Task.t * list Submission.t)) (acc : list Settlement) (w : World) :
  foldM (processIfReady env payout) l acc w =
  (Ok (acc ++ fst (settle_each env payout
                     (map (fun p => Task.id (fst p))
                          (filter (fun p =>
                                     JS.ge (JS.div (JS.of_Z (Array.length (snd p)))
                                                   (JS.of_Z (Task.reviewCount (fst p))))
                                           ConsensusService.MINIMUM_SUBMISSIONS_THRESHOLD)
                                  l)) w)),
   snd (settle_each env payout
          (map (fun p => Task.id (fst p))
               (filter (fun p =>
                          JS.ge (JS.div (JS.of_Z (Array.length (snd p)))
                                        (JS.of_Z (Task.reviewCount (fst p))))
                                ConsensusService.MINIMUM_SUBMISSIONS_THRESHOLD)
                       l)) w)).
Proof.
  revert acc w. induction l as [|p l IH]; intros acc w; cbn [foldM filter].
  - cbn. now rewrite app_nil_r.
  - unfold bind at 1. unfold processIfReady at 1.
    destruct (JS.ge _ _); [|cbn [ret]; apply IH].
    cbn [map settle_each]. unfold try_catch, bind.
    destruct (processTaskCompletion env payout (Task.id (fst p)) w) as [[s|e] w1].
    + cbn [ret]. rewrite IH.
      destruct (settle_each env payout _ w1) as [settled w']. cbn [fst snd].
      now rewrite <- app_assoc.
    + cbn [ret]. apply IH.
Qed.

(** The tasks that are loaded and have reached the threshold are the
    tasks that are due. *)
Lemma loaded_and_ready_are_due (d : Db.t) (tasks : list Task.t) :
  map (fun p : Task.t * list Submission.t => Task.id (fst p))
      (filter (fun p =>
                 JS.ge (JS.div (JS.of_Z (Array.length (snd p)))
                               (JS.of_Z (Task.reviewCount (fst p))))
                       ConsensusService.MINIMUM_SUBMISSIONS_THRESHOLD)
              (map (fun t =>
                      (t, filter (fun s => N.eqb (Submission.task_id s) (Task.id t))
                                 (Db.submissions d)))
                   (filter (fun t => negb (Task.done t)) tasks)))
  = map Task.id (filter (due d) tasks).
Proof.
  induction tasks as [|t tasks IH]; [reflexivity|].
  cbn [filter]. unfold due at 1.
  destruct (negb (Task.done t)); cbn [andb map filter fst snd]; [|exact IH].
  destruct (JS.ge _ _); cbn [map fst]; now rewrite IH.
Qed.

(** X11: [processReadyTasks] never throws, and it attempts the settlement
    of every task that is due when it starts (not done, and at the
    threshold with the submissions loaded then), once, in the order of
    the table and each in the state that the attempts before it have
    left; it attempts no other.  What it returns are the settlements that
    returned, in that order: an attempt that throws adds nothing and does
    not stop the attempts that follow.  In the ledger afterwards each
    settled task is done and has its Result; the rows of the other tasks
    are what they were, row by row, and so are the submissions. *)
Theorem scheduled_settlement_isolates_failures (env : Env) (payout : Dispatcher)
    (w : World) :
  exists settled w',
    processReadyTasks env payout w = (Ok settled, w')
    /\ settle_each env payout
         (map Task.id (filter (due (db w)) (Db.tasks (db w)))) w = (settled, w')
    /\ incl (map s_taskId settled)
            (map Task.id (filter (due (db w)) (Db.tasks (db w))))
    /\ Forall2 (row_after (map s_taskId settled))
               (Db.tasks (db w)) (Db.tasks (db w'))
    /\ (forall t', In t' (Db.tasks (db w')) ->
                   In (Task.id t') (map s_taskId settled) ->
                   Task.done t' = true)
    /\ (forall k, In k (map s_taskId settled) -> has_result k (db w') = true)
    /\ Db.submissions (db w') = Db.submissions (db w).
Proof.
  unfold processReadyTasks, bind, read_db.
  match goal with
  | |- context [foldM _ ?l [] w] =>
      destruct (processReadyTasks_loop env payout (db w) l) with (acc := @nil Settlement) (w := w)
        as (acc' & w' & Hrun & J1 & J2 & J3 & J4 & J5)
  end.
  - apply Forall_forall. intros p Hp. apply in_map_iff in Hp.
    destruct Hp as (t & <- & Ht). apply filter_In in Ht. destruct Ht as [Ht Hd].
    cbn [fst snd]. split; [exact Ht|]. split; [|reflexivity].
    now apply negb_true_iff in Hd.
  - apply Forall2_refl. apply row_after_refl.
  - intros t' _ [].
  - intros k [].
  - reflexivity.
  - intros k [].
  - exists acc', w'. split; [exact Hrun|]. split; [|auto].
    rewrite processReadyTasks_attempts, loaded_and_ready_are_due in Hrun.
    cbn [app] in Hrun. injection Hrun as <- <-.
    now destruct (settle_each env payout _ w).
Qed.

(** Two due tasks and a dispatcher that refuses the transfers to W11:
    the settlement of the first task, which rewards W11, throws; the
    second task is settled all the same, and only it is done. *)
Lemma scheduled_settlement_isolates_failures_sample :
  exists settled w',
    processReadyTasks sample_env (refusing_dispatcher "W11") sample_two_tasks
      = (Ok settled, w')
    /\ map Task.id (filter (due (db sample_two_tasks))
                           (Db.tasks (db sample_two_tasks))) = [1; 2]%N
    /\ fst (processTaskCompletion sample_env (refusing_dispatcher "W11") 1
              sample_two_tasks) = Throw (Error "PayoutFailed")
    /\ map s_taskId settled = [2%N]
    /\ map Task.done (Db.tasks (db w')) = [false; true].
Proof.
  destruct (scheduled_settlement_isolates_failures sample_env
              (refusing_dispatcher "W11") sample_two_tasks)
    as (settled & w' & Hrun & Heach & _).
  exists settled, w'. split; [exact Hrun|].
  split; [vm_compute; reflexivity|]. split; [vm_compute; reflexivity|].
  vm_compute in Heach. injection Heach as <- <-.
  split; reflexivity.
Defined.

(* ===================================================================== *)
(** * Who is rewarded *)
(* ===================================================================== *)

Lemma NoDup_map_inj_in {A B} (f : A -> B) (l : list A) (x y : A) :
  NoDup (map f l) -> In x l -> In y l -> f x = f y -> x = y.
Proof.
  induction l as [|a l IH]; cbn; intros H Hx Hy E; [destruct Hx|].
  inversion H as [|? ? Hna Hnd]; subst.
  destruct Hx as [->|Hx], Hy as [->|Hy]; auto.
  - exfalso. apply Hna. rewrite E. now apply in_map.
  - exfalso. apply Hna. rewrite <- E. now apply in_map.
Qed.

(** The voters of an option are distinct when the voters of the task
    are. *)
Lemma voters_distinct (k : N) (subs : list Submission.t) :
  NoDup (map Submission.worker_id subs) ->
  NoDup (map Submission.worker_id (votes_for k subs)).
Proof.
  unfold votes_for. induction subs as [|s subs IH]; cbn; intros H; [constructor|].
  apply NoDup_cons_iff in H. destruct H as [Hs H].
  destruct (N.eqb (Submission.option_id s) k); cbn; [|now apply IH].
  apply NoDup_cons_iff. split; [|now apply IH].
  intros Hin. apply Hs. apply in_map_iff in Hin.
  destruct Hin as (x & E & Hx). apply filter_In in Hx.
  rewrite <- E. apply in_map. tauto.
Qed.

(** The votes of distinct voters, grouped by distinct options, are the
    votes of distinct voters. *)
Lemma NoDup_grouped (subs : list Submission.t) (ks : list N) :
  NoDup ks -> NoDup (map Submission.worker_id subs) ->
  NoDup (flat_map (fun k => map Submission.worker_id (votes_for k subs)) ks).
Proof.
  intros Hks Hsubs. induction Hks as [|k ks Hk Hnd IH]; cbn; [constructor|].
  apply NoDup_app.
  - now apply voters_distinct.
  - exact IH.
  - intros x Hx Hx'.
    apply in_map_iff in Hx. destruct Hx as (s & <- & Hs).
    apply in_flat_map in Hx'. destruct Hx' as (k' & Hk' & Hx').
    apply in_map_iff in Hx'. destruct Hx' as (s' & E & Hs').
    unfold votes_for in Hs, Hs'.
    apply filter_In in Hs. destruct Hs as [Hs Hks].
    apply filter_In in Hs'. destruct Hs' as [Hs' Hks'].
    assert (s' = s) by (eapply NoDup_map_inj_in; eauto). subst s'.
    apply N.eqb_eq in Hks, Hks'. apply Hk. congruence.
Qed.

Lemma tallied_values_ids (t : LoadedTask) :
  map vc_optionId
      (JSObject.values
         (ConsensusService.tallyVotes (submissions t)
            (ConsensusService.initVoteCounts (options t))))
  = JSObject.keys
      (ConsensusService.tallyVotes (submissions t)
         (ConsensusService.initVoteCounts (options t))).
Proof.
  set (o := ConsensusService.tallyVotes _ _).
  assert (H : forall k v, In (k, v) o -> vc_optionId v = k)
    by (intros k v H; now apply tallied_entry in H).
  unfold JSObject.values, JSObject.keys.
  induction o as [|[k v] o' IH]; cbn; [reflexivity|].
  f_equal; [apply H; now left|]. apply IH. intros; apply H; now right.
Qed.

(** The ranked options are distinct, and each of them is an option of the
    task. *)
Lemma sortedResults_ids (t : LoadedTask) :
  NoDup (map optionId (ConsensusService.sortedResults t))
  /\ (forall k, In k (map optionId (ConsensusService.sortedResults t))
                <-> In k (map Option.id (options t))).
Proof.
  rewrite (sortedResults_ranked (Array.length (submissions t)) t eq_refl).
  rewrite ranked_from_ids.
  set (o := ConsensusService.tallyVotes _ _).
  assert (Hp : Permutation (map vc_optionId (Array.sort ConsensusService.byCountDesc
                                               (JSObject.values o)))
                           (JSObject.keys o)).
  { rewrite (Permutation_map _ (sort_perm _ _)). unfold o.
    rewrite tallied_values_ids. reflexivity. }
  assert (Ho : ascending o)
    by apply tallyVotes_ascending, initVoteCounts_ascending.
  split.
  - apply (Permutation_NoDup (Permutation_sym Hp)). now apply lt_sorted_NoDup.
  - intros k. rewrite <- initVoteCounts_keys.
    rewrite <- (tallyVotes_keys (submissions t)) by apply initVoteCounts_ascending.
    fold o. split; apply Permutation_in; [exact Hp|now symmetry].
Qed.

Lemma map_flat_map_comm {A B C} (f : B -> C) (g : A -> list B) (l : list A) :
  map f (flat_map g l) = flat_map (fun x => map f (g x)) l.
Proof.
  induction l as [|x l IH]; cbn; [reflexivity|].
  now rewrite map_app, IH.
Qed.

Lemma flat_map_ext_in {A B} (f g : A -> list B) (l : list A) :
  (forall x, In x l -> f x = g x) -> flat_map f l = flat_map g l.
Proof.
  induction l as [|x l IH]; cbn; intros H; [reflexivity|].
  rewrite H by now left. rewrite IH; [reflexivity|].
  intros; apply H; now right.
Qed.

Lemma flat_map_entries_snd {A B} (h : A -> list B) (l : list A) (i : Z) :
  flat_map (fun p => h (snd p)) (Array.entries_from i l) = flat_map h l.
Proof.
  revert i. induction l as [|x l IH]; intros i; cbn; [reflexivity|].
  now rewrite IH.
Qed.

Lemma flat_map_map {A B C} (f : A -> B) (g : B -> list C) (l : list A) :
  flat_map g (map f l) = flat_map (fun x => g (f x)) l.
Proof.
  induction l as [|x l IH]; cbn; [reflexivity|]. now rewrite IH.
Qed.

Lemma firstn_In {A} (n : nat) (l : list A) (x : A) : In x (firstn n l) -> In x l.
Proof.
  revert l. induction n as [|n IH]; intros [|y l]; cbn; try tauto.
  intros [->|H]; [now left|right; now apply IH].
Qed.

(** The workers of the reward list: the voters of the first three ranked
    options, option after option. *)
Lemma rewarded_workers (env : Env) (taskId : N) (t : LoadedTask) :
  map wr_workerId (workerRewards (ConsensusService.consensusOf env taskId t)) =
  flat_map (fun k => map Submission.worker_id (votes_for k (submissions t)))
           (map optionId (firstn 3 (ConsensusService.sortedResults t))).
Proof.
  cbn [workerRewards ConsensusService.consensusOf].
  rewrite calculateWorkerRewards_flat, map_flat_map_comm.
  unfold Array.slice0, Array.entries.
  rewrite (flat_map_ext _ (fun p => voters (snd p))).
  2:{ intros p. rewrite map_map. cbn [wr_workerId]. apply map_id. }
  rewrite flat_map_entries_snd, flat_map_map.
  apply flat_map_ext_in. intros r Hr.
  apply sortedResults_voters. now apply firstn_In in Hr.
Qed.

(** X12: no worker is rewarded twice.  When no two submissions of the
    task are of the same worker, the reward list of the consensus holds
    at most one entry for a worker; every rewarded worker has a
    submission for the task, and there are at most as many rewards as
    submissions. *)
Theorem no_worker_is_rewarded_twice (env : Env) (taskId : N) (t : LoadedTask) :
  NoDup (map Submission.worker_id (submissions t)) ->
  let c := ConsensusService.consensusOf env taskId t in
  NoDup (map wr_workerId (workerRewards c))
  /\ incl (map wr_workerId (workerRewards c))
          (map Submission.worker_id (submissions t))
  /\ (List.length (workerRewards c) <= List.length (submissions t))%nat.
Proof.
  intros Hnd c. subst c.
  assert (H1 : NoDup (map wr_workerId
                        (workerRewards (ConsensusService.consensusOf env taskId t)))).
  { rewrite rewarded_workers. apply NoDup_grouped; [|exact Hnd].
    destruct (sortedResults_ids t) as [Hids _].
    rewrite <- (firstn_skipn 3 (ConsensusService.sortedResults t)), map_app in Hids.
    now apply NoDup_app_remove_r in Hids. }
  assert (H2 : incl (map wr_workerId
                       (workerRewards (ConsensusService.consensusOf env taskId t)))
                    (map Submission.worker_id (submissions t))).
  { rewrite rewarded_workers. intros x Hx.
    apply in_flat_map in Hx. destruct Hx as (k & _ & Hx).
    apply in_map_iff in Hx. destruct Hx as (s & <- & Hs).
    apply in_map. unfold votes_for in Hs. apply filter_In in Hs. tauto. }
  split; [exact H1|]. split; [exact H2|].
  rewrite <- (length_map wr_workerId), <- (length_map Submission.worker_id).
  now apply NoDup_incl_length.
Qed.

(** The two votes of the sample task are of the workers 10 and 11. *)
Lemma no_worker_is_rewarded_twice_sample :
  NoDup (map wr_workerId
           (workerRewards (ConsensusService.consensusOf sample_env 1 sample_loaded))).
Proof.
  refine (proj1 (no_worker_is_rewarded_twice sample_env 1 sample_loaded _)).
  cbn. repeat constructor; cbn; intuition discriminate.
Defined.

Lemma filter_partition {A} (p : A -> bool) (l : list A) :
  Permutation (filter p l ++ filter (fun x => negb (p x)) l) l.
Proof.
  induction l as [|x l IH]; cbn; [constructor|].
  destruct (p x); cbn.
  - now constructor.
  - rewrite <- Permutation_middle. now constructor.
Qed.

(** Votes grouped by option, for a list of distinct options that holds
    the option of every vote, are all the votes. *)
Lemma votes_grouped (ks : list N) :
  NoDup ks ->
  forall subs : list Submission.t,
    (forall s, In s subs -> In (Submission.option_id s) ks) ->
    Permutation (flat_map (fun k => votes_for k subs) ks) subs.
Proof.
  induction 1 as [|k ks Hk Hnd IH]; intros subs Hall; cbn.
  - destruct subs as [|s subs]; [constructor|]. destruct (Hall s). now left.
  - etransitivity;
      [|apply (filter_partition (fun s => N.eqb (Submission.option_id s) k) subs)].
    unfold votes_for at 1. apply Permutation_app_head.
    rewrite <- (IH (filter (fun s => negb (N.eqb (Submission.option_id s) k)) subs)).
    + apply Permutation_refl'. apply flat_map_ext_in. intros k' Hk'.
      unfold votes_for. clear - Hk Hk'.
      induction subs as [|s subs IH]; cbn; [reflexivity|].
      destruct (N.eqb (Submission.option_id s) k') eqn:E1;
        destruct (N.eqb (Submission.option_id s) k) eqn:E2; cbn;
        rewrite ?E1, IH; try reflexivity.
      apply N.eqb_eq in E1, E2. exfalso. apply Hk. congruence.
    + intros s Hs. apply filter_In in Hs. destruct Hs as [Hs Hne].
      destruct (Hall s Hs) as [E|Hin]; [|exact Hin].
      rewrite E, N.eqb_refl in Hne. discriminate.
Qed.

(** X13: with at most three options, every vote is rewarded.  When the
    task has at most three options and every submission votes for one of
    them, the workers of the reward list are the workers of the
    submissions, each as often as it has submissions: no vote is left
    without a reward, since every option is among the first three. *)
Theorem every_vote_is_rewarded_up_to_three_options (env : Env) (taskId : N)
    (t : LoadedTask) :
  (List.length (options t) <= 3)%nat ->
  (forall s, In s (submissions t) ->
             In (Submission.option_id s) (map Option.id (options t))) ->
  Permutation
    (map wr_workerId (workerRewards (ConsensusService.consensusOf env taskId t)))
    (map Submission.worker_id (submissions t)).
Proof.
  intros Hlen Hvalid. rewrite rewarded_workers.
  destruct (sortedResults_ids t) as [Hnd Hids].
  assert (Hle : (List.length (ConsensusService.sortedResults t) <= 3)%nat).
  { rewrite <- (length_map optionId).
    etransitivity; [|exact Hlen]. rewrite <- (length_map Option.id).
    apply NoDup_incl_length; [exact Hnd|]. intros k. apply Hids. }
  rewrite firstn_all2 by exact Hle.
  rewrite <- map_flat_map_comm. apply Permutation_map.
  apply votes_grouped; [exact Hnd|].
  intros s Hs. apply Hids. now apply Hvalid.
Qed.

(** The sample task has two options, and both voters are rewarded. *)
Lemma every_vote_is_rewarded_up_to_three_options_sample :
  Permutation
    (map wr_workerId
         (workerRewards (ConsensusService.consensusOf sample_env 1 sample_loaded)))
    [10%N; 11%N].
Proof.
  apply (every_vote_is_rewarded_up_to_three_options sample_env 1 sample_loaded).
  - simpl. lia.
  - intros s Hs. simpl in Hs. simpl.
    destruct Hs as [<-|[<-|[]]]; simpl; auto.
Defined.

(* ===================================================================== *)
(** * Binary64 arithmetic: the floor of a quotient of integers *)
(* ===================================================================== *)

(** The quotient of two positive integers below 2^53: a mantissa [m] of
    53 bits and an exponent [E <= 0], with [m * 2^E] within half a unit
    of the last place of [c / T]. *)
Lemma div_error_any (c T : Z) :
  0 < c < 2 ^ 53 -> 0 < T < 2 ^ 53 ->
  exists m E,
    JS.div (JS.of_Z c) (JS.of_Z T) = round53 false m E
    /\ 2 ^ 52 <= m <= 2 ^ 53
    /\ -105 <= E <= 0
    /\ 2 * Z.abs (m * T - c * 2 ^ (- E)) <= T
    /\ 2 ^ 52 * T <= c * 2 ^ (- E).
Proof.
  intros Hc HT.
  destruct (of_Z_pos c ltac:(lia)) as (-> & Hmx & Hdc).
  destruct (of_Z_pos T ltac:(lia)) as (-> & Hmy & Hdr).
  set (dc := Zdigits2 c) in *. set (dr := Zdigits2 T) in *.
  set (sc := 2 ^ (53 - dc)) in *. set (sr := 2 ^ (53 - dr)) in *.
  assert (Hsc : 0 < sc) by (apply Z.pow_pos_nonneg; lia).
  assert (Hsr : 0 < sr) by (apply Z.pow_pos_nonneg; lia).
  rewrite div_normal by (rewrite ?Z2Pos.id by lia; lia).
  rewrite !Z2Pos.id by lia.
  destruct (quotient_bounds (c * sc) (T * sr) Hmx Hmy) as (E & R & Q & QA).
  set (q := c * sc * 2 ^ 53 / (T * sr)) in *.
  set (rem := (c * sc * 2 ^ 53) mod (T * sr)) in *.
  replace (dc - 53 - (dr - 53) - 53) with (dc - dr - 53) by lia.
  destruct (Z_lt_ge_dec q (2 ^ 53)) as [A|B].
  - rewrite bra53 by lia.
    exists (round_nearest_even q (new_location (T * sr) rem)), (dc - dr - 53).
    split; [reflexivity|].
    split; [destruct (rne_bounds q (new_location (T * sr) rem)) as [-> | ->]; lia|].
    split; [lia|].
    pose proof (rne_error q rem (T * sr) _ ltac:(lia) E R) as Herr.
    set (m := round_nearest_even q (new_location (T * sr) rem)) in *.
    replace (- (dc - dr - 53)) with (53 + dr - dc) by lia.
    set (W := 2 ^ (53 + dr - dc)).
    assert (HW : W * sr = sc * 2 ^ 53).
    { unfold W, sr, sc. rewrite <- !Z.pow_add_r by lia. f_equal. lia. }
    assert (HN : c * sc * 2 ^ 53 = c * W * sr) by (rewrite <- Z.mul_assoc, <- HW; ring).
    rewrite HN in Herr, E.
    replace (m * (T * sr) - c * W * sr) with ((m * T - c * W) * sr) in Herr by ring.
    rewrite Z.abs_mul, (Z.abs_eq sr) in Herr by lia.
    split; [nia|].
    pose proof (mul_le_r (2 ^ 52) q (T * sr) ltac:(lia) ltac:(lia)). nia.
  - rewrite bra54 by lia.
    match goal with |- context [round53 false ?a ?b] => exists a, b end.
    split; [reflexivity|].
    assert (Hh : 2 ^ 52 <= q / 2 < 2 ^ 53).
    { split; [apply Z.div_le_lower_bound; lia|apply Z.div_lt_upper_bound; lia]. }
    split; [match goal with |- _ <= round_nearest_even ?a ?b <= _ =>
              destruct (rne_bounds a b) as [-> | ->]; lia end|].
    split; [lia|].
    pose proof (rne_error_shift q rem (T * sr) _ ltac:(lia) E R ltac:(lia)) as Herr.
    match type of Herr with Z.abs (?a * _ - _) <= _ => set (m := a) in * end.
    replace (- (dc - dr - 53 + 1)) with (52 + dr - dc) by lia.
    set (W := 2 ^ (52 + dr - dc)).
    assert (HW : 2 * W * sr = sc * 2 ^ 53).
    { unfold W, sr, sc. change 2 with (2 ^ 1) at 1.
      rewrite <- !Z.pow_add_r by lia. f_equal. lia. }
    assert (HN : c * sc * 2 ^ 53 = 2 * c * W * sr).
    { replace (2 * c * W * sr) with (c * (2 * W * sr)) by ring. rewrite HW. ring. }
    rewrite HN in Herr, E.
    replace (m * (2 * (T * sr)) - 2 * c * W * sr) with ((m * T - c * W) * (2 * sr))
      in Herr by ring.
    rewrite Z.abs_mul, (Z.abs_eq (2 * sr)) in Herr by lia.
    split; [nia|].
    pose proof (mul_le_r (2 ^ 53) q (T * sr) ltac:(lia) ltac:(lia)). nia.
Qed.

Lemma floor_finite (m : positive) (e : Z) :
  e < 0 -> Zpos m < 2 ^ 53 ->
  JS.to_Z (JS.Math_floor (S754_finite false m e)) = Some (Zpos m / 2 ^ (- e)).
Proof.
  intros He Hm. unfold JS.Math_floor.
  replace (0 <=? e) with false by (symmetry; apply Z.leb_gt; lia).
  rewrite Z.shiftr_div_pow2 by lia.
  assert (Hp : 0 < 2 ^ (- e)) by (apply Z.pow_pos_nonneg; lia).
  apply to_Z_of_Z. split.
  - apply Z.div_pos; lia.
  - apply Z.div_lt_upper_bound; nia.
Qed.

Lemma floor_round53 (m E : Z) :
  2 ^ 52 <= m <= 2 ^ 53 -> -105 <= E <= 0 -> (m = 2 ^ 53 -> E < 0) ->
  JS.to_Z (JS.Math_floor (round53 false m E)) = Some (m / 2 ^ (- E)).
Proof.
  intros Hm HE Hcarry. unfold round53.
  destruct (m <? 2 ^ 53) eqn:Elt.
  - apply Z.ltb_lt in Elt.
    destruct (Z.eq_dec E 0) as [->|HE0].
    + cbn [JS.Math_floor Z.leb Z.compare JS.to_Z].
      rewrite Z.shiftl_0_r, Z2Pos.id by lia. change (2 ^ (- 0)) with 1.
      now rewrite Z.div_1_r.
    + rewrite floor_finite by (rewrite ?Z2Pos.id; lia).
      rewrite Z2Pos.id by lia. reflexivity.
  - apply Z.ltb_ge in Elt. assert (m = 2 ^ 53) by lia. subst m.
    specialize (Hcarry eq_refl).
    destruct (Z.eq_dec (E + 1) 0) as [E1|E1].
    + rewrite E1. replace E with (-1) by lia. reflexivity.
    + rewrite floor_finite by (try reflexivity; lia).
      f_equal. change (Zpos (Z.to_pos (2 ^ 52))) with (2 ^ 52).
      replace (- E) with (1 + - (E + 1)) by lia.
      rewrite Z.pow_add_r by lia. change (2 ^ 53) with (2 ^ 1 * 2 ^ 52).
      rewrite Z.div_mul_cancel_l; try lia.
      all: try (apply Z.pow_nonzero; lia).
Qed.

(** The floor of the binary64 quotient of two integers below 2^53 is
    their integer quotient: the rounding of the division never reaches
    the next integer. *)
Lemma floor_div (c T : Z) :
  0 <= c < 2 ^ 53 -> 0 < T < 2 ^ 53 ->
  JS.to_Z (JS.Math_floor (JS.div (JS.of_Z c) (JS.of_Z T))) = Some (c / T).
Proof.
  intros Hc HT. destruct (Z.eq_dec c 0) as [->|Hne].
  { destruct (of_Z_pos T ltac:(lia)) as (-> & _ & _). reflexivity. }
  destruct (div_error_any c T ltac:(lia) HT) as (m & E & -> & Hm & HE & Herr & Hlow).
  set (W := 2 ^ (- E)) in *.
  assert (HW : 0 < W) by (apply Z.pow_pos_nonneg; lia).
  assert (HTW : T < 2 * W) by nia.
  rewrite floor_round53; try assumption.
  2:{ intros ->. destruct (Z.eq_dec E 0) as [->|]; [|lia].
      exfalso. change (2 ^ (- 0)) with 1 in W. subst W. lia. }
  fold W. f_equal.
  pose proof (Z.div_mod c T ltac:(lia)) as D.
  pose proof (Z.mod_pos_bound c T ltac:(lia)) as B.
  set (k := c / T) in *. set (r := c mod T) in *.
  assert (Hc1 : T * k <= c < T * (k + 1)) by lia.
  assert (Hlo : - T <= 2 * (m * T - c * W)) by lia.
  assert (Hhi : 2 * (m * T - c * W) <= T) by lia.
  symmetry. apply Z.div_unique with (r := m - k * W); [|lia].
  left. split.
  - destruct (Z_le_gt_dec (k * W) m) as [|Hgt]; [lia|exfalso].
    assert (m + 1 <= k * W) by lia.
    assert ((m + 1) * T <= k * W * T) by (apply Z.mul_le_mono_nonneg_r; lia).
    assert (T * k * W <= c * W) by (apply Z.mul_le_mono_nonneg_r; lia).
    lia.
  - destruct (Z_lt_ge_dec (m - k * W) W) as [|Hge]; [lia|exfalso].
    assert ((k + 1) * W <= m) by lia.
    assert ((k + 1) * W * T <= m * T) by (apply Z.mul_le_mono_nonneg_r; lia).
    assert (c + 1 <= T * (k + 1)) by lia.
    assert ((c + 1) * W <= T * (k + 1) * W) by (apply Z.mul_le_mono_nonneg_r; lia).
    lia.
Qed.

(** X14: the provisional reward of a submission,
    [Math.floor(task.amount / task.reviewCount)], is the integer quotient
    of the amount by the review count, whenever both are below 2^53: the
    rounding of the binary64 division never changes the floor.  So the
    provisional rewards of [reviewCount] submissions never exceed the
    amount of the task, and fall short of it by less than [reviewCount].
    For a review count of 0 the quotient is Infinity or NaN, which is no
    integer. *)
Theorem provisional_reward_is_the_integer_quotient (t : Task.t) :
  0 <= Task.amount t < 2 ^ 53 ->
  0 <= Task.reviewCount t < 2 ^ 53 ->
  JS.to_Z (baseRewardOf t) =
    (if Task.reviewCount t =? 0 then None
     else Some (Task.amount t / Task.reviewCount t))
  /\ (Task.reviewCount t <> 0 ->
      Task.amount t - Task.reviewCount t
        < (Task.amount t / Task.reviewCount t) * Task.reviewCount t
        <= Task.amount t).
Proof.
  intros Ha Hr. unfold baseRewardOf. split.
  - destruct (Z.eqb_spec (Task.reviewCount t) 0) as [->|Hne].
    + destruct (Z.eq_dec (Task.amount t) 0) as [->|Hne]; [reflexivity|].
      destruct (of_Z_pos (Task.amount t) ltac:(lia)) as (-> & _ & _). reflexivity.
    + apply floor_div; lia.
  - intros Hne.
    pose proof (Z.div_mod (Task.amount t) (Task.reviewCount t) Hne) as D.
    pose proof (Z.mod_pos_bound (Task.amount t) (Task.reviewCount t) ltac:(lia)) as B.
    lia.
Qed.

(** The sample task: 1000 lamports for 2 reviews, 500 for a submission. *)
Lemma provisional_reward_is_the_integer_quotient_sample :
  JS.to_Z (baseRewardOf sample_task) = Some 500.
Proof.
  refine (proj1 (provisional_reward_is_the_integer_quotient sample_task _ _)).
  - simpl. lia.
  - simpl. lia.
Defined.

(* ===================================================================== *)
(** * The pricing tiers *)
(* ===================================================================== *)

(** X15: the validation helper and the pricing oracle agree on the
    tiers.  [validateServicePrice] returns true exactly for the pairs that
    [getServicePrice] has a configured entry for, false for the others,
    and throws a TypeError exactly for the categories that name a property
    inherited from [Object.prototype]; for these, as for every pair
    without an entry, [getServicePrice] returns 0. *)
Theorem validation_agrees_with_the_pricing_table (env : Env)
    (serviceType : string) (reviewCount : Z) :
  match validateServicePrice serviceType reviewCount with
  | Ok b =>
      b = match SolanaService.price_entry env serviceType reviewCount with
          | Some _ => true
          | None => false
          end
      /\ existsb (String.eqb serviceType) Object_prototype = false
  | Throw e =>
      e = TypeError
      /\ existsb (String.eqb serviceType) Object_prototype = true
      /\ SolanaService.getServicePrice env serviceType reviewCount = JS.zero
  end.
Proof.
  unfold validateServicePrice, SolanaService.getServicePrice,
    SolanaService.price_entry, validCombinations, SolanaService.priceMap.
  cbn [SolanaService.prop_string].
  destruct (String.eqb serviceType "MARKETING_IMAGES") eqn:E1.
  { apply string_eqb_true in E1. subst serviceType.
    cbn [existsb SolanaService.prop_int].
    destruct (reviewCount =? 200); [split; reflexivity|].
    destruct (reviewCount =? 500); split; reflexivity. }
  destruct (String.eqb serviceType "YOUTUBE_THUMBNAILS") eqn:E2.
  { apply string_eqb_true in E2. subst serviceType.
    cbn [existsb SolanaService.prop_int].
    destruct (reviewCount =? 200); [split; reflexivity|].
    destruct (reviewCount =? 500); split; reflexivity. }
  destruct (String.eqb serviceType "VIDEOS") eqn:E3.
  { apply string_eqb_true in E3. subst serviceType.
    cbn [existsb SolanaService.prop_int].
    destruct (reviewCount =? 100); [split; reflexivity|].
    destruct (reviewCount =? 300); split; reflexivity. }
  destruct (existsb (String.eqb serviceType) Object_prototype); repeat split.
Qed.

(* ===================================================================== *)
(** * The statistics of a worker *)
(* ===================================================================== *)

Lemma existsb_filter {A} (p : A -> bool) (l : list A) :
  existsb p l = match filter p l with [] => false | _ :: _ => true end.
Proof.
  induction l as [|x l IH]; cbn; [reflexivity|].
  destruct (p x); [reflexivity|exact IH].
Qed.

(** One round of the loop of [getWorkerStats], for a submission whose
    task is in the ledger. *)
Lemma countSubmission_run (d : Db.t) (counts : Tally) (s : Submission.t) (w : World) :
  Prisma.lookup Task.id (Submission.task_id s) (Db.tasks d) <> None ->
  countSubmission d counts s w =
  (Ok {| correctSubmissions :=
           correctSubmissions counts
           + (if is_completed d s && in_top_three d s then 1 else 0);
         totalCompletedSubmissions :=
           totalCompletedSubmissions counts
           + (if is_completed d s then 1 else 0) |}, w).
Proof.
  intros Ht. unfold countSubmission, is_completed, in_top_three.
  destruct (Prisma.lookup Task.id (Submission.task_id s) (Db.tasks d)) as [task|];
    [|now elim Ht].
  rewrite existsb_filter.
  destruct counts as [c n]. cbn [correctSubmissions totalCompletedSubmissions].
  destruct (filter _ (Db.taskResults d)) as [|first rest].
  - rewrite !andb_false_r. cbn [andb]. unfold ret. do 2 f_equal. f_equal; lia.
  - destruct (Task.done task); cbn [andb]; unfold ret.
    + destruct (find _ _) as [r|].
      * destruct (OptionResult.rank r <=? 3); do 2 f_equal; f_equal; lia.
      * do 2 f_equal. f_equal; lia.
    + do 2 f_equal. f_equal; lia.
Qed.

Lemma countSubmissions_run (d : Db.t) (subs : list Submission.t) (counts : Tally)
    (w : World) :
  (forall s, In s subs ->
             Prisma.lookup Task.id (Submission.task_id s) (Db.tasks d) <> None) ->
  foldM (countSubmission d) subs counts w =
  (Ok {| correctSubmissions :=
           correctSubmissions counts
           + Array.length (filter (fun s => is_completed d s && in_top_three d s) subs);
         totalCompletedSubmissions :=
           totalCompletedSubmissions counts
           + Array.length (filter (is_completed d) subs) |}, w).
Proof.
  revert counts. induction subs as [|s subs IH]; intros counts Hfk; cbn [foldM filter].
  - destruct counts as [c n]. unfold ret, Array.length. cbn.
    do 2 f_equal. f_equal; lia.
  - unfold bind. rewrite countSubmission_run by (apply Hfk; now left).
    rewrite IH by (intros; apply Hfk; now right).
    cbn [correctSubmissions totalCompletedSubmissions].
    do 2 f_equal. unfold Array.length.
    destruct (is_completed d s); cbn [andb]; [destruct (in_top_three d s)|];
      cbn [List.length]; f_equal; lia.
Qed.

(** A positive integer below 2^53 divided by itself is 1. *)
Lemma div_self (c : Z) :
  0 < c < 2 ^ 53 -> JS.div (JS.of_Z c) (JS.of_Z c) = JS.of_Z 1.
Proof.
  intros Hc.
  destruct (div_error c c ltac:(lia) ltac:(lia)) as (m & E & -> & Hm & HE & Herr & _).
  assert (HW : 0 < 2 ^ (- E)) by (apply Z.pow_pos_nonneg; lia).
  assert (Em : m = 2 ^ (- E)).
  { replace (m * c - c * 2 ^ (- E)) with ((m - 2 ^ (- E)) * c) in Herr by ring.
    rewrite Z.abs_mul, (Z.abs_eq c) in Herr by lia.
    assert (Z.abs (m - 2 ^ (- E)) = 0); [|lia].
    destruct (Z.eq_dec (Z.abs (m - 2 ^ (- E))) 0) as [|Hne]; [assumption|exfalso].
    assert (1 <= Z.abs (m - 2 ^ (- E))) by lia. nia. }
  assert (HE' : - E = 52 \/ - E = 53).
  { destruct (Z_le_gt_dec (- E) 53) as [H1|H1].
    - destruct (Z_le_gt_dec 52 (- E)) as [H2|H2]; [lia|].
      pose proof (pow2_le (- E) 51 ltac:(lia)).
      change (2 ^ 51) with 2251799813685248 in *. change (2 ^ 52) with 4503599627370496 in *.
      lia.
    - pose proof (pow2_le 54 (- E) ltac:(lia)).
      change (2 ^ 54) with 18014398509481984 in *. change (2 ^ 53) with 9007199254740992 in *.
      lia. }
  destruct HE' as [H|H].
  - replace E with (-52) in * by lia. subst m. reflexivity.
  - replace E with (-53) in * by lia. subst m. reflexivity.
Qed.

(** X16: [getWorkerStats] writes nothing.  It throws "Worker not found"
    for a missing worker.  Otherwise it returns the balances of the
    worker, the number of the submissions of the worker, and the number
    of those whose task is done and has a Result, which is at most the
    former; the accuracy is 0 when there is no such submission, and 100
    when the option of every such submission is ranked among the first
    three.  (The task of every submission of the worker is in the ledger,
    and the ledger has fewer than 2^53 submissions.) *)
Theorem worker_stats_count_completed_submissions (workerId : N) (w : World) :
  (forall s, In s (submissions_of workerId (db w)) ->
             Prisma.lookup Task.id (Submission.task_id s) (Db.tasks (db w)) <> None) ->
  Z.of_nat (List.length (Db.submissions (db w))) < 2 ^ 53 ->
  match Prisma.lookup Worker.id workerId (Db.workers (db w)) with
  | None => getWorkerStats workerId w = (Throw (Error "Worker not found"), w)
  | Some worker =>
      exists st,
        getWorkerStats workerId w = (Ok st, w)
        /\ ws_totalEarned st = Worker.total_earned worker
        /\ ws_pendingAmount st = Worker.pending_amount worker
        /\ ws_lockedAmount st = Worker.locked_amount worker
        /\ ws_tasksCompleted st = Worker.tasks_completed worker
        /\ ws_totalSubmissions st = Array.length (submissions_of workerId (db w))
        /\ ws_completedSubmissions st =
           Array.length (filter (is_completed (db w)) (submissions_of workerId (db w)))
        /\ 0 <= ws_completedSubmissions st <= ws_totalSubmissions st
        /\ (ws_completedSubmissions st = 0 -> ws_accuracy st = JS.zero)
        /\ (0 < ws_completedSubmissions st ->
            (forall s, In s (submissions_of workerId (db w)) ->
                       is_completed (db w) s = true ->
                       in_top_three (db w) s = true) ->
            ws_accuracy st = JS.of_Z 100)
  end.
Proof.
  intros Hfk Hsize. unfold getWorkerStats, bind, read_db.
  destruct (Prisma.lookup Worker.id workerId (Db.workers (db w))) as [worker|] eqn:Hw;
    [|reflexivity].
  destruct (lookup_key _ _ _ _ Hw) as [Hid _]. rewrite Hid.
  fold (submissions_of workerId (db w)).
  set (subs := submissions_of workerId (db w)) in *.
  rewrite countSubmissions_run by exact Hfk.
  cbn [correctSubmissions totalCompletedSubmissions ret Z.add].
  set (n := Array.length (filter (is_completed (db w)) subs)).
  set (c := Array.length
              (filter (fun s => is_completed (db w) s && in_top_three (db w) s) subs)).
  assert (Hn : 0 <= n <= Array.length subs).
  { unfold n, Array.length.
    pose proof (filter_length_le (is_completed (db w)) subs). lia. }
  assert (Hsubs : Array.length subs < 2 ^ 53).
  { unfold subs, submissions_of, Array.length.
    pose proof (filter_length_le
                  (fun s => N.eqb (Submission.worker_id s) workerId)
                  (Db.submissions (db w))). lia. }
  eexists. split; [reflexivity|].
  cbn [ws_totalEarned ws_pendingAmount ws_lockedAmount ws_tasksCompleted
       ws_totalSubmissions ws_completedSubmissions ws_accuracy].
  repeat (split; [reflexivity|]). split; [exact Hn|]. split.
  - intros ->. reflexivity.
  - intros Hpos Hall.
    replace (0 <? n) with true by (symmetry; apply Z.ltb_lt; exact Hpos).
    assert (Ec : c = n).
    { unfold c, n. f_equal. apply filter_ext_in. intros s Hs.
      destruct (is_completed (db w) s) eqn:E; [|reflexivity].
      now rewrite (Hall s Hs E). }
    rewrite Ec, div_self by lia. reflexivity.
Qed.

(** After the settlement of the sample task the worker 10, whose option
    is ranked second, has one completed submission and the accuracy
    100. *)
Lemma worker_stats_count_completed_submissions_sample :
  let w' := snd (processTaskCompletion sample_env accepting_dispatcher 1 sample_world) in
  exists st,
    getWorkerStats 10 w' = (Ok st, w')
    /\ ws_completedSubmissions st = 1
    /\ ws_accuracy st = JS.of_Z 100.
Proof.
  intros w'.
  assert (Hsubs : submissions_of 10 (db w') =
                  [ {| Submission.id := 1; Submission.option_id := 2;
                       Submission.worker_id := 10; Submission.task_id := 1;
                       Submission.amount := 500 |} ])
    by (vm_compute; reflexivity).
  pose proof (worker_stats_count_completed_submissions 10 w') as H.
  destruct (Prisma.lookup Worker.id 10 (Db.workers (db w'))) as [worker|] eqn:Hw.
  - destruct H as (st & Hrun & _ & _ & _ & _ & _ & Hn & _ & _ & Hacc).
    + intros s Hs. rewrite Hsubs in Hs. destruct Hs as [<-|[]].
      vm_compute. discriminate.
    + vm_compute. reflexivity.
    + exists st. split; [exact Hrun|].
      assert (Hn1 : ws_completedSubmissions st = 1)
        by (rewrite Hn, Hsubs; vm_compute; reflexivity).
      split; [exact Hn1|]. apply Hacc.
      * rewrite Hn1. reflexivity.
      * intros s Hs _. rewrite Hsubs in Hs. destruct Hs as [<-|[]].
        vm_compute. reflexivity.
  - vm_compute in Hw. discriminate Hw.
Defined.

(* ===================================================================== *)
(** * The statistics of a task *)
(* ===================================================================== *)

Lemma map_values_set {A B} (f : A -> B) (k : N) (v : A) (o : JSObject.t A) :
  JSObject.set k (f v) (map_values f o) = map_values f (JSObject.set k v o).
Proof.
  unfold map_values. induction o as [|[k' v'] o IH]; cbn; [reflexivity|].
  destruct (N.eqb k k'); [reflexivity|].
  destruct (N.ltb k k'); [reflexivity|]. cbn. now rewrite IH.
Qed.

Lemma map_values_get {A B} (f : A -> B) (k : N) (o : JSObject.t A) :
  JSObject.get (map_values f o) k = option_map f (JSObject.get o k).
Proof.
  unfold map_values. induction o as [|[k' v'] o IH]; cbn; [reflexivity|].
  destruct (N.eqb k k'); [reflexivity|exact IH].
Qed.

Lemma map_values_keys {A B} (f : A -> B) (o : JSObject.t A) :
  JSObject.keys (map_values f o) = JSObject.keys o.
Proof.
  unfold map_values, JSObject.keys. rewrite map_map. reflexivity.
Qed.

(** The statistics count what the consensus counts. *)
Lemma counted_stats (t : LoadedTask) :
  fold_left countVote (submissions t) (initStats (options t)) =
  map_values stat_of
    (ConsensusService.tallyVotes (submissions t)
       (ConsensusService.initVoteCounts (options t))).
Proof.
  unfold ConsensusService.tallyVotes, ConsensusService.initVoteCounts, initStats.
  assert (Hinit : forall opts acc,
            fold_left
              (fun submissionStats o =>
                 JSObject.set (Option.id o)
                   {| os_count := 0; os_percentage := JS.zero; os_option := o |}
                   submissionStats) opts (map_values stat_of acc) =
            map_values stat_of
              (fold_left
                 (fun voteCounts o =>
                    JSObject.set (Option.id o)
                      {| vc_optionId := Option.id o; vc_count := 0;
                         vc_voters := []; vc_option := o |} voteCounts) opts acc)).
  { induction opts as [|o opts IH]; intros acc; cbn [fold_left]; [reflexivity|].
    rewrite <- IH. f_equal.
    exact (map_values_set stat_of (Option.id o)
             {| vc_optionId := Option.id o; vc_count := 0;
                vc_voters := []; vc_option := o |} acc). }
  change (@nil (N * OptionStat)) with (map_values stat_of []).
  rewrite (Hinit (options t) []).
  generalize (fold_left
                (fun voteCounts o =>
                   JSObject.set (Option.id o)
                     {| vc_optionId := Option.id o; vc_count := 0;
                        vc_voters := []; vc_option := o |} voteCounts)
                (options t) []).
  induction (submissions t) as [|s subs IH]; intros o; cbn [fold_left]; [reflexivity|].
  rewrite <- IH. f_equal.
  unfold countVote, ConsensusService.tallyVote. rewrite map_values_get.
  destruct (JSObject.get o (Submission.option_id s)) as [v|]; cbn [option_map];
    [|reflexivity].
  exact (map_values_set stat_of (Submission.option_id s)
           {| vc_optionId := vc_optionId v;
              vc_count := vc_count v + 1;
              vc_voters := vc_voters v ++ [Submission.worker_id s];
              vc_option := vc_option v |} o).
Qed.

(** X17: the statistics of a task in the user route agree with the
    consensus.  Their keys are the options of the task, in ascending
    order of the ids; for every ranked option of the consensus, the entry
    of that option has the vote count of the consensus, and its
    percentage is the percentage of the consensus when the task has a
    submission, and 0 (not NaN) when it has none. *)
Theorem task_statistics_agree_with_the_consensus (env : Env) (taskId : N)
    (t : LoadedTask) :
  ascending (submissionStats t)
  /\ (forall k, In k (JSObject.keys (submissionStats t))
                <-> In k (map Option.id (options t)))
  /\ (forall r, In r (results (ConsensusService.consensusOf env taskId t)) ->
        exists stat,
          JSObject.get (submissionStats t) (optionId r) = Some stat
          /\ os_count stat = count r
          /\ os_count stat =
             Z.of_nat (List.length (votes_for (optionId r) (submissions t)))
          /\ os_percentage stat =
             (if 0 <? Array.length (submissions t) then percentage r else JS.zero)).
Proof.
  assert (E : submissionStats t =
              map_values
                (fun v =>
                   {| os_count := vc_count v;
                      os_percentage :=
                        if 0 <? Array.length (submissions t)
                        then pct (Array.length (submissions t)) (vc_count v)
                        else JS.zero;
                      os_option := vc_option v |})
                (ConsensusService.tallyVotes (submissions t)
                   (ConsensusService.initVoteCounts (options t)))).
  { unfold submissionStats. cbn zeta. rewrite counted_stats.
    unfold map_values. rewrite map_map. reflexivity. }
  rewrite E. set (o := ConsensusService.tallyVotes _ _).
  assert (Ho : ascending o)
    by apply tallyVotes_ascending, initVoteCounts_ascending.
  split; [|split].
  - unfold ascending. now rewrite map_values_keys.
  - intros k. rewrite map_values_keys. unfold o.
    rewrite tallyVotes_keys by apply initVoteCounts_ascending.
    apply initVoteCounts_keys.
  - cbn [results ConsensusService.consensusOf]. intros r Hr.
    pose proof (sortedResults_count t r Hr) as Hc.
    pose proof (proj1 (Forall_forall _ _) (sortedResults_percentage t) r Hr) as Hp.
    rewrite (sortedResults_ranked (Array.length (submissions t)) t eq_refl) in Hr.
    destruct (ranked_from_origin _ _ _ _ Hr) as (x & Hx & E1 & E2 & _).
    apply sort_In in Hx. unfold JSObject.values in Hx.
    apply in_map_iff in Hx. destruct Hx as ([k v] & <- & Hx). cbn [snd] in *.
    pose proof (tallied_entry t k v Hx) as (Hk & _).
    rewrite map_values_get, E1, Hk.
    rewrite (ascending_In_get o k v Ho Hx). cbn [option_map].
    eexists. split; [reflexivity|]. cbn [os_count os_percentage].
    split; [now rewrite E2|]. split; [rewrite <- E2, Hc, E1, Hk; reflexivity|].
    rewrite Hp, E2. reflexivity.
Qed.

(* ===================================================================== *)
(** * When a settlement returns *)
(* ===================================================================== *)

Lemma lookup_replace_some {A} (key : A -> N) (k k' : N) (f : A -> A) (rows : list A) :
  (forall r, key (f r) = key r) ->
  Prisma.lookup key k rows <> None ->
  Prisma.lookup key k (Prisma.replace key k' f rows) <> None.
Proof.
  intros Hk H. rewrite lookup_replace by exact Hk.
  destruct (Prisma.lookup key k rows); [discriminate|contradiction].
Qed.

Lemma fits_Int_spec (z : Z) :
  Prisma.fits_Int z = true <-> -2147483648 <= z <= 2147483647.
Proof.
  unfold Prisma.fits_Int. rewrite andb_true_iff, !Z.leb_le. tauto.
Qed.

Lemma balances_fit_spec (w0 : Worker.t) :
  balances_fit w0 = true <->
  (-2147483648 <= Worker.pending_amount w0 <= 2147483647)
  /\ (-2147483648 <= Worker.total_earned w0 <= 2147483647)
  /\ (-2147483648 <= Worker.tasks_completed w0 <= 2147483647).
Proof.
  unfold balances_fit. rewrite !andb_true_iff, !fits_Int_spec. tauto.
Qed.

Lemma payable_amount (r : WorkerReward) :
  payable r -> JS.to_Z (wr_amount r) = Some (amount_of r)
               /\ 0 <= amount_of r <= 2147483647.
Proof.
  intros (a & Ha & Hr). unfold amount_of. rewrite Ha. auto.
Qed.

Lemma sum_amounts_nonneg (rewards : list WorkerReward) :
  Forall payable rewards -> 0 <= sum_Z (map amount_of rewards).
Proof.
  induction 1 as [|r rewards Hr _ IH]; [cbn; lia|].
  cbn [map]. change (sum_Z (?x :: ?l)) with (x + sum_Z l).
  apply payable_amount in Hr. lia.
Qed.

Lemma rewards_of_payable (k : N) (rewards : list WorkerReward) :
  Forall payable rewards -> Forall payable (rewards_of k rewards).
Proof.
  intros H. apply Forall_forall. intros r Hr.
  apply filter_In in Hr. destruct Hr as [Hr _].
  exact (proj1 (Forall_forall _ _) H r Hr).
Qed.

(** The row of a worker after one credit and the rest of the rewards is
    the row after all of them. *)
Lemma settled_worker_step (r : WorkerReward) (rewards : list WorkerReward)
    (w0 : Worker.t) :
  settled_worker rewards
    (if N.eqb (Worker.id w0) (wr_workerId r) then credit (amount_of r) w0 else w0)
  = settled_worker (r :: rewards) w0.
Proof.
  unfold settled_worker, rewards_of. cbn [filter].
  rewrite (N.eqb_sym (wr_workerId r) (Worker.id w0)).
  destruct (N.eqb (Worker.id w0) (wr_workerId r)); [|reflexivity].
  cbn [credit Worker.id Worker.address Worker.pending_amount
       Worker.locked_amount Worker.total_earned Worker.tasks_completed
       map List.length].
  change (sum_Z (?x :: ?l)) with (x + sum_Z l).
  f_equal; lia.
Qed.

(** The reward loop returns when no reward is negative, every rewarded
    worker is in the ledger, the columns to credit hold values of their
    range before and after all the credits, and the dispatcher accepts
    every transfer. *)
Lemma rewards_loop_returns (payout : Dispatcher) (rewards : list WorkerReward) :
  (forall address amount n, exists sig n', payout address amount n = (Ok sig, n')) ->
  Forall payable rewards ->
  forall (acc : list RewardTransaction) (w : World),
    Forall (fun r => Prisma.lookup Worker.id (wr_workerId r) (Db.workers (db w)) <> None)
           rewards ->
    Forall (fun w0 => balances_fit w0 = true
                      /\ balances_fit (settled_worker rewards w0) = true)
           (Db.workers (db w)) ->
    exists acc' w', foldM (distributeReward payout) rewards acc w = (Ok acc', w').
Proof.
  intros Hpay. induction 1 as [|r rewards Hr Hrs IH]; intros acc w Hws Hfit; cbn [foldM].
  - do 2 eexists. reflexivity.
  - inversion Hws as [|? ? Hw Hws']; subst. unfold bind.
    destruct (payable_amount r Hr) as [Ha Hr0].
    assert (Hstep : exists acc1 w1,
               distributeReward payout acc r w = (Ok acc1, w1)
               /\ Db.workers (db w1) =
                  Prisma.replace Worker.id (wr_workerId r) (credit (amount_of r))
                    (Db.workers (db w))).
    { unfold distributeReward, bind, Prisma.Int.
      rewrite Ha. cbn [ret].
      rewrite worker_credit_run.
      destruct (Prisma.lookup Worker.id (wr_workerId r) (Db.workers (db w)))
        as [wk|] eqn:Hl; [|now elim Hw].
      destruct (lookup_key _ _ _ _ Hl) as [Hid Hin].
      destruct (proj1 (Forall_forall _ _) Hfit wk Hin) as [F0 F1].
      apply balances_fit_spec in F0. apply balances_fit_spec in F1.
      unfold settled_worker, rewards_of in F1.
      cbn [filter Worker.id Worker.pending_amount Worker.total_earned
           Worker.tasks_completed] in F1.
      rewrite Hid, N.eqb_refl in F1. cbn [map List.length] in F1.
      change (sum_Z (?x :: ?l)) with (x + sum_Z l) in F1.
      pose proof (sum_amounts_nonneg _ (rewards_of_payable (wr_workerId r) _ Hrs)) as Hs.
      unfold rewards_of in Hs.
      assert (Hinc : Prisma.incrementable (Worker.pending_amount wk) (amount_of r)
                     && Prisma.incrementable (Worker.total_earned wk) (amount_of r)
                     && Prisma.incrementable (Worker.tasks_completed wk) 1 = true).
      { unfold Prisma.incrementable.
        rewrite !andb_true_iff, !fits_Int_spec. lia. }
      rewrite Hinc.
      rewrite worker_findUnique_run.
      cbn [db with_db Db.workers Prisma.set_workers].
      rewrite lookup_replace by reflexivity. rewrite Hl. cbn [option_map ret].
      unfold dispatch. cbn [net db with_db].
      match goal with
      | |- context [payout ?a ?x ?n] => destruct (Hpay a x n) as (sig & n' & ->)
      end.
      cbn [ret]. do 2 eexists. split; reflexivity. }
    destruct Hstep as (acc1 & w1 & -> & Hdb).
    apply IH; rewrite Hdb.
    + eapply Forall_impl; [|exact Hws']. cbn. intros r' Hr'.
      now apply lookup_replace_some.
    + unfold Prisma.replace. apply Forall_forall. intros w1' Hin.
      apply in_map_iff in Hin. destruct Hin as (w0 & <- & Hin).
      destruct (proj1 (Forall_forall _ _) Hfit w0 Hin) as [F0 F1].
      rewrite settled_worker_step. split; [|exact F1].
      destruct (N.eqb (Worker.id w0) (wr_workerId r)) eqn:E; [|exact F0].
      apply balances_fit_spec in F0. apply balances_fit_spec in F1.
      apply balances_fit_spec.
      unfold settled_worker, rewards_of in F1.
      cbn [filter Worker.id Worker.pending_amount Worker.total_earned
           Worker.tasks_completed] in F1.
      rewrite (N.eqb_sym (wr_workerId r) (Worker.id w0)), E in F1.
      cbn [map List.length] in F1.
      change (sum_Z (?x :: ?l)) with (x + sum_Z l) in F1.
      pose proof (sum_amounts_nonneg _ (rewards_of_payable (Worker.id w0) _ Hrs)) as Hs.
      unfold rewards_of in Hs.
      cbn [credit Worker.pending_amount Worker.total_earned Worker.tasks_completed].
      lia.
Qed.

(** X18: a settlement returns when nothing stands in its way.  For a task
    of the ledger that has reached the threshold and has no Result yet,
    when every amount of the reward list is an integer of an [Int] column
    and not negative, every rewarded worker is in the ledger, the pending
    balance, the total earned and the number of completed tasks of every
    worker are within the range of an [Int] column before the settlement
    and with all the rewards added, and the dispatcher accepts every
    transfer (as the simulated one does), [processTaskCompletion] returns
    the settlement of the consensus. *)
Theorem settlement_returns (env : Env) (payout : Dispatcher)
    (taskId : N) (w : World) (t : LoadedTask) :
  load taskId (db w) = Some t ->
  isReadyForConsensus (ConsensusService.taskStatus taskId t) = true ->
  has_result taskId (db w) = false ->
  (forall address amount n, exists sig n', payout address amount n = (Ok sig, n')) ->
  let c := ConsensusService.consensusOf env taskId t in
  Forall (fun r => payable r
                   /\ Prisma.lookup Worker.id (wr_workerId r) (Db.workers (db w)) <> None)
         (workerRewards c) ->
  Forall (fun w0 => balances_fit w0 = true
                    /\ balances_fit (settled_worker (workerRewards c) w0) = true)
         (Db.workers (db w)) ->
  exists s w',
    processTaskCompletion env payout taskId w = (Ok s, w')
    /\ s_consensus s = c
    /\ db w' = settled_db c taskId w.
Proof.
  intros Hl Hready Hno Hpay c Hrewards Hfit.
  assert (Hrun : exists s w',
             settlementTransaction payout taskId c w = (Ok s, w')).
  { unfold settlementTransaction, bind, new_Date.
    rewrite task_update_run. cbn [db seqs clock sent net].
    assert (Ht : Prisma.lookup Task.id taskId (Db.tasks (db w)) <> None).
    { unfold load in Hl. destruct (Prisma.lookup Task.id taskId (Db.tasks (db w)));
        [discriminate|discriminate Hl]. }
    destruct (Prisma.lookup Task.id taskId (Db.tasks (db w))); [|now elim Ht].
    rewrite taskResult_create_run.
    cbn [db seqs clock sent net with_db with_seqs].
    rewrite has_result_set_tasks, Hno. cbn zeta. cbn [TaskResult.id].
    match goal with
    | |- context [forM ?rs ?body ?w1] =>
        destruct (optionResults_loop_exact (results c) (taskResult_seq (seqs w)) w1)
          as (w2 & -> & _ & _ & _ & _ & _ & O6 & _)
    end.
    cbn [db with_db with_seqs Db.workers Prisma.set_taskResults Prisma.set_tasks] in O6.
    destruct (rewards_loop_returns payout (workerRewards c) Hpay) with (acc := @nil RewardTransaction) (w := w2)
      as (acc' & w3 & ->).
    - eapply Forall_impl; [|exact Hrewards]. cbn. tauto.
    - rewrite O6. eapply Forall_impl; [|exact Hrewards]. cbn. tauto.
    - rewrite O6. exact Hfit.
    - cbn [ret]. do 2 eexists. reflexivity. }
  destruct Hrun as (s & w' & Hrun).
  exists s, w'. unfold processTaskCompletion, bind.
  rewrite calculateConsensus_run, Hl, Hready. unfold transaction.
  fold c. rewrite Hrun. split; [reflexivity|].
  apply settlementTransaction_ok in Hrun.
  destruct Hrun as (Hdb & _ & _ & Hc & _). auto.
Qed.

(** The sample task, with a dispatcher that accepts every transfer. *)
Lemma settlement_returns_sample :
  exists s w',
    processTaskCompletion sample_env accepting_dispatcher 1 sample_world = (Ok s, w')
    /\ s_consensus s = ConsensusService.consensusOf sample_env 1 sample_loaded
    /\ db w' = settled_db (ConsensusService.consensusOf sample_env 1 sample_loaded)
                 1 sample_world.
Proof.
  apply (settlement_returns sample_env accepting_dispatcher 1 sample_world sample_loaded).
  - reflexivity.
  - vm_compute. reflexivity.
  - reflexivity.
  - intros address amount n. do 2 eexists. reflexivity.
  - repeat constructor; try (eexists; split; [vm_compute; reflexivity|lia]);
      discriminate.
  - repeat constructor.
Defined.

(* ===================================================================== *)
(** * The range of the credited columns *)
(* ===================================================================== *)

Lemma lookup_map {A} (key : A -> N) (k : N) (f : A -> A) (rows : list A) :
  (forall r, key (f r) = key r) ->
  Prisma.lookup key k (map f rows) = option_map f (Prisma.lookup key k rows).
Proof.
  intros Hk. unfold Prisma.lookup.
  induction rows as [|r rows IH]; [reflexivity|].
  cbn [map find]. rewrite Hk. destruct (N.eqb (key r) k); [reflexivity|exact IH].
Qed.

Lemma rewards_of_none (k : N) (rewards : list WorkerReward) :
  ~ In k (map wr_workerId rewards) -> rewards_of k rewards = [].
Proof.
  intros H. unfold rewards_of. apply filter_none. apply Forall_forall.
  intros r Hr. apply N.eqb_neq. intros E. apply H. rewrite <- E. now apply in_map.
Qed.

(** A settlement that throws leaves the ledger as it was. *)
Lemma processTaskCompletion_throw_db (env : Env) (payout : Dispatcher)
    (taskId : N) (w w' : World) (e : Exn) :
  processTaskCompletion env payout taskId w = (Throw e, w') -> db w' = db w.
Proof.
  unfold processTaskCompletion, bind.
  destruct (calculateConsensus_pure env taskId w) as [r ->].
  destruct r as [c|e0]; [|now intros [= _ <-]].
  unfold transaction.
  destruct (settlementTransaction payout taskId c w) as [[s1|e1] w2];
    [discriminate|].
  now intros [= _ <-].
Qed.

(** A step of the reward loop that returns has credited a row whose
    columns accepted the credit. *)
Lemma distributeReward_in_range (payout : Dispatcher)
    (acc acc' : list RewardTransaction) (reward : WorkerReward) (w w' : World) :
  distributeReward payout acc reward w = (Ok acc', w') ->
  Prisma.fits_Int (amount_of reward) = true
  /\ exists row,
       Prisma.lookup Worker.id (wr_workerId reward) (Db.workers (db w')) = Some row
       /\ balances_fit row = true.
Proof.
  unfold distributeReward, bind, Prisma.Int, amount_of.
  destruct (JS.to_Z (wr_amount reward)) as [a|]; cbn [ret throw]; [|discriminate].
  rewrite worker_credit_run.
  destruct (Prisma.lookup Worker.id (wr_workerId reward) (Db.workers (db w)))
    as [wk|] eqn:Hl; [|discriminate].
  match goal with |- context [if ?b then _ else _] => destruct b eqn:Hfit end;
    [|discriminate].
  rewrite worker_findUnique_run.
  cbn [db with_db Db.workers Prisma.set_workers].
  rewrite lookup_replace by reflexivity. rewrite Hl. cbn [option_map ret].
  destruct (lookup_key _ _ _ _ Hl) as [Hid _]. rewrite Hid, N.eqb_refl.
  unfold dispatch. cbn [net db with_db].
  destruct (payout _ _ _) as [[sig|e] n]; [|discriminate].
  intros [= <- <-]. cbn [db Db.workers Prisma.set_workers].
  rewrite lookup_replace by reflexivity. rewrite Hl. cbn [option_map].
  rewrite Hid, N.eqb_refl.
  unfold Prisma.incrementable in Hfit. rewrite !andb_true_iff in Hfit.
  destruct Hfit as [[[F1 F2] [_ F3]] [_ F4]].
  split; [exact F1|]. eexists. split; [reflexivity|].
  unfold balances_fit. cbn [Worker.pending_amount Worker.total_earned
                            Worker.tasks_completed].
  now rewrite F2, F3, F4.
Qed.

(** After a reward loop that returned, the credited columns of every
    rewarded worker hold values of their range. *)
Lemma rewards_loop_in_range (payout : Dispatcher) (rewards : list WorkerReward) :
  forall (acc acc' : list RewardTransaction) (w w' : World),
    foldM (distributeReward payout) rewards acc w = (Ok acc', w') ->
    Forall (fun r =>
              Prisma.fits_Int (amount_of r) = true
              /\ exists row,
                   Prisma.lookup Worker.id (wr_workerId r) (Db.workers (db w'))
                     = Some row
                   /\ balances_fit row = true)
           rewards.
Proof.
  induction rewards as [|r rewards IH]; intros acc acc' w w'; cbn [foldM];
    [constructor|].
  unfold bind.
  destruct (distributeReward payout acc r w) as [[acc1|e] w1] eqn:E1; [|discriminate].
  intros Hrest. pose proof (IH _ _ _ _ Hrest) as Hin.
  apply distributeReward_in_range in E1. destruct E1 as (Fa & row & Hrow & Hfit).
  constructor; [|exact Hin]. split; [exact Fa|].
  destruct (in_dec N.eq_dec (wr_workerId r) (map wr_workerId rewards)) as [Hk|Hk].
  - apply in_map_iff in Hk. destruct Hk as (r' & E & Hr').
    destruct (proj1 (Forall_forall _ _) Hin r' Hr') as (_ & H). now rewrite <- E.
  - apply rewards_loop_ok in Hrest. destruct Hrest as (_ & Hws & _).
    rewrite Hws, credit_rewards_map, lookup_map by reflexivity.
    rewrite Hrow. cbn [option_map]. exists (settled_worker rewards row).
    split; [reflexivity|].
    destruct (lookup_key _ _ _ _ Hrow) as [Hid _].
    unfold settled_worker. rewrite Hid, (rewards_of_none _ _ Hk).
    unfold balances_fit in *.
    cbn [map sum_Z fold_right List.length Z.of_nat Worker.pending_amount
         Worker.total_earned Worker.tasks_completed].
    now rewrite !Z.add_0_r.
Qed.

Lemma settlement_in_range (env : Env) (payout : Dispatcher)
    (taskId : N) (w w' : World) (s : Settlement) :
  processTaskCompletion env payout taskId w = (Ok s, w') ->
  Forall (fun r =>
            Prisma.fits_Int (amount_of r) = true
            /\ exists row,
                 Prisma.lookup Worker.id (wr_workerId r) (Db.workers (db w'))
                   = Some row
                 /\ balances_fit row = true)
         (workerRewards (s_consensus s)).
Proof.
  intros Hrun. apply processTaskCompletion_ok in Hrun.
  destruct Hrun as (t & _ & _ & _ & Hrun). revert Hrun.
  set (c := s_consensus s).
  unfold settlementTransaction, bind, new_Date.
  rewrite task_update_run. cbn [db seqs clock sent net].
  destruct (Prisma.lookup Task.id taskId (Db.tasks (db w))); [|discriminate].
  rewrite taskResult_create_run.
  cbn [db seqs clock sent net with_db with_seqs].
  rewrite has_result_set_tasks.
  destruct (has_result taskId (db w)); [discriminate|].
  cbn zeta. cbn [TaskResult.id].
  match goal with
  | |- context [forM ?rs ?body ?w1] =>
      destruct (optionResults_loop_exact (results c) (taskResult_seq (seqs w)) w1)
        as (w2 & -> & _)
  end.
  destruct (foldM (distributeReward payout) (workerRewards c) [] w2)
    as [[acc|e] w3] eqn:E3; [|discriminate].
  apply rewards_loop_in_range in E3.
  cbn [ret]. intros [= _ <-]. exact E3.
Qed.

(** X20: a settlement never leaves a credited balance out of range.  After
    a settlement that returned, every amount of the reward list is a
    value of an [Int] column, and the pending balance, the total earned
    and the number of completed tasks of every rewarded worker are values
    of an [Int] column. *)
Theorem settled_balances_are_in_range (env : Env) (payout : Dispatcher)
    (taskId : N) (w w' : World) (s : Settlement) :
  processTaskCompletion env payout taskId w = (Ok s, w') ->
  Forall (fun r =>
            (exists a, JS.to_Z (wr_amount r) = Some a
                       /\ -2147483648 <= a <= 2147483647)
            /\ exists row,
                 Prisma.lookup Worker.id (wr_workerId r) (Db.workers (db w'))
                   = Some row
                 /\ -2147483648 <= Worker.pending_amount row <= 2147483647
                 /\ -2147483648 <= Worker.total_earned row <= 2147483647
                 /\ -2147483648 <= Worker.tasks_completed row <= 2147483647)
         (workerRewards (s_consensus s)).
Proof.
  intros Hrun.
  pose proof (settlement_in_range _ _ _ _ _ _ Hrun) as Hin.
  pose proof Hrun as Hok. apply processTaskCompletion_ok in Hok.
  destruct Hok as (_ & _ & _ & _ & Hok).
  apply settlementTransaction_ok in Hok. destruct Hok as (_ & Hint & _).
  apply Forall_forall. intros r Hr.
  destruct (proj1 (Forall_forall _ _) Hin r Hr) as (Fa & row & Hrow & Hfit).
  pose proof (proj1 (Forall_forall _ _) Hint r Hr) as Hz. cbn beta in Hz.
  split.
  - unfold amount_of in Fa. destruct (JS.to_Z (wr_amount r)) as [a|]; [|now elim Hz].
    exists a. split; [reflexivity|]. now apply fits_Int_spec.
  - exists row. split; [exact Hrow|]. now apply balances_fit_spec.
Qed.

(** The settlement of the sample task: the balances of the two rewarded
    workers afterwards. *)
Lemma settled_balances_are_in_range_sample :
  exists s w',
    processTaskCompletion sample_env accepting_dispatcher 1 sample_world = (Ok s, w')
    /\ Forall (fun r =>
                 exists row,
                   Prisma.lookup Worker.id (wr_workerId r) (Db.workers (db w'))
                     = Some row
                   /\ Worker.total_earned row <= 2147483647)
              (workerRewards (s_consensus s)).
Proof.
  destruct (processTaskCompletion sample_env accepting_dispatcher 1 sample_world)
    as [[s|e] w'] eqn:E.
  - exists s, w'. split; [reflexivity|].
    eapply Forall_impl; [|exact (settled_balances_are_in_range _ _ _ _ _ _ E)].
    cbn beta. intros r (_ & row & Hrow & _ & Ht & _).
    exists row. split; [exact Hrow|]. apply Ht.
  - vm_compute in E. discriminate E.
Defined.

Lemma sum_amounts_member (r : WorkerReward) (rewards : list WorkerReward) :
  Forall (fun r => 0 <= amount_of r) rewards -> In r rewards ->
  amount_of r <= sum_Z (map amount_of rewards).
Proof.
  induction 1 as [|x rewards Hx Hall IH]; intros Hin; [destruct Hin|].
  cbn [map]. change (sum_Z (?x :: ?l)) with (x + sum_Z l).
  assert (0 <= sum_Z (map amount_of rewards)).
  { clear - Hall. induction Hall as [|y l Hy _ IH]; [cbn; lia|].
    cbn [map]. change (sum_Z (?x :: ?l)) with (x + sum_Z l). lia. }
  destruct Hin as [->|Hin]; [lia|]. specialize (IH Hin). lia.
Qed.

(** X21: a credit that a column cannot hold stops the settlement.  When
    no reward of the consensus is negative, and for one of them the
    pending balance or the total earned of its worker, with the reward
    added, exceeds the largest value of an [Int] column, or the number of
    completed tasks of that worker is that value, [processTaskCompletion]
    throws, and the ledger is what it was before the call: the task is
    not done, it has no Result, and no balance is credited. *)
Theorem overflowing_credit_rolls_back_settlement (env : Env) (payout : Dispatcher)
    (taskId : N) (w : World) (c : Consensus) (r : WorkerReward) (worker : Worker.t) :
  calculateConsensus env taskId w = (Ok c, w) ->
  Forall (fun r => 0 <= amount_of r) (workerRewards c) ->
  In r (workerRewards c) ->
  Prisma.lookup Worker.id (wr_workerId r) (Db.workers (db w)) = Some worker ->
  2147483647 < Worker.pending_amount worker + amount_of r
  \/ 2147483647 < Worker.total_earned worker + amount_of r
  \/ Worker.tasks_completed worker = 2147483647 ->
  exists e w',
    processTaskCompletion env payout taskId w = (Throw e, w')
    /\ db w' = db w.
Proof.
  intros Hc Hpos Hr Hw Hover.
  destruct (processTaskCompletion env payout taskId w) as [[s|e] w'] eqn:E.
  2:{ exists e, w'. split; [reflexivity|].
      exact (processTaskCompletion_throw_db _ _ _ _ _ _ E). }
  exfalso.
  pose proof (settlement_in_range _ _ _ _ _ _ E) as Hin.
  pose proof E as Hok. apply processTaskCompletion_ok in Hok.
  destruct Hok as (t & Hl & Hready & Hs & Hok).
  assert (Ec : s_consensus s = c).
  { rewrite calculateConsensus_run, Hl, Hready in Hc. injection Hc as <-. exact Hs. }
  apply settlementTransaction_ok in Hok. destruct Hok as (Hdb & _).
  rewrite Ec in *.
  destruct (proj1 (Forall_forall _ _) Hin r Hr) as (_ & row & Hrow & Hfit).
  rewrite Hdb in Hrow. cbn [settled_db Db.workers] in Hrow.
  rewrite lookup_map, Hw in Hrow by reflexivity. cbn [option_map] in Hrow.
  injection Hrow as <-.
  apply balances_fit_spec in Hfit.
  destruct (lookup_key _ _ _ _ Hw) as [Hid _].
  unfold settled_worker in Hfit.
  cbn [Worker.pending_amount Worker.total_earned Worker.tasks_completed] in Hfit.
  set (mine := rewards_of (Worker.id worker) (workerRewards c)) in *.
  assert (Hmine : In r mine).
  { unfold mine, rewards_of. apply filter_In. split; [exact Hr|].
    rewrite Hid. apply N.eqb_refl. }
  assert (Hall : Forall (fun r => 0 <= amount_of r) mine).
  { apply Forall_forall. intros x Hx. unfold mine, rewards_of in Hx.
    apply filter_In in Hx. exact (proj1 (Forall_forall _ _) Hpos x (proj1 Hx)). }
  pose proof (sum_amounts_member r mine Hall Hmine) as Hsum.
  assert (Hlen : 1 <= Z.of_nat (List.length mine)).
  { destruct mine; [destruct Hmine|cbn [List.length]; lia]. }
  lia.
Qed.

(** The total earned of the worker 11, who is to be rewarded with 100, is
    2147483647: the settlement of the sample task throws the error of the
    column, nothing is dispatched and the ledger is unchanged. *)
Lemma overflowing_credit_rolls_back_settlement_sample :
  exists e w',
    processTaskCompletion sample_env accepting_dispatcher 1 sample_world_top_earner
      = (Throw e, w')
    /\ db w' = db sample_world_top_earner
    /\ e = Prisma.P2020
    /\ sent w' = [].
Proof.
  destruct (overflowing_credit_rolls_back_settlement sample_env accepting_dispatcher 1
              sample_world_top_earner
              (ConsensusService.consensusOf sample_env 1 sample_loaded)
              {| wr_workerId := 11; wr_optionId := 1; wr_rank := 1;
                 wr_amount := JS.of_Z 100;
                 wr_percentage := pct 2 1 |}
              {| Worker.id := 11; Worker.address := "W11";
                 Worker.pending_amount := 500; Worker.locked_amount := 0;
                 Worker.total_earned := 2147483647; Worker.tasks_completed := 0 |})
    as (e & w' & Hrun & Hdb).
  - vm_compute. reflexivity.
  - vm_compute. repeat constructor; discriminate.
  - vm_compute. left. reflexivity.
  - reflexivity.
  - right. left. vm_compute. reflexivity.
  - exists e, w'. split; [exact Hrun|]. split; [exact Hdb|].
    vm_compute in Hrun. injection Hrun as <- <-. split; reflexivity.
Defined.

(* ===================================================================== *)
(** * The reward shown in the history *)
(* ===================================================================== *)

(** The reward list of a consensus, by rank. *)
Lemma workerRewards_by_rank (env : Env) (taskId : N) (t : LoadedTask) :
  workerRewards (ConsensusService.consensusOf env taskId t) =
  flat_map (fun r => map (reward_entry env (Task.serviceType (task t)) r) (voters r))
           (filter (fun r => rank r <=? 3) (ConsensusService.sortedResults t)).
Proof.
  cbn [workerRewards ConsensusService.consensusOf].
  rewrite calculateWorkerRewards_flat.
  rewrite (sortedResults_ranked (Array.length (submissions t)) t eq_refl).
  unfold Array.slice0, Array.entries.
  set (l := Array.sort _ _).
  rewrite (flat_map_entries_ranked
             (fun k r => map (fun workerId =>
                {| wr_workerId := workerId; wr_optionId := optionId r;
                   wr_rank := k;
                   wr_amount := SolanaService.calculateWorkerReward env
                                  (Task.serviceType (task t)) k;
                   wr_percentage := percentage r |}) (voters r))).
  - rewrite entries_from_snd, ranked_from_firstn. reflexivity.
  - apply ranked_from_entries.
Qed.

Lemma sortedResults_rank_pos (t : LoadedTask) (r : RankedResult) :
  In r (ConsensusService.sortedResults t) -> 1 <= rank r.
Proof.
  rewrite (sortedResults_ranked (Array.length (submissions t)) t eq_refl).
  intros Hr.
  pose proof (proj1 (Forall_forall _ _)
                (ranked_from_ranks (Array.length (submissions t)) _ 0) _ Hr) as H.
  cbn beta in H. lia.
Qed.

(** Among rows with distinct keys, [find] by key returns the row. *)
Lemma find_by_key {A} (key : A -> N) (l : list A) (r : A) :
  NoDup (map key l) -> In r l ->
  find (fun x => N.eqb (key x) (key r)) l = Some r.
Proof.
  induction l as [|x l IH]; intros Hnd Hin; [destruct Hin|].
  cbn [map] in Hnd. inversion Hnd as [|? ? Hx Hnd']; subst.
  cbn [find]. destruct Hin as [->|Hin].
  - now rewrite N.eqb_refl.
  - destruct (N.eqb (key x) (key r)) eqn:E; [|now apply IH].
    apply N.eqb_eq in E. exfalso. apply Hx. rewrite E. now apply in_map.
Qed.

(** X19: the history shows what the settlement credited.  After a
    settlement that returned, the reward that GET /history adds to a
    submission of the settled task for one of its options carries the rank
    and the percentage of that option in the consensus.  When the rank is
    1, 2 or 3, the reward list of the settlement holds the entry of the
    worker for that option with that rank and percentage, and the amount
    shown is the amount of the entry; otherwise the amount shown is 0 and
    the reward list holds no entry for that option.  (No row of the ledger
    refers to the id that the Result is going to get.) *)
Theorem history_shows_the_settled_reward (env : Env) (payout : Dispatcher)
    (taskId : N) (w w' : World) (s : Settlement) (t : LoadedTask)
    (submission : Submission.t) :
  processTaskCompletion env payout taskId w = (Ok s, w') ->
  Forall (fun r => OptionResult.task_result_id r <> taskResult_seq (seqs w))
         (Db.optionResults (db w)) ->
  load taskId (db w) = Some t ->
  In submission (submissions t) ->
  In (Submission.option_id submission) (map Option.id (options t)) ->
  exists r info,
    In r (results (s_consensus s))
    /\ optionId r = Submission.option_id submission
    /\ rewardInfo env submission w' = (Ok info, w')
    /\ ri_rank info = Some (rank r)
    /\ ri_percentage info = JS.or (percentage r) JS.zero
    /\ ((rank r <= 3
         /\ In {| wr_workerId := Submission.worker_id submission;
                  wr_optionId := Submission.option_id submission;
                  wr_rank := rank r;
                  wr_amount := ri_actualReward info;
                  wr_percentage := percentage r |}
               (workerRewards (s_consensus s)))
        \/ (3 < rank r
            /\ ri_actualReward info = JS.zero
            /\ forall e, In e (workerRewards (s_consensus s)) ->
                         wr_optionId e <> Submission.option_id submission)).
Proof.
  intros Hrun Hfresh Hl Hsub Hopt.
  pose proof (getTaskResults_settled _ _ _ _ _ _ Hrun Hfresh) as Hget.
  pose proof Hrun as Hok. apply processTaskCompletion_ok in Hok.
  destruct Hok as (t' & Hl' & _ & Hc & Hok).
  rewrite Hl in Hl'. injection Hl' as <-.
  apply settlementTransaction_ok in Hok. destruct Hok as (Hdb & _).
  destruct (sortedResults_ids t) as [Hnd Hids].
  apply Hids in Hopt. apply in_map_iff in Hopt. destruct Hopt as (r & Hk & Hr).
  pose proof (sortedResults_rank_pos _ _ Hr) as Hpos.
  assert (Hres : results (s_consensus s) = ConsensusService.sortedResults t)
    by (rewrite Hc; reflexivity).
  (* the task of the submission, after the settlement *)
  unfold load in Hl.
  destruct (Prisma.lookup Task.id taskId (Db.tasks (db w))) as [task0|] eqn:Ht;
    [|discriminate].
  injection Hl as <-. cbn [submissions options task] in *.
  apply filter_In in Hsub. destruct Hsub as [Hsub Htid]. apply N.eqb_eq in Htid.
  assert (Hid : Task.id task0 = taskId).
  { unfold Prisma.lookup in Ht. apply find_some in Ht. now apply N.eqb_eq. }
  set (t := {| task := task0;
               submissions := filter (fun s => N.eqb (Submission.task_id s) taskId)
                                     (Db.submissions (db w));
               options := filter (fun o => N.eqb (Option.task_id o) taskId)
                                 (Db.options (db w)) |}) in *.
  (* the row that the history finds *)
  assert (Hfind :
    find (fun v => N.eqb (rv_optionId v) (Submission.option_id submission))
         (map (view_of (Db.options (db w))) (results (s_consensus s)))
    = Some (view_of (Db.options (db w)) r)).
  { rewrite Hres, <- Hk.
    change (fun v => N.eqb (rv_optionId v) (optionId r))
      with (fun v => N.eqb (rv_optionId v)
                           (rv_optionId (view_of (Db.options (db w)) r))).
    apply (find_by_key rv_optionId).
    - rewrite map_map. exact Hnd.
    - now apply in_map. }
  eexists r, _. rewrite Hres. split; [exact Hr|]. split; [exact Hk|].
  split.
  { unfold rewardInfo, bind, read_db. rewrite Hdb.
    cbn [settled_db Db.tasks]. rewrite Htid.
    rewrite lookup_replace by (intros; apply mark_done_id).
    rewrite Ht. cbn [option_map]. rewrite Hid, N.eqb_refl.
    cbn [mark_done Task.done Task.id Task.serviceType].
    rewrite Hid, Hget. cbn [tr_results]. rewrite Hfind.
    unfold ret. reflexivity. }
  cbn [ri_rank ri_percentage ri_actualReward view_of rv_rank rv_percentage].
  split; [destruct (rank r =? 0) eqn:E; [lia|reflexivity]|].
  split; [reflexivity|].
  rewrite Hc, (workerRewards_by_rank env taskId t).
  destruct (rank r <=? 3) eqn:E.
  - left. split; [lia|]. apply in_flat_map. exists r. split.
    + apply filter_In. now split.
    + rewrite (sortedResults_voters t r Hr).
      apply in_map_iff. exists (Submission.worker_id submission).
      split; [unfold reward_entry; now rewrite Hk|].
      apply in_map. unfold votes_for. apply filter_In. split.
      * apply filter_In. split; [exact Hsub|]. now apply N.eqb_eq.
      * rewrite Hk. apply N.eqb_refl.
  - right. split; [lia|]. split; [reflexivity|].
    intros e He Heq. apply in_flat_map in He. destruct He as (r' & Hr' & He).
    apply filter_In in Hr'. destruct Hr' as [Hr' Hrank].
    apply in_map_iff in He. destruct He as (k & <- & _).
    cbn [reward_entry wr_optionId] in Heq.
    assert (r' = r).
    { pose proof (find_by_key optionId _ _ Hnd Hr') as F1.
      pose proof (find_by_key optionId _ _ Hnd Hr) as F2.
      rewrite Heq, <- Hk in F1. congruence. }
    subst r'. congruence.
Qed.

(** In the sample ledger the worker 11 chose the option 1, which the
    settlement ranks first: the history shows the rank 1. *)
Lemma history_shows_the_settled_reward_sample :
  exists s w' info,
    processTaskCompletion sample_env accepting_dispatcher 1 sample_world = (Ok s, w')
    /\ rewardInfo sample_env
         {| Submission.id := 2; Submission.option_id := 1;
            Submission.worker_id := 11; Submission.task_id := 1;
            Submission.amount := 500 |} w' = (Ok info, w')
    /\ ri_rank info = Some 1.
Proof.
  destruct (processTaskCompletion sample_env accepting_dispatcher 1 sample_world)
    as [[s|e] w'] eqn:E.
  - destruct (history_shows_the_settled_reward sample_env accepting_dispatcher 1
                sample_world w' s sample_loaded
                {| Submission.id := 2; Submission.option_id := 1;
                   Submission.worker_id := 11; Submission.task_id := 1;
                   Submission.amount := 500 |} E)
      as (r & info & Hr & Hk & Hinfo & Hrank & _).
    + constructor.
    + reflexivity.
    + cbn. auto.
    + cbn. auto.
    + exists s, w', info. split; [reflexivity|]. split; [exact Hinfo|].
      rewrite Hrank. f_equal.
      apply processTaskCompletion_ok in E. destruct E as (t & Hl & _ & Hc & _).
      assert (Ht : t = sample_loaded) by (vm_compute in Hl; now injection Hl).
      rewrite Hc, Ht in Hr. cbn [Submission.option_id] in Hk.
      vm_compute in Hr. destruct Hr as [<-|[<-|[]]]; [reflexivity|discriminate Hk].
  - vm_compute in E. discriminate E.
Defined.
